(** * pgAdmin 4 schema helpers: a shallow embedding of
    [web/pgadmin/browser/server_groups/servers/databases/schemas/utils.py]

    The Python helpers of the schema collection node are embedded as Rocq
    functions: Python [int] is [Z], [str] is [string] (one [ascii] per
    character), a raised exception is the [Raise] branch of [result], a
    [dict] is a [gmap] and an object that is mutated in place and shared
    lives in an explicit heap. *)

From Stdlib Require Import ZArith Ascii DecimalString SpecFloat.
From stdpp Require Import base option list gmap strings.

Local Open Scope Z_scope.

(** ** Python runtime fragments *)

Module Py.

(** The scalar values that occur in result rows and settings. *)
Inductive val : Type :=
| VNone
| VBool (b : bool)
| VInt (i : Z)
| VFloat (f : spec_float)
| VStr (s : string).

#[global] Instance spec_float_eq_dec : EqDecision spec_float.
Proof. solve_decision. Defined.
#[global] Instance val_eq_dec : EqDecision val.
Proof. solve_decision. Defined.

(** Exceptions the embedded code can raise; a [KeyError] carries the
    key that was not found. *)
Inductive exn : Type :=
| IndexError (msg : string)
| KeyError (key : val)
| TypeError (msg : string)
| ValueError (msg : string)
| OverflowError (msg : string).

Inductive result (A : Type) : Type :=
| Ok (a : A)
| Raise (e : exn).
Arguments Ok {A} a.
Arguments Raise {A} e.

Definition bind {A B} (m : result A) (k : A → result B) : result B :=
  match m with
  | Ok a => k a
  | Raise e => Raise e
  end.

(** The double quote character, and the one-character strings the
    source compares against. *)
Definition dquote : ascii := ascii_of_nat 34.
Definition dq : string := String dquote EmptyString.

Definition len (s : string) : Z := Z.of_nat (String.length s).

(** [str(i)] for an [int]. *)
Definition str_int (i : Z) : string := NilZero.string_of_int (Z.to_int i).

(** [s.startswith(p)] and [s.endswith(p)]. *)
Definition startswith (s p : string) : bool := String.prefix p s.

Definition endswith (s p : string) : bool :=
  let n := String.length s in
  let m := String.length p in
  (m <=? n)%nat && String.eqb (String.substring (n - m) m s) p.

(** [s.find(sub)]: the lowest index at which [sub] occurs, or [-1]. *)
Fixpoint find_from (sub s : string) (i : Z) : Z :=
  if String.prefix sub s then i
  else match s with
       | EmptyString => -1
       | String _ s' => find_from sub s' (i + 1)
       end.

Definition find (s sub : string) : Z := find_from sub s 0.

(** Slice bounds: a negative bound counts from the end, and every bound
    is clamped into [0, len]. *)
Definition clamp_index (n : nat) (i : Z) : nat :=
  let j := if i <? 0 then i + Z.of_nat n else i in
  Z.to_nat (Z.min (Z.max j 0) (Z.of_nat n)).

(** [s[lo:hi]], where [None] is an omitted bound. *)
Definition slice (lo hi : option Z) (s : string) : string :=
  let n := String.length s in
  let a := match lo with Some i => clamp_index n i | None => O end in
  let b := match hi with Some i => clamp_index n i | None => n end in
  String.substring a (b - a) s.

(** [s[i]]: one character, [IndexError] out of range. *)
Definition getitem (s : string) (i : Z) : result string :=
  let j := if i <? 0 then i + len s else i in
  if (0 <=? j) && (j <? len s)
  then Ok (String.substring (Z.to_nat j) 1 s)
  else Raise (IndexError "string index out of range").

(** [d[k]] on a dict with string keys, and [l[i]] on a list. *)
Definition getkey {A} (d : gmap string A) (k : string) : result A :=
  match d !! k with
  | Some v => Ok v
  | None => Raise (KeyError (VStr k))
  end.

Definition getindex {A} (l : list A) (i : nat) : result A :=
  match l !! i with
  | Some v => Ok v
  | None => Raise (IndexError "list index out of range")
  end.

Fixpoint in_chars (c : ascii) (chars : string) : bool :=
  match chars with
  | EmptyString => false
  | String d rest => Ascii.eqb c d || in_chars c rest
  end.

(** [s.rstrip(chars)]: drop every trailing character that is in [chars]. *)
Fixpoint rstrip (chars s : string) : string :=
  match s with
  | EmptyString => EmptyString
  | String c s' =>
      match rstrip chars s' with
      | EmptyString =>
          if in_chars c chars then EmptyString else String c EmptyString
      | r => String c r
      end
  end.

End Py.

Import Py.

#[global] Instance result_ret : MRet result := @Ok.
#[global] Instance result_bind : MBind result :=
  λ A B k m, Py.bind m k.
#[global] Instance result_fmap : FMap result :=
  λ A B f m, Py.bind m (λ a, Ok (f a)).

(** ** Type name constants of [pgadmin.utils.constants] *)

(** Modelled from the spec: the module [pgadmin.utils.constants] is not part
    of the sources at hand; the four names are the with/without-time-zone
    variants of time and timestamp as PostgreSQL displays them. *)
Definition DATATYPE_TIME_WITH_TIMEZONE : string := "time with time zone".
Definition DATATYPE_TIME_WITHOUT_TIMEZONE : string := "time without time zone".
Definition DATATYPE_TIMESTAMP_WITH_TIMEZONE : string :=
  "timestamp with time zone".
Definition DATATYPE_TIMESTAMP_WITHOUT_TIMEZONE : string :=
  "timestamp without time zone".

(** ** [pgadmin.utils.ajax] *)

Module Ajax.

(** Modelled from the spec: [pgadmin.utils.ajax.internal_server_error] is
    not part of the sources at hand; it builds a generic server-error
    result that contains the text passed as [errormsg].  A function that
    returns either its data or such a result has a [response] type. *)
Inductive response (A : Type) : Type :=
| Data (a : A)
| InternalServerError (errormsg : string).
Arguments Data {A} a.
Arguments InternalServerError {A} errormsg.

Definition internal_server_error {A} (errormsg : string) : response A :=
  InternalServerError errormsg.

End Ajax.

Import Ajax.

(** ** class DataTypeReader *)

Module DataTypeReader.

(** The argument of [get_length_precision]: a type OID, a type name, or
    [None]. *)
Inductive elem : Type :=
| ENone
| EInt (oid : Z)
| EStr (name : string).

#[global] Instance elem_eq_dec : EqDecision elem.
Proof. solve_decision. Defined.

(** Python truthiness: [None], [0] and [''] are false. *)
Definition truthy (e : elem) : bool :=
  match e with
  | ENone => false
  | EInt i => negb (i =? 0)
  | EStr s => negb (String.eqb s "")
  end.

(** [x in (a, b, ...)]. *)
Definition py_in (x : elem) (t : list elem) : bool :=
  bool_decide (x ∈ t).

Definition length_types : list elem :=
  [ EInt 1560; EStr "bit";
    EInt 1561; EStr "bit[]";
    EInt 1562; EStr "varbit"; EStr "bit varying";
    EInt 1563; EStr "varbit[]"; EStr "bit varying[]";
    EInt 1042; EStr "bpchar"; EStr "character";
    EInt 1043; EStr "varchar"; EStr "character varying";
    EInt 1014; EStr "bpchar[]"; EStr "character[]";
    EInt 1015; EStr "varchar[]"; EStr "character varying[]" ].

Definition datetime_types : list elem :=
  [ EInt 1083; EStr "time";
    EStr DATATYPE_TIME_WITHOUT_TIMEZONE;
    EInt 1114; EStr "timestamp";
    EStr DATATYPE_TIMESTAMP_WITHOUT_TIMEZONE;
    EInt 1115; EStr "timestamp[]";
    EStr "timestamp without time zone[]";
    EInt 1183; EStr "time[]";
    EStr "time without time zone[]";
    EInt 1184; EStr "timestamptz";
    EStr DATATYPE_TIMESTAMP_WITH_TIMEZONE;
    EInt 1185; EStr "timestamptz[]";
    EStr "timestamp with time zone[]";
    EInt 1186; EStr "interval";
    EInt 1187; EStr "interval[]"; EStr "interval[]";
    EInt 1266; EStr "timetz";
    EStr DATATYPE_TIME_WITH_TIMEZONE;
    EInt 1270; EStr "timetz"; EStr "time with time zone[]" ].

Definition precision_types : list elem :=
  [ EInt 1231; EStr "numeric[]";
    EInt 1700; EStr "numeric" ].

Definition get_length_precision (elemoid_or_name : elem)
  : bool * bool * string :=
  let typeval :=
    if truthy elemoid_or_name then
      if py_in elemoid_or_name length_types then "L"
      else if py_in elemoid_or_name datetime_types then "D"
      else if py_in elemoid_or_name precision_types then "P"
      else " "
    else "" in
  let precision := String.eqb typeval "P" in
  let length :=
    precision || bool_decide (typeval ∈ ["L"; "D"]) in
  (length, precision, typeval).

(** [_check_typmod(typmod, name)]: the parenthesised length decoration. *)
Definition _check_typmod (typmod : Z) (name : string) : string :=
  let length := "(" in
  let length :=
    if String.eqb name "numeric" then
      let _len := Z.shiftr (typmod - 4) 16 in
      let _prec := Z.land (typmod - 4) 65535 in
      let length := length +:+ str_int _len in
      length +:+ ("," +:+ str_int _prec)
    else if bool_decide (name ∈
              [ "time"; "timetz";
                DATATYPE_TIME_WITHOUT_TIMEZONE;
                DATATYPE_TIME_WITH_TIMEZONE;
                "timestamp"; "timestamptz";
                DATATYPE_TIMESTAMP_WITHOUT_TIMEZONE;
                DATATYPE_TIMESTAMP_WITH_TIMEZONE;
                "bit"; "bit varying"; "varbit" ]) then
      let _len := typmod in
      length +:+ str_int _len
    else if String.eqb name "interval" then
      let _len := Z.land typmod 65535 in
      (* the length is replaced by the empty string above 6 *)
      let _len_str := if 6 <? _len then "" else str_int _len in
      length +:+ _len_str
    else if String.eqb name "date" then
      ""
    else
      let _len := typmod - 4 in
      length +:+ str_int _len in
  if negb (String.eqb length "") then length +:+ ")" else length.

Definition _get_full_type_value (name schema length array : string)
  : string :=
  if String.eqb name "char" && String.eqb schema "pg_catalog" then
    dq +:+ "char" +:+ dq +:+ array
  else if String.eqb name DATATYPE_TIME_WITH_TIMEZONE then
    "time" +:+ length +:+ " with time zone" +:+ array
  else if String.eqb name DATATYPE_TIME_WITHOUT_TIMEZONE then
    "time" +:+ length +:+ " without time zone" +:+ array
  else if String.eqb name DATATYPE_TIMESTAMP_WITH_TIMEZONE then
    "timestamp" +:+ length +:+ " with time zone" +:+ array
  else if String.eqb name DATATYPE_TIMESTAMP_WITHOUT_TIMEZONE then
    "timestamp" +:+ length +:+ " without time zone" +:+ array
  else
    (name +:+ length) +:+ array.

(** [typname[len(schema) + 3]] and [typname[len(schema) + 1]] are index
    expressions: they select one character. *)
Definition _check_schema_in_name (typname schema : string)
  : result string :=
  if 0 <=? find typname (schema +:+ dq +:+ ".") then
    getitem typname (len schema + 3)
  else if 0 <=? find typname (schema +:+ ".") then
    getitem typname (len schema + 1)
  else Ok typname.

(** [while numdims: array += '[]'; numdims -= 1], entered with
    [numdims > 0]: one iteration per unit of [numdims]. *)
Fixpoint append_dims (n : nat) (array : string) : string :=
  match n with
  | O => array
  | S k => append_dims k (array +:+ "[]")
  end.

(** The name and dimension count after the array markers and the
    surrounding quotes are removed. *)
Definition strip_markers (name : string) (numdims : Z) : string * Z :=
  let '(name, numdims) :=
    if startswith name "_" then
      (slice (Some 1) None name, if numdims =? 0 then 1 else numdims)
    else (name, numdims) in
  let '(name, numdims) :=
    if endswith name "[]" then
      (slice None (Some (-2)) name, if numdims =? 0 then 1 else numdims)
    else (name, numdims) in
  let name :=
    if startswith name dq && endswith name dq
    then slice (Some 1) (Some (-1)) name else name in
  (name, numdims).

(** [if numdims > 0: while numdims: ...], starting from [array = '']. *)
Definition array_of (numdims : Z) : string :=
  if 0 <? numdims then append_dims (Z.to_nat numdims) "" else "".

(** [nsp if nsp is not None else '']. *)
Definition schema_of (nsp : option string) : string :=
  match nsp with Some s => s | None => "" end.

Definition get_full_type (nsp : option string) (typname : string)
    (is_dup : bool) (numdims typmod : Z) : result string :=
  let schema := schema_of nsp in
  name ← _check_schema_in_name typname schema;
  let '(name, numdims) := strip_markers name numdims in
  let array := array_of numdims in
  let length :=
    if negb (typmod =? -1) then _check_typmod typmod name else "" in
  Ok (_get_full_type_value name schema length array).

(** *** [re.sub(r'(\(\d+\))', '', s)]

    The pattern is an opening parenthesis, one or more digits and a
    closing parenthesis; every leftmost non-overlapping occurrence is
    deleted. *)
Definition is_digit (c : ascii) : bool :=
  (48 <=? nat_of_ascii c)%nat && (nat_of_ascii c <=? 57)%nat.

(** Number of characters that [\d+\)] consumes at the head of [s]
    ([seen]: a digit was consumed already). *)
Fixpoint match_digits_close (seen : bool) (s : string) : option nat :=
  match s with
  | EmptyString => None
  | String c s' =>
      if is_digit c then S <$> match_digits_close true s'
      else if seen && Ascii.eqb c ")" then Some 1%nat
      else None
  end.

Definition match_paren_digits (s : string) : option nat :=
  match s with
  | String c s' =>
      if Ascii.eqb c "(" then S <$> match_digits_close false s' else None
  | EmptyString => None
  end.

(** [skip] characters of an occurrence are still to be dropped. *)
Fixpoint sub_paren_digits_from (skip : nat) (s : string) : string :=
  match s with
  | EmptyString => EmptyString
  | String c s' =>
      match skip with
      | S k => sub_paren_digits_from k s'
      | O =>
          match match_paren_digits s with
          | Some n => sub_paren_digits_from (Nat.pred n) s'
          | None => String c (sub_paren_digits_from O s')
          end
      end
  end.

Definition sub_paren_digits (s : string) : string :=
  sub_paren_digits_from O s.

(** [idx] is an [int]: it is false in a condition only when it is 0,
    so the "not found" value [-1] counts as true. *)
Definition parse_type_name (type_name : string) : string :=
  let '(is_array, type_name) :=
    if endswith type_name "[]"
    then (true, rstrip "[]" type_name)
    else (false, type_name) in
  let idx := find type_name "(" in
  let type_name :=
    if negb (idx =? 0) && endswith type_name ")" then
      slice None (Some idx) type_name
    else if negb (idx =? 0) && startswith type_name "time" then
      let end_idx := find type_name ")" in
      if negb (end_idx =? 1) then sub_paren_digits type_name
      else type_name
    else if startswith type_name "interval" then
      "interval"
    else type_name in
  if is_array then type_name +:+ "[]" else type_name.

End DataTypeReader.

(** ** [trigger_definition] *)

Module Trigger.

Definition TRIGGER_TYPE_ROW : Z := Z.shiftl 1 0.
Definition TRIGGER_TYPE_BEFORE : Z := Z.shiftl 1 1.
Definition TRIGGER_TYPE_INSERT : Z := Z.shiftl 1 2.
Definition TRIGGER_TYPE_DELETE : Z := Z.shiftl 1 3.
Definition TRIGGER_TYPE_UPDATE : Z := Z.shiftl 1 4.
Definition TRIGGER_TYPE_TRUNCATE : Z := Z.shiftl 1 5.
Definition TRIGGER_TYPE_INSTEAD : Z := Z.shiftl 1 6.

(** [v & mask] for an [int] mask: [v] has to be an [int] (or a [bool],
    which is one). *)
Definition and_mask (v : val) (mask : Z) : result Z :=
  match v with
  | VInt i => Ok (Z.land i mask)
  | VBool b => Ok (Z.land (if b then 1 else 0) mask)
  | _ => Raise (TypeError "unsupported operand type(s) for &")
  end.

(** [data['tgtype'] & mask], as a truth value. *)
Definition tgtype_has (data : gmap string val) (mask : Z) : result bool :=
  v ← getkey data "tgtype";
  bits ← and_mask v mask;
  Ok (negb (bits =? 0)).

Definition trigger_definition (data : gmap string val)
  : result (gmap string val) :=
  before ← tgtype_has data TRIGGER_TYPE_BEFORE;
  data ← match before with
         | true => Ok (<["fires" := VStr "BEFORE"]> data)
         | false =>
             instead ← tgtype_has data TRIGGER_TYPE_INSTEAD;
             match instead with
             | true => Ok (<["fires" := VStr "INSTEAD OF"]> data)
             | false => Ok (<["fires" := VStr "AFTER"]> data)
             end
         end;
  b ← tgtype_has data TRIGGER_TYPE_ROW;
  let data := <["is_row_trigger" := VBool b]> data in
  b ← tgtype_has data TRIGGER_TYPE_INSERT;
  let data := <["evnt_insert" := VBool b]> data in
  b ← tgtype_has data TRIGGER_TYPE_DELETE;
  let data := <["evnt_delete" := VBool b]> data in
  b ← tgtype_has data TRIGGER_TYPE_UPDATE;
  let data := <["evnt_update" := VBool b]> data in
  b ← tgtype_has data TRIGGER_TYPE_TRUNCATE;
  let data := <["evnt_truncate" := VBool b]> data in
  Ok data.

End Trigger.

(** ** [parse_rule_definition] *)

Module Rule.

Definition condition_part_pattern : string :=
  "((?:ON)\s+(?:[\s\S]+?)(?:TO)\s+(?:[\s\S]+?)(?:DO))".
Definition condition_pattern : string :=
  "(?:WHERE)\s+(\([\s\S]*\))\s+(?:DO)".
Definition statement_pattern : string :=
  "(?:DO\s+)(?:INSTEAD\s+)?([\s\S]*)(?:;)".

Definition event_names : gmap string string :=
  {[ "1" := "SELECT"; "2" := "UPDATE"; "3" := "INSERT"; "4" := "DELETE" ]}.

(** [{...}[key]]: the keys of the table are strings, so a key of another
    type is never found. *)
Definition event_of (key : val) : result string :=
  match key with
  | VStr k =>
      match event_names !! k with
      | Some e => Ok e
      | None => Raise (KeyError key)
      end
  | _ => Raise (KeyError key)
  end.

(** One layer of enclosing brackets is removed. *)
Definition strip_brackets (s : string) : string :=
  if startswith s "(" && endswith s ")"
  then slice (Some 1) (Some (-1)) s else s.

(** [match_obj[i]]. *)
Definition group (match_obj : list string) (i : nat) : result string :=
  match match_obj !! i with
  | Some g => Ok g
  | None => Raise (IndexError "no such group")
  end.

Section WithBuiltins.

(** [re.search(pattern, text)] of the Python library: [None], or the
    groups of the leftmost match (group 0 first).  [repr] of a value,
    which is the text of a [KeyError]. *)
Variable re_search : string → string → option (list string).
Variable py_repr : val → string.

(** [str(e)]. *)
Definition str_exn (e : exn) : string :=
  match e with
  | KeyError k => py_repr k
  | IndexError msg | TypeError msg | ValueError msg
  | OverflowError msg => msg
  end.

(** [re.search] accepts a string only. *)
Definition search (pattern : string) (text : val)
  : result (option (list string)) :=
  match text with
  | VStr t => Ok (re_search pattern t)
  | _ => Raise (TypeError "expected string or bytes-like object")
  end.

(** The body of the [try] block: the row with the four fields added,
    or the exception that was raised. *)
Definition rule_fields (res : gmap string (list (gmap string val)))
  : result (gmap string val) :=
  rows ← getkey res "rows";
  res_data ← getindex rows 0;
  data_def ← getkey res_data "definition";
  condition_part_match ← search condition_part_pattern data_def;
  condition ←
    match condition_part_match with
    | Some m =>
        condition_part ← group m 1;
        match re_search condition_pattern condition_part with
        | Some m' =>
            condition ← group m' 1;
            Ok (strip_brackets condition)
        | None => Ok ""
        end
    | None => Ok ""
    end;
  statement_match ← search statement_pattern data_def;
  statement ←
    match statement_match with
    | Some m =>
        statement ← group m 1;
        Ok (strip_brackets statement)
    | None => Ok ""
    end;
  ev_type ← getkey res_data "ev_type";
  event ← event_of ev_type;
  let res_data := <["event" := VStr event]> res_data in
  is_instead ← getkey res_data "is_instead";
  let res_data := <["do_instead" := is_instead]> res_data in
  let res_data := <["statements" := VStr statement]> res_data in
  let res_data := <["condition" := VStr condition]> res_data in
  Ok res_data.

(** [try: ... except Exception as e: return internal_server_error(...)] *)
Definition parse_rule_definition
    (res : gmap string (list (gmap string val)))
  : response (gmap string val) :=
  match rule_fields res with
  | Ok res_data => Data res_data
  | Raise e => internal_server_error (str_exn e)
  end.

End WithBuiltins.

End Rule.

(** ** class VacuumSettings *)

Module VacuumSettings.

(** A list of rows is one heap object, named by its index in [heap]; the
    row dicts belong to their list (the driver builds a fresh dict per
    row, and [copy.deepcopy] copies the dicts with the list).  The class
    attribute [vacuum_settings] maps a server id to a dict from setting
    type to a reference to such a list, and [queries] records every SQL
    text handed to [conn.execute_dict]. *)
Record state : Type := State {
  heap : list (list (gmap string val));
  vacuum_settings : gmap Z (gmap string nat);
  queries : list string
}.

Definition set_heap (f : list (list (gmap string val)) →
                         list (list (gmap string val))) (s : state) :=
  State (f (heap s)) (vacuum_settings s) (queries s).
Definition set_vacuum_settings
    (f : gmap Z (gmap string nat) → gmap Z (gmap string nat))
    (s : state) :=
  State (heap s) (f (vacuum_settings s)) (queries s).

(** What [conn.execute_dict] answers: [(True, {'rows': rows})] or
    [(False, message)].  A connection answers a SQL text given the
    queries that were issued before. *)
Inductive exec_result : Type :=
| ExecOk (rows : list (gmap string val))
| ExecFail (msg : string).

Definition connection : Type := list string → string → exec_result.

(** Computations that read and write the state and may raise. *)
Definition M (A : Type) : Type := state → result A * state.

#[global] Instance M_ret : MRet M := λ A a s, (Ok a, s).
#[global] Instance M_bind : MBind M := λ A B k m s,
  match m s with
  | (Ok a, s') => k a s'
  | (Raise e, s') => (Raise e, s')
  end.

Definition lift {A} (r : result A) : M A := λ s, (r, s).

(** [for x in l: body(x)]. *)
Fixpoint for_each {A} (body : A → M ()) (l : list A) : M () :=
  match l with
  | [] => mret ()
  | x :: rest => body x ≫= λ _, for_each body rest
  end.

(** A new list object. *)
Definition alloc (rows : list (gmap string val)) : M nat := λ s,
  (Ok (length (heap s)), set_heap (λ h, h ++ [rows]) s).

Definition read_list (l : nat) : M (list (gmap string val)) := λ s,
  (getindex (heap s) l, s).

(** [row[k]], [row[k] = v] and [row.pop(k, None)] for row [i] of the
    list object [l]. *)
Definition row_get (l i : nat) (k : string) : M val := λ s,
  (rows ← getindex (heap s) l; row ← getindex rows i; getkey row k, s).

Definition row_set (l i : nat) (k : string) (v : val) : M () := λ s,
  (Ok (), set_heap (alter (alter (<[k := v]>) i) l) s).

Definition row_pop (l i : nat) (k : string) : M () := λ s,
  (Ok (), set_heap (alter (alter (delete k) i) l) s).

(** [conn.execute_dict(SQL)]: the query is issued, and a successful
    answer is a new list of rows. *)
Definition execute_dict (conn : connection) (SQL : string)
  : M (response nat) := λ s,
  let s' := State (heap s) (vacuum_settings s) (queries s ++ [SQL]) in
  match conn (queries s) SQL with
  | ExecOk rows => (alloc rows ≫= λ l, mret (Data l)) s'
  | ExecFail msg => (Ok (InternalServerError msg), s')
  end.

(** [d[k]] on an ordered dict with string keys (a JSON object). *)
Fixpoint dict_get {A} (d : list (string * A)) (k : string) : result A :=
  match d with
  | [] => Raise (KeyError (VStr k))
  | (k', v) :: rest => if String.eqb k' k then Ok v else dict_get rest k
  end.

Definition dict_get_val {A} (d : list (string * A)) (k : val) : result A :=
  match k with
  | VStr n => dict_get d n
  | _ => Raise (KeyError k)
  end.

(** [value % 1 == 0] for a [float]: the remainder is zero exactly for
    a finite value without fractional part (for an infinity or a NaN
    the remainder is a NaN). *)
Definition float_mod_1_eq_0 (value : spec_float) : bool :=
  match value with
  | S754_zero _ => true
  | S754_finite _ m e =>
      if 0 <=? e then true else Z.pos m mod 2 ^ (- e) =? 0
  | S754_infinity _ | S754_nan => false
  end.

(** [int(value)] for a [float]: truncation towards zero. *)
Definition int_of_float (value : spec_float) : result Z :=
  match value with
  | S754_zero _ => Ok 0
  | S754_finite sgn m e =>
      let a := if 0 <=? e then Z.pos m * 2 ^ e
               else Z.pos m / 2 ^ (- e) in
      Ok (if sgn then - a else a)
  | S754_infinity _ =>
      Raise (OverflowError "cannot convert float infinity to integer")
  | S754_nan => Raise (ValueError "cannot convert float NaN to integer")
  end.

(** The integer a float is equal to, if there is one: the finite value
    [(-1)^sgn * m * 2^e] has no fractional part when [e >= 0] or when
    [2^(-e)] divides [m]. *)
Definition integer_value (f : spec_float) : option Z :=
  match f with
  | S754_zero _ => Some 0
  | S754_finite sgn m e =>
      if 0 <=? e then Some (cond_Zopp sgn (Z.pos m * 2 ^ e))
      else if Z.pos m mod 2 ^ (- e) =? 0
           then Some (cond_Zopp sgn (Z.pos m / 2 ^ (- e)))
           else None
  | S754_infinity _ | S754_nan => None
  end.

(** An observed number is kept as an [int] when its fractional part is
    zero and as the [float] otherwise. *)
Definition stored_number (f : spec_float) : val :=
  match integer_value f with
  | Some z => VInt z
  | None => VFloat f
  end.

(** Computations that leave the cache and the query log alone. *)
Definition heap_only {A} (m : M A) : Prop :=
  ∀ s r s', m s = (r, s') →
    vacuum_settings s' = vacuum_settings s ∧ queries s' = queries s.

Section WithEnvironment.

(** The parsed template [vacuum_settings/vacuum_fields.json]: for each
    setting type, for each setting, the list [name, label,
    column_type].  The rendering of [vacuum_defaults.sql] for a
    [columns] argument.  [float(s)] for a string and [str(f)] for a
    float, of the Python library. *)
Variable vacuum_fields : list (string * list (string * list val)).
Variable render_sql : string → string.
Variable float_of_string : string → option spec_float.
Variable str_float : spec_float → string.

(** [float(v)]. *)
Definition py_float (v : val) : result spec_float :=
  match v with
  | VFloat f => Ok f
  | VBool b => Ok (if b then S754_finite false 1 0 else S754_zero false)
  | VInt i =>
      match binary_normalize 53 1024 i 0 false with
      | S754_infinity _ =>
          Raise (OverflowError "int too large to convert to float")
      | f => Ok f
      end
  | VStr t =>
      match float_of_string t with
      | Some f => Ok f
      | None => Raise (ValueError "could not convert string to float")
      end
  | VNone =>
      Raise (TypeError "float() argument must be a string or a number")
  end.

(** ['{0}'.format(v)]. *)
Definition format_val (v : val) : string :=
  match v with
  | VNone => "None"
  | VBool b => if b then "True" else "False"
  | VInt i => str_int i
  | VFloat f => str_float f
  | VStr t => t
  end.

(** [vacuum_fields[setting_type][row_name][j]]. *)
Definition vacuum_field (setting_type : string) (row_name : val)
    (j : nat) : result val :=
  fields ← dict_get vacuum_fields setting_type;
  entry ← dict_get_val fields row_name;
  getindex entry j.

(** The body of the loop over [res['rows']]. *)
Definition label_row (setting_type : string) (l i : nat) : M () :=
  row_name ← row_get l i "name";
  v ← lift (vacuum_field setting_type row_name 0);
  _ ← row_set l i "name" v;
  v ← lift (vacuum_field setting_type row_name 1);
  _ ← row_set l i "label" v;
  v ← lift (vacuum_field setting_type row_name 2);
  row_set l i "column_type" v.

(** [VacuumSettings.vacuum_settings[sid][setting_type]], read and
    written. *)
Definition cache_get (sid : Z) (setting_type : string) : M nat := λ s,
  match vacuum_settings s !! sid with
  | Some by_type => (getkey by_type setting_type, s)
  | None => (Raise (KeyError (VInt sid)), s)
  end.

Definition cache_set (sid : Z) (setting_type : string) (l : nat)
  : M () := λ s,
  match vacuum_settings s !! sid with
  | Some by_type =>
      (Ok (), set_vacuum_settings
                (<[sid := <[setting_type := l]> by_type]>) s)
  | None => (Raise (KeyError (VInt sid)), s)
  end.

(** The query for the settings of one type: the template
    [vacuum_defaults.sql] with the quoted, comma-separated keys as
    [columns]. *)
Definition vacuum_defaults_sql (fields : list (string * list val))
  : string :=
  let vacuum_fields_keys :=
    "'" +:+ String.concat "','" (fst <$> fields) +:+ "'" in
  render_sql vacuum_fields_keys.

(** The part of [fetch_default_vacuum_settings] after the cache
    lookup. *)
Definition fetch_from_server (conn : connection) (sid : Z)
    (setting_type : string) : M (response nat) :=
  fields ← lift (dict_get vacuum_fields setting_type);
  let SQL := vacuum_defaults_sql fields in
  res ← execute_dict conn SQL;
  match res with
  | InternalServerError msg => mret (internal_server_error msg)
  | Data l =>
      rows ← read_list l;
      _ ← for_each (label_row setting_type l) (seq 0 (length rows));
      _ ← cache_set sid setting_type l;
      l' ← cache_get sid setting_type;
      mret (Data l')
  end.

Definition fetch_default_vacuum_settings (conn : connection) (sid : Z)
    (setting_type : string) : M (response nat) := λ s,
  match vacuum_settings s !! sid with
  | Some by_type =>
      match by_type !! setting_type with
      | Some l => (Ok (Data l), s)
      | None => fetch_from_server conn sid setting_type s
      end
  | None =>
      fetch_from_server conn sid setting_type
        (set_vacuum_settings (<[sid := ∅]>) s)
  end.

Definition get_vacuum_table_settings (conn : connection) (sid : Z) :=
  fetch_default_vacuum_settings conn sid "table".

Definition get_vacuum_toast_settings (conn : connection) (sid : Z) :=
  fetch_default_vacuum_settings conn sid "toast".

(** [result.get(row_name, None)] on the observed values. *)
Definition result_get (result : gmap string val) (row_name : val)
  : val :=
  match row_name with
  | VStr n => default VNone (result !! n)
  | _ => VNone
  end.

(** The body of the loop over the copied rows. *)
Definition parse_row (result : gmap string val) (type : string)
    (l i : nat) : M () :=
  name ← row_get l i "name";
  let row_name :=
    if String.eqb type "toast"
    then VStr ("toast_" +:+ format_val name) else name in
  match result_get result row_name with
  | VNone => row_pop l i "value"
  | observed =>
      value ← lift (py_float observed);
      v ← lift (if float_mod_1_eq_0 value
                then VInt <$> int_of_float value
                else Ok (VFloat value));
      row_set l i "value" v
  end.

(** [sid] is [self.manager.sid].  A server-error result is not a list
    of rows: iterating over it raises. *)
Definition parse_vacuum_data (conn : connection) (sid : Z)
    (result : gmap string val) (type : string) : M nat :=
  res ← fetch_default_vacuum_settings conn sid type;
  match res with
  | InternalServerError _ =>
      lift (Raise (TypeError "'Response' object is not iterable"))
  | Data l =>
      rows ← read_list l;
      vacuum_settings_tmp ← alloc rows;
      _ ← for_each (parse_row result type vacuum_settings_tmp)
            (seq 0 (length rows));
      mret vacuum_settings_tmp
  end.

(** The rows of an answer that the labelling loop accepts: the name
    of the row is a setting of the type, with its three entries. *)
Definition known_row (setting_type : string) (row : gmap string val)
  : Prop :=
  ∃ name v0 v1 v2, row !! "name" = Some name ∧
    vacuum_field setting_type name 0 = Ok v0 ∧
    vacuum_field setting_type name 1 = Ok v1 ∧
    vacuum_field setting_type name 2 = Ok v2.

(** *** What [parse_vacuum_data] is to return, row by row

    These definitions follow the words of the specification and use
    none of the functions that embed the source: the observed
    mapping is read directly, under the name of the row, prefixed
    with [toast_] for the type [toast].  When a value is there and is not [None], the
    number it stands for is stored under [value], as an [int] when
    it has no fractional part ([stored_number]) and as the [float]
    otherwise; when no value is there, the key [value] is
    removed. *)
Definition observed_key (type name : string) : string :=
  if decide (type = "toast") then "toast_" +:+ name else name.

(** The number an observed value stands for: a float is itself, an
    integer is the double nearest to it (none when it is beyond the
    range of the doubles), a text is what [float_of_string] reads. *)
Definition observed_number (v : val) : option spec_float :=
  match v with
  | VNone => None
  | VFloat f => Some f
  | VBool true => Some (S754_finite false 1 0)
  | VBool false => Some (S754_zero false)
  | VInt i =>
      match binary_normalize 53 1024 i 0 false with
      | S754_infinity _ => None
      | f => Some f
      end
  | VStr t => float_of_string t
  end.

(** The row that is to be returned for a cached row; [None] for a
    row without a name that is a string, or with an observed value
    that stands for no number. *)
Definition expected_row (result : gmap string val) (type : string)
    (row : gmap string val) : option (gmap string val) :=
  match row !! "name" with
  | Some (VStr name) =>
      match result !! observed_key type name with
      | None | Some VNone => Some (delete "value" row)
      | Some v =>
          f ← observed_number v;
          Some (<["value" := stored_number f]> row)
      end
  | _ => None
  end.

(** The whole list, row by row, in order. *)
Definition expected_rows (result : gmap string val) (type : string)
    (rows : list (gmap string val)) : option (list (gmap string val)) :=
  mapM (expected_row result type) rows.

End WithEnvironment.

End VacuumSettings.

(** ** A small server, for concrete runs *)

Module VacuumExample.
Import VacuumSettings.

Definition table_fields : list (string * list val) :=
  [ ("autovacuum_enabled",
     [VStr "autovacuum_enabled"; VStr "Enabled"; VStr "bool"]);
    ("autovacuum_vacuum_threshold",
     [VStr "autovacuum_vacuum_threshold";
      VStr "Vacuum base threshold"; VStr "integer"]);
    ("autovacuum_vacuum_scale_factor",
     [VStr "autovacuum_vacuum_scale_factor";
      VStr "Vacuum scale factor"; VStr "number"]) ].

Definition fields : list (string * list (string * list val)) :=
  [ ("table", table_fields);
    ("toast",
     [ ("autovacuum_enabled",
        [VStr "autovacuum_enabled"; VStr "Enabled"; VStr "bool"]) ]) ].

Definition render (columns : string) : string :=
  "SELECT name, setting FROM pg_settings WHERE name IN (" +:+ columns
  +:+ ")".

(** A server that always answers with two of the settings. *)
Definition answer : list (gmap string val) :=
  [ {[ "name" := VStr "autovacuum_vacuum_threshold";
       "setting" := VStr "50"; "value" := VStr "50" ]};
    {[ "name" := VStr "autovacuum_vacuum_scale_factor";
       "setting" := VStr "0.2" ]} ].

Definition conn : connection := λ _ _, ExecOk answer.

(** A server that is down. *)
Definition down : connection := λ _ _, ExecFail "connection lost".

Definition float_of_string (t : string) : option spec_float := None.
Definition str_float (f : spec_float) : string := "nan".

Definition s0 : state := State [] ∅ [].

(** The state after the first fetch of the table settings. *)
Definition s1 : state :=
  (fetch_default_vacuum_settings fields render conn 1 "table" s0).2.

(** Observed values: a threshold of 75.0; no scale factor. *)
Definition observed : gmap string val :=
  {[ "autovacuum_vacuum_threshold" := VFloat (S754_finite false 75 0) ]}.

End VacuumExample.

(** ** class SchemaChildModule *)

Module SchemaChildModule.

(** Python truthiness of a scalar value: [None], [False], zero and the
    empty string are false (a NaN is true). *)
Definition truthy (v : val) : bool :=
  match v with
  | VNone => false
  | VBool b => b
  | VInt i => negb (i =? 0)
  | VFloat (S754_zero _) => false
  | VFloat _ => true
  | VStr s => negb (String.eqb s "")
  end.

(** [a and b] and [a or b] give one of their operands, and evaluate the
    second one only when the first does not decide. *)
Definition py_and (a b : result val) : result val :=
  x ← a; if truthy x then b else Ok x.

Definition py_or (a b : result val) : result val :=
  x ← a; if truthy x then Ok x else b.

Definition py_not (a : result val) : result val :=
  x ← a; Ok (VBool (negb (truthy x))).

(** [v in schemas] for a list of schema names. *)
Definition in_schemas (v : val) (schemas : list string) : bool :=
  match v with
  | VStr s => bool_decide (s ∈ schemas)
  | _ => false
  end.

Section WithClass.

(** The class attributes, which a subclass may set, and the outcome of
    [CollectionNodeModule.backend_supported(self, manager, **kwargs)],
    which is evaluated last. *)
Variable CATALOG_DB_SUPPORTED : bool.
Variable SUPPORTED_SCHEMAS : option (list string).
Variable collection_backend_supported : result val.

Definition backend_supported (kwargs : gmap string val) : result val :=
  py_and
    (py_or
       (py_and (getkey kwargs "is_catalog")
          (py_or
             (py_and (Ok (VBool CATALOG_DB_SUPPORTED))
                (getkey kwargs "db_support"))
             (py_and (py_not (Ok (VBool CATALOG_DB_SUPPORTED)))
                (py_and (py_not (getkey kwargs "db_support"))
                   (py_or
                      (Ok (VBool
                             (bool_decide (SUPPORTED_SCHEMAS = None))))
                      (x ← getkey kwargs "schema_name";
                       Ok (VBool
                             (in_schemas x
                                (default [] SUPPORTED_SCHEMAS)))))))))
       (py_and (py_not (getkey kwargs "is_catalog"))
          (Ok (VBool CATALOG_DB_SUPPORTED))))
    collection_backend_supported.

End WithClass.

End SchemaChildModule.

(** ** [DataTypeReader.get_types] and its length bounds *)

Module DataTypeCatalog.
Import DataTypeReader.

(** [length] and [precision] are tested for truth; here they are the
    booleans that [get_types] passes. *)
Definition _types_length_checks (length : bool) (typeval : string)
    (precision : bool) : Z * Z :=
  let min_val := 0 in
  let max_val := 0 in
  if length then
    let min_val := if String.eqb typeval "D" then 0 else 1 in
    let max_val :=
      if precision then 1000
      else if negb (min_val =? 0) then
        (* Max of integer value *)
        2147483647
      else
        (* Max value is 6 for data type like interval, timestamptz *)
        if String.eqb typeval "D" then 6 else 10 in
    (min_val, max_val)
  else (min_val, max_val).

(** One element of the list that [get_types] returns. *)
Record type_entry : Type := TypeEntry {
  label : val;
  value : val;
  typval : string;
  precision : bool;
  length : bool;
  min_val : Z;
  max_val : Z;
  is_collatable : val;
  oid : val
}.

(** What the body of the [try] block can raise: an exception of a lookup,
    or the use of the local [typeval] before it has a value. *)
Inductive types_exn : Type :=
| Lookup (e : exn)
| UnboundLocalError (name : string).

(** What [get_types] returns: [(True, res)], the failed query as it is,
    [(False, rset)], or [(False, str(e))]. *)
Inductive types_result : Type :=
| Types (res : list type_entry)
| QueryFailed (rset : string)
| Failed (errormsg : string).

(** The value of [row['elemoid']] as the argument of
    [get_length_precision]: the tuples hold OIDs and names, and a bool or
    a float is equal to an OID only as the integer it is equal to (a
    float that is no integer is true and in no tuple, like 1). *)
Definition elem_of_val (v : val) : elem :=
  match v with
  | VNone => ENone
  | VStr s => EStr s
  | VInt i => EInt i
  | VBool b => EInt (if b then 1 else 0)
  | VFloat f =>
      match VacuumSettings.integer_value f with
      | Some z => EInt z
      | None => EInt 1
      end
  end.

Definition row_key (row : gmap string val) (k : string)
  : types_exn + val :=
  match row !! k with
  | Some v => inr v
  | None => inl (Lookup (KeyError (VStr k)))
  end.

(** One turn of the loop over [rset['rows']].  [typeval] is the local of
    that name: [None] until an iteration assigns it, and then whatever
    the last assignment left. *)
Definition types_row (typeval : option string) (row : gmap string val)
  : types_exn + (option string * type_entry) :=
  let precision := false in
  let length := false in
  match row_key row "elemoid" with
  | inl e => inl e
  | inr elemoid =>
      let '(length, precision, typeval) :=
        if SchemaChildModule.truthy elemoid then
          let '(l, p, t) := get_length_precision (elem_of_val elemoid) in
          (l, p, Some t)
        else (length, precision, typeval) in
      match typeval with
      | None => inl (UnboundLocalError "typeval")
      | Some tv =>
          let '(min_val, max_val) :=
            _types_length_checks length tv precision in
          match row_key row "typname" with
          | inl e => inl e
          | inr typname =>
              match row_key row "is_collatable" with
              | inl e => inl e
              | inr is_collatable =>
                  match row_key row "oid" with
                  | inl e => inl e
                  | inr oid =>
                      inr (typeval,
                           TypeEntry typname typname tv precision length
                             min_val max_val is_collatable oid)
                  end
              end
          end
      end
  end.

(** The loop: [res] grows by one entry per row, and an exception ends
    it. *)
Fixpoint types_rows (typeval : option string)
    (rows : list (gmap string val)) (res : list type_entry)
  : types_exn + list type_entry :=
  match rows with
  | [] => inr res
  | row :: rest =>
      match types_row typeval row with
      | inl e => inl e
      | inr (typeval, entry) => types_rows typeval rest (res ++ [entry])
      end
  end.

(** What an entry is, given its row and the class letter that was
    current before the row. *)
Definition entry_of_row (before : option string)
    (row : gmap string val) (entry : type_entry) : Prop :=
  ∃ elemoid,
    row !! "elemoid" = Some elemoid ∧
    row !! "typname" = Some (label entry) ∧
    value entry = label entry ∧
    row !! "is_collatable" = Some (is_collatable entry) ∧
    row !! "oid" = Some (oid entry) ∧
    (min_val entry, max_val entry) =
      _types_length_checks (length entry) (typval entry)
        (precision entry) ∧
    if SchemaChildModule.truthy elemoid then
      (length entry, precision entry, typval entry) =
        get_length_precision (elem_of_val elemoid)
    else
      length entry = false ∧ precision entry = false ∧
      before = Some (typval entry).

(** Each entry is built from its own row, except for the class letter
    of a row without element type, which is the one of the entry
    before it. *)
Inductive entries_of (before : option string)
  : list (gmap string val) → list type_entry → Prop :=
| entries_nil : entries_of before [] []
| entries_cons row entry rows res :
    entry_of_row before row entry →
    entries_of (Some (typval entry)) rows res →
    entries_of before (row :: rows) (entry :: res).

(** The rows on which one turn of the loop does not raise. *)
Definition complete_row (row : gmap string val) : Prop :=
  is_Some (row !! "elemoid") ∧ is_Some (row !! "typname") ∧
  is_Some (row !! "is_collatable") ∧ is_Some (row !! "oid").

Definition has_element_type (row : gmap string val) : Prop :=
  ∃ elemoid, row !! "elemoid" = Some elemoid ∧
    SchemaChildModule.truthy elemoid = true.

Section WithConnection.

(** The rendering of [get_types.sql], [conn.execute_2darray] and
    [str(e)]. *)
Variable render_get_types :
  string → bool → string → string.
Variable execute_2darray : string → VacuumSettings.exec_result.
Variable str_exn : types_exn → string.

Definition _get_types_sql (condition : string) (add_serials : bool)
    (schema_oid : string) : VacuumSettings.exec_result :=
  let sql := render_get_types condition add_serials schema_oid in
  execute_2darray sql.

Definition get_types (condition : string) (add_serials : bool)
    (schema_oid : string) : bool * types_result :=
  match _get_types_sql condition add_serials schema_oid with
  | VacuumSettings.ExecFail rset => (false, QueryFailed rset)
  | VacuumSettings.ExecOk rows =>
      match types_rows None rows [] with
      | inl e => (false, Failed (str_exn e))
      | inr res => (true, Types res)
      end
  end.

End WithConnection.

End DataTypeCatalog.

(** ** [DataTypeReader.parse_length_precision] *)

Module LengthPrecision.
Import DataTypeReader.

(** The longest run of digits at the head of [s], and what follows. *)
Fixpoint span_digits (s : string) : string * string :=
  match s with
  | EmptyString => (EmptyString, EmptyString)
  | String c s' =>
      if is_digit c then
        let '(d, r) := span_digits s' in (String c d, r)
      else (EmptyString, s)
  end.

(** [re.search(r'(\d+)', s)]: group 1 of the leftmost match, which is
    the first run of digits. *)
Fixpoint search_digits (s : string) : option string :=
  match s with
  | EmptyString => None
  | String c s' =>
      if is_digit c then Some (span_digits s).1 else search_digits s'
  end.

(** [r'(\d+),(\d+)'] at the head of [s]: the first run is the longest
    one, since a shorter one is followed by a digit and not by the
    comma. *)
Definition match_digits_pair (s : string) : option (string * string) :=
  let '(a, r) := span_digits s in
  match a, r with
  | String _ _, String c r' =>
      if Ascii.eqb c "," then
        match (span_digits r').1 with
        | EmptyString => None
        | b => Some (a, b)
        end
      else None
  | _, _ => None
  end.

(** [re.search(r'(\d+),(\d+)', s)]: groups 1 and 2 of the leftmost
    match. *)
Fixpoint search_digits_pair (s : string) : option (string * string) :=
  match match_digits_pair s with
  | Some p => Some p
  | None =>
      match s with
      | EmptyString => None
      | String _ s' => search_digits_pair s'
      end
  end.

Definition parse_length_precision (fulltype : string)
    (is_tlength is_precision : bool) : option string * option string :=
  let '(t_len, t_prec) := (None, None) in
  if is_tlength then
    if is_precision then
      match search_digits_pair fulltype with
      | Some (g1, g2) => (Some g1, Some g2)
      | None => (t_len, t_prec)
      end
    else
      match search_digits fulltype with
      | Some g1 => (Some g1, None)
      | None => (t_len, t_prec)
      end
  else (t_len, t_prec).

(** Strings of decimal digits. *)
Fixpoint all_digits (s : string) : bool :=
  match s with
  | EmptyString => true
  | String c s' => is_digit c && all_digits s'
  end.

Fixpoint no_digit (s : string) : bool :=
  match s with
  | EmptyString => true
  | String c s' => negb (is_digit c) && no_digit s'
  end.

(** The names that [_check_typmod] and [_get_full_type_value] treat in
    their last branch: the decoration is [(typmod - 4)] and it follows
    the name. *)
Definition plain_name (name schema : string) : bool :=
  negb (String.eqb name "numeric") &&
  negb (bool_decide (name ∈
          [ "time"; "timetz";
            DATATYPE_TIME_WITHOUT_TIMEZONE; DATATYPE_TIME_WITH_TIMEZONE;
            "timestamp"; "timestamptz";
            DATATYPE_TIMESTAMP_WITHOUT_TIMEZONE;
            DATATYPE_TIMESTAMP_WITH_TIMEZONE;
            "bit"; "bit varying"; "varbit" ])) &&
  negb (String.eqb name "interval") &&
  negb (String.eqb name "date") &&
  negb (String.eqb name "char" && String.eqb schema "pg_catalog").

End LengthPrecision.

(** ** Shapes of type names *)

Module TypeNameShape.

(** Every character of [s] is one of [chars]. *)
Fixpoint all_in (chars s : string) : bool :=
  match s with
  | EmptyString => true
  | String c s' => in_chars c chars && all_in chars s'
  end.

(** A name without parentheses and square brackets. *)
Definition no_bracket (s : string) : bool :=
  negb (in_chars "(" s) && negb (in_chars ")" s) &&
  negb (in_chars "[" s) && negb (in_chars "]" s).

(** The array suffix that [parse_type_name] puts back: one pair of
    brackets, whatever the number of dimensions. *)
Definition array_mark (dims : Z) : string :=
  if 0 <? dims then "[]" else "".

End TypeNameShape.

(** ** Rows of a type query, for concrete runs *)

Module CatalogExample.
Import DataTypeCatalog.

Definition render (condition : string) (add_serials : bool)
    (schema_oid : string) : string :=
  "SELECT * FROM pg_catalog.pg_type WHERE " +:+ condition.

(** A numeric array type, and a type without element type. *)
Definition rows : list (gmap string val) :=
  [ {[ "elemoid" := VInt 1700; "typname" := VStr "numeric[]";
       "is_collatable" := VBool false; "oid" := VInt 1231 ]};
    {[ "elemoid" := VInt 0; "typname" := VStr "point";
       "is_collatable" := VBool false; "oid" := VInt 600 ]} ].

Definition entries : list type_entry :=
  [ TypeEntry (VStr "numeric[]") (VStr "numeric[]") "P" true true 1 1000
      (VBool false) (VInt 1231);
    TypeEntry (VStr "point") (VStr "point") "P" false false 0 0
      (VBool false) (VInt 600) ].

Definition execute_2darray (sql : string) : VacuumSettings.exec_result :=
  VacuumSettings.ExecOk rows.

(** The same rows in the other order. *)
Definition execute_reversed (sql : string) : VacuumSettings.exec_result :=
  VacuumSettings.ExecOk (reverse rows).

Definition str_exn (e : types_exn) : string :=
  match e with
  | UnboundLocalError name =>
      "local variable '" +:+ name +:+ "' referenced before assignment"
  | Lookup _ => "lookup"
  end.

End CatalogExample.

(** ** What [parse_rule_definition] is to extract *)

Module RuleFields.
Import Rule.

(** A text in enclosing brackets, without them; any other text as it
    is.  [without_last c s] is [t] when [s] is [t] followed by [c]. *)
Fixpoint without_last (c : ascii) (s : string) : option string :=
  match s with
  | EmptyString => None
  | String d EmptyString =>
      if Ascii.eqb d c then Some EmptyString else None
  | String d rest => String d <$> without_last c rest
  end.

Definition unbracket (g : string) : string :=
  match g with
  | String "("%char rest => default g (without_last ")"%char rest)
  | _ => g
  end.

Section WithSearch.

Variable re_search : string → string → option (list string).

(** Group 1 of the leftmost match of a pattern. *)
Definition first_group (pattern text : string) : option string :=
  m ← re_search pattern text; m !! 1%nat.

(** The statements: what follows [DO] and an optional [INSTEAD], up
    to the last semicolon, without enclosing brackets; the empty
    string when the definition has no such part. *)
Definition rule_statement (definition : string) : string :=
  match first_group statement_pattern definition with
  | Some g => unbracket g
  | None => ""
  end.

(** The condition: the bracketed text after [WHERE], looked for in
    the part of the definition from [ON] to the first [DO], without
    its enclosing brackets; the empty string when there is no such
    part or no condition in it. *)
Definition rule_condition (definition : string) : string :=
  match first_group condition_part_pattern definition with
  | Some condition_part =>
      match first_group condition_pattern condition_part with
      | Some g => unbracket g
      | None => ""
      end
  | None => ""
  end.

End WithSearch.

End RuleFields.

(** ** The three patterns, matched *)

(** [re.search] for the constructs that the three patterns of
    [parse_rule_definition] are made of, with the order in which the
    library tries the alternatives: a greedy repetition takes as much as
    it can and gives back one character at a time, a lazy one takes as
    little as it can and asks for one more at a time, an optional part
    is tried first with the part and then without it, and the search
    starts at the leftmost position at which the whole pattern
    matches. *)
Module Re.

Inductive regex : Type :=
| Lit (text : string)
| Spaces
| AnyGreedy
| AnyLazy1
| Seq (r1 r2 : regex)
| Opt (r : regex)
| Group (r : regex).

(** The characters below 256 that [\s] matches in a text pattern. *)
Definition is_space (c : ascii) : bool :=
  let n := nat_of_ascii c in
  ((9 <=? n) && (n <=? 13) || (28 <=? n) && (n <=? 32)
   || (n =? 133) || (n =? 160))%nat.

(** [s] without the prefix [p]. *)
Fixpoint after_prefix (p s : string) : option string :=
  match p, s with
  | EmptyString, _ => Some s
  | String a p', String b s' =>
      if Ascii.eqb a b then after_prefix p' s' else None
  | String _ _, EmptyString => None
  end.

(** What was consumed between the text [s] and its suffix [rest]. *)
Definition consumed (s rest : string) : string :=
  String.substring 0 (String.length s - String.length rest) s.

Section WithResult.

Context {R : Type}.

(** Zero or more characters of a class: the longest run first. *)
Fixpoint greedily (p : ascii → bool) (s : string)
    (k : string → option R) : option R :=
  match s with
  | String c s' =>
      if p c
      then match greedily p s' k with
           | Some r => Some r
           | None => k s
           end
      else k s
  | EmptyString => k s
  end.

(** Zero or more characters of a class: the shortest run first. *)
Fixpoint lazily (p : ascii → bool) (s : string)
    (k : string → option R) : option R :=
  match k s with
  | Some r => Some r
  | None =>
      match s with
      | String c s' => if p c then lazily p s' k else None
      | EmptyString => None
      end
  end.

(** [run r s cap k]: match [r] at the start of [s], then go on with
    [k] on the rest; [cap] is what group 1 has captured so far. *)
Fixpoint run (r : regex) (s : string) (cap : option string)
    (k : string → option string → option R) : option R :=
  match r with
  | Lit text =>
      match after_prefix text s with
      | Some s' => k s' cap
      | None => None
      end
  | Spaces =>
      match s with
      | String c s' =>
          if is_space c then greedily is_space s' (λ s'', k s'' cap)
          else None
      | EmptyString => None
      end
  | AnyGreedy => greedily (λ _, true) s (λ s', k s' cap)
  | AnyLazy1 =>
      match s with
      | String _ s' => lazily (λ _, true) s' (λ s'', k s'' cap)
      | EmptyString => None
      end
  | Seq r1 r2 => run r1 s cap (λ s' cap', run r2 s' cap' k)
  | Opt r' =>
      match run r' s cap k with
      | Some x => Some x
      | None => k s cap
      end
  | Group r' => run r' s cap (λ s' _, k s' (Some (consumed s s')))
  end.

End WithResult.

(** The match at the start of [s]: group 0 and group 1. *)
Definition match_here (r : regex) (s : string) : option (list string) :=
  run r s None (λ rest cap, Some [consumed s rest; default "" cap]).

Fixpoint search (r : regex) (s : string) : option (list string) :=
  match match_here r s with
  | Some m => Some m
  | None =>
      match s with
      | String _ s' => search r s'
      | EmptyString => None
      end
  end.

(** The three patterns. *)
Definition condition_part : regex :=
  Group (Seq (Lit "ON") (Seq Spaces (Seq AnyLazy1
        (Seq (Lit "TO") (Seq Spaces (Seq AnyLazy1 (Lit "DO"))))))).

Definition condition : regex :=
  Seq (Lit "WHERE") (Seq Spaces
    (Seq (Group (Seq (Lit "(") (Seq AnyGreedy (Lit ")"))))
       (Seq Spaces (Lit "DO")))).

Definition statement : regex :=
  Seq (Lit "DO") (Seq Spaces
    (Seq (Opt (Seq (Lit "INSTEAD") Spaces))
       (Seq (Group AnyGreedy) (Lit ";")))).

Definition re_search (pattern text : string) : option (list string) :=
  if String.eqb pattern Rule.condition_part_pattern
  then search condition_part text
  else if String.eqb pattern Rule.condition_pattern
  then search condition text
  else if String.eqb pattern Rule.statement_pattern
  then search statement text
  else None.

End Re.

(** ** A rule definition, for a concrete run *)

Module RuleExample.

Definition definition : string :=
  "CREATE RULE r AS ON DELETE TO t WHERE (old.id > 0) DO INSTEAD (DELETE FROM u WHERE u.id = old.id);".

Definition row : gmap string val :=
  {[ "definition" := VStr definition; "ev_type" := VStr "4";
     "is_instead" := VBool true; "name" := VStr "r" ]}.

(** A second row, which is not looked at. *)
Definition other : gmap string val :=
  {[ "definition" := VStr "CREATE RULE s AS ON INSERT TO t DO NOTHING;";
     "ev_type" := VStr "3"; "is_instead" := VBool false;
     "name" := VStr "s" ]}.

Definition res : gmap string (list (gmap string val)) :=
  {[ "rows" := [row; other] ]}.

Definition repr (v : val) : string := "key".

(** The row that is to be returned. *)
Definition parsed : gmap string val :=
  {[ "definition" := VStr definition; "ev_type" := VStr "4";
     "is_instead" := VBool true; "name" := VStr "r";
     "event" := VStr "DELETE"; "do_instead" := VBool true;
     "statements" := VStr "DELETE FROM u WHERE u.id = old.id";
     "condition" := VStr "old.id > 0" ]}.

End RuleExample.

(** ** Cached settings and observed values, for a concrete parse *)

Module VacuumParseExample.
Import VacuumSettings.

Definition settings : list (string * list val) :=
  [ ("autovacuum_enabled",
     [VStr "autovacuum_enabled"; VStr "Enabled"; VStr "bool"]);
    ("autovacuum_vacuum_threshold",
     [VStr "autovacuum_vacuum_threshold";
      VStr "Vacuum base threshold"; VStr "integer"]);
    ("autovacuum_vacuum_scale_factor",
     [VStr "autovacuum_vacuum_scale_factor";
      VStr "Vacuum scale factor"; VStr "number"]);
    ("autovacuum_analyze_threshold",
     [VStr "autovacuum_analyze_threshold";
      VStr "Analyze base threshold"; VStr "integer"]) ].

Definition fields : list (string * list (string * list val)) :=
  [ ("table", settings); ("toast", settings) ].

(** The server answers with the four settings; the first row has a
    [value] column. *)
Definition answer : list (gmap string val) :=
  [ {[ "name" := VStr "autovacuum_enabled"; "setting" := VStr "on";
       "value" := VStr "on" ]};
    {[ "name" := VStr "autovacuum_vacuum_threshold";
       "setting" := VStr "50" ]};
    {[ "name" := VStr "autovacuum_vacuum_scale_factor";
       "setting" := VStr "0.2" ]};
    {[ "name" := VStr "autovacuum_analyze_threshold";
       "setting" := VStr "50" ]} ].

Definition conn : connection := λ _ _, ExecOk answer.

(** The doubles 75.0 and 0.25, as mantissa and exponent. *)
Definition float_75 : spec_float :=
  S754_finite false 5277655813324800 (-46).
Definition float_quarter : spec_float :=
  S754_finite false 4503599627370496 (-54).

(** [float] on the one text that is observed. *)
Definition float_of_string (t : string) : option spec_float :=
  if String.eqb t "0.25" then Some float_quarter else None.

(** Observed values of a table: a threshold of 75.0, a scale factor
    given as the text 0.25, an analyze threshold that is [None], and
    nothing for [autovacuum_enabled]. *)
Definition observed : gmap string val :=
  {[ "autovacuum_vacuum_threshold" := VFloat float_75;
     "autovacuum_vacuum_scale_factor" := VStr "0.25";
     "autovacuum_analyze_threshold" := VNone ]}.

(** Observed values of a toast table: the keys carry the prefix; the
    scale factor without prefix is the one of the table. *)
Definition observed_toast : gmap string val :=
  {[ "toast_autovacuum_vacuum_threshold" := VInt 100;
     "autovacuum_vacuum_scale_factor" := VStr "0.25" ]}.

(** The rows as the cache holds them after the fetch. *)
Definition cached_rows : list (gmap string val) :=
  [ {[ "name" := VStr "autovacuum_enabled"; "label" := VStr "Enabled";
       "column_type" := VStr "bool"; "setting" := VStr "on";
       "value" := VStr "on" ]};
    {[ "name" := VStr "autovacuum_vacuum_threshold";
       "label" := VStr "Vacuum base threshold";
       "column_type" := VStr "integer"; "setting" := VStr "50" ]};
    {[ "name" := VStr "autovacuum_vacuum_scale_factor";
       "label" := VStr "Vacuum scale factor";
       "column_type" := VStr "number"; "setting" := VStr "0.2" ]};
    {[ "name" := VStr "autovacuum_analyze_threshold";
       "label" := VStr "Analyze base threshold";
       "column_type" := VStr "integer"; "setting" := VStr "50" ]} ].

(** The state after the fetch for server 1 and a setting type. *)
Definition fetched (type : string) : state :=
  State [cached_rows] {[ 1 := {[ type := 0%nat ]} ]}
    [vacuum_defaults_sql VacuumExample.render settings].

(** The rows that are to be returned for the table: the [value] of
    the first row is gone, the threshold is the [int] 75, the scale
    factor is the [float] 0.25. *)
Definition parsed_rows : list (gmap string val) :=
  [ {[ "name" := VStr "autovacuum_enabled"; "label" := VStr "Enabled";
       "column_type" := VStr "bool"; "setting" := VStr "on" ]};
    {[ "name" := VStr "autovacuum_vacuum_threshold";
       "label" := VStr "Vacuum base threshold";
       "column_type" := VStr "integer"; "setting" := VStr "50";
       "value" := VInt 75 ]};
    {[ "name" := VStr "autovacuum_vacuum_scale_factor";
       "label" := VStr "Vacuum scale factor";
       "column_type" := VStr "number"; "setting" := VStr "0.2";
       "value" := VFloat float_quarter ]};
    {[ "name" := VStr "autovacuum_analyze_threshold";
       "label" := VStr "Analyze base threshold";
       "column_type" := VStr "integer"; "setting" := VStr "50" ]} ].

(** The rows that are to be returned for the toast table: only the
    threshold has an observed value. *)
Definition parsed_rows_toast : list (gmap string val) :=
  [ {[ "name" := VStr "autovacuum_enabled"; "label" := VStr "Enabled";
       "column_type" := VStr "bool"; "setting" := VStr "on" ]};
    {[ "name" := VStr "autovacuum_vacuum_threshold";
       "label" := VStr "Vacuum base threshold";
       "column_type" := VStr "integer"; "setting" := VStr "50";
       "value" := VInt 100 ]};
    {[ "name" := VStr "autovacuum_vacuum_scale_factor";
       "label" := VStr "Vacuum scale factor";
       "column_type" := VStr "number"; "setting" := VStr "0.2" ]};
    {[ "name" := VStr "autovacuum_analyze_threshold";
       "label" := VStr "Analyze base threshold";
       "column_type" := VStr "integer"; "setting" := VStr "50" ]} ].

End VacuumParseExample.

(** ** Invariants of the vacuum settings cache *)

Module VacuumInvariants.
Import VacuumSettings.

(** The reference that the cache holds for a server and a type. *)
Definition cached (s : state) (sid : Z) (setting_type : string)
  : option nat :=
  vacuum_settings s !! sid ≫= (.!! setting_type).

(** [s'] is a later state of [s]: every list of [s] is there and has
    the same rows, and every cache entry of [s] is there. *)
Definition grows (s s' : state) : Prop :=
  (∀ l rows, heap s !! l = Some rows → heap s' !! l = Some rows) ∧
  (∀ sid setting_type l,
     cached s sid setting_type = Some l →
     cached s' sid setting_type = Some l).

(** Every reference of the cache names a list of the heap. *)
Definition no_dangling (s : state) : Prop :=
  ∀ sid setting_type l,
    cached s sid setting_type = Some l → (l < List.length (heap s))%nat.

(** Computations that write at most to the lists from index [n] on, and
    neither add a list nor touch the cache or the query log. *)
Definition above (n : nat) {A} (m : M A) : Prop :=
  ∀ s r s', m s = (r, s') →
    (∀ l, (l < n)%nat → heap s' !! l = heap s !! l) ∧
    List.length (heap s') = List.length (heap s) ∧
    vacuum_settings s' = vacuum_settings s ∧ queries s' = queries s.

End VacuumInvariants.

(** * Runs of the embedded functions *)

Module Runs.
Import DataTypeReader.

Example full_type_varchar :
  get_full_type (Some "pg_catalog") "character varying" false 1 54
  = Ok "character varying(50)[]".
Proof. reflexivity. Qed.

Example full_type_array_marker :
  get_full_type (Some "public") "_int4" false 0 (-1) = Ok "int4[]".
Proof. reflexivity. Qed.

Example full_type_quoted_char :
  get_full_type (Some "pg_catalog") (dq +:+ "char" +:+ dq) false 0 (-1)
  = Ok (dq +:+ "char" +:+ dq).
Proof. reflexivity. Qed.

Example full_type_date : get_full_type None "date" false 0 8 = Ok "date".
Proof. reflexivity. Qed.

Example full_type_index_error :
  get_full_type (Some "myschema") "myschema." false 0 (-1)
  = Raise (IndexError "string index out of range").
Proof. reflexivity. Qed.

Example type_name_array :
  parse_type_name "character varying(50)[]" = "character varying[]".
Proof. reflexivity. Qed.

Example type_name_timestamp :
  parse_type_name "timestamp(3) with time zone"
  = "timestamp with time zone".
Proof. reflexivity. Qed.

Example type_name_interval :
  parse_type_name "interval hour to minute" = "interval".
Proof. reflexivity. Qed.

Example type_name_no_paren : parse_type_name "foo)" = "foo".
Proof. reflexivity. Qed.

Example sub_paren_digits_all :
  sub_paren_digits "time(33) x (a) (12)(4) () (5" = "time x (a)  () (5".
Proof. reflexivity. Qed.

Example length_precision_numeric :
  get_length_precision (EInt 1700) = (true, true, "P").
Proof. reflexivity. Qed.

Example length_precision_none :
  get_length_precision ENone = (false, false, "").
Proof. reflexivity. Qed.

(** A server that is down is asked again by the next call. *)
Example fetch_down_twice :
  let fetch :=
    VacuumSettings.fetch_default_vacuum_settings VacuumExample.fields
      VacuumExample.render VacuumExample.down 1 "table" in
  let '(r1, s1) := fetch VacuumExample.s0 in
  let '(r2, s2) := fetch s1 in
  r1 = Ok (InternalServerError "connection lost") ∧ r2 = r1 ∧
  length (VacuumSettings.queries s2) = 2%nat.
Proof. vm_compute. done. Qed.

End Runs.
(** * Facts about strings *)

Section StringFacts.

Lemma append_cons c (a b : string) :
  String c a +:+ b = String c (a +:+ b).
Proof. reflexivity. Qed.

Lemma append_assoc (a b c : string) : (a +:+ b) +:+ c = a +:+ (b +:+ c).
Proof.
  induction a as [|x a IH]; [reflexivity|].
  rewrite !append_cons. by rewrite IH.
Qed.

Lemma length_append (a b : string) :
  String.length (a +:+ b) = (String.length a + String.length b)%nat.
Proof.
  induction a as [|x a IH]; [reflexivity|].
  rewrite append_cons. simpl. by rewrite IH.
Qed.

Lemma substring_all (p : string) : String.substring 0 (String.length p) p = p.
Proof. induction p as [|x p IH]; [reflexivity|]. simpl. by rewrite IH. Qed.

Lemma substring_skip (q p : string) (m : nat) :
  String.substring (String.length q) m (q +:+ p) = String.substring 0 m p.
Proof.
  induction q as [|x q IH]; [reflexivity|].
  rewrite append_cons. simpl. exact IH.
Qed.

Lemma substring_split (s : string) (k : nat) :
  (k ≤ String.length s)%nat →
  s = String.substring 0 k s +:+ String.substring k (String.length s - k) s.
Proof.
  revert k. induction s as [|x s IH]; intros k Hk.
  - simpl in Hk. assert (k = O) as -> by lia. reflexivity.
  - destruct k as [|k].
    + simpl. by rewrite substring_all.
    + simpl in Hk. simpl. rewrite append_cons. f_equal. apply IH. lia.
Qed.

(** [endswith] is the suffix relation. *)
Lemma endswith_spec (s p : string) :
  endswith s p = true ↔ ∃ q, s = q +:+ p.
Proof.
  unfold endswith. split.
  - intros [Hle Heq]%andb_true_iff.
    apply Nat.leb_le in Hle. apply String.eqb_eq in Heq.
    exists (String.substring 0 (String.length s - String.length p) s).
    pose proof (substring_split s (String.length s - String.length p)) as H.
    replace (String.length s - (String.length s - String.length p))%nat
      with (String.length p) in H by lia.
    rewrite Heq in H. apply H. lia.
  - intros [q ->]. rewrite length_append. apply andb_true_iff. split.
    + apply Nat.leb_le. lia.
    + apply String.eqb_eq.
      replace (String.length q + String.length p - String.length p)%nat
        with (String.length q) by lia.
      rewrite substring_skip. apply substring_all.
Qed.

Lemma append_inj_last (q q' : string) (c d : ascii) :
  q +:+ String c "" = q' +:+ String d "" → c = d.
Proof.
  revert q'. induction q as [|x q IH]; intros [|y q'] H;
    rewrite ?append_cons in H; simplify_eq/=.
  - done.
  - destruct q'; discriminate.
  - destruct q; discriminate.
  - eauto.
Qed.

Lemma endswith_paren_not_array (s : string) :
  endswith s ")" = true → endswith s "[]" = false.
Proof.
  intros [q Hq]%endswith_spec.
  destruct (endswith s "[]") eqn:E; [|done].
  apply endswith_spec in E as [q' Hq'].
  rewrite Hq in Hq'.
  change "[]" with ("[" +:+ "]") in Hq'. rewrite <- append_assoc in Hq'.
  apply append_inj_last in Hq'. discriminate.
Qed.

Lemma startswith_cons (s : string) (c : ascii) :
  startswith s (String c "") = true → ∃ r, s = String c r.
Proof.
  unfold startswith. destruct s as [|x s]; simpl; [done|].
  destruct (Ascii.ascii_dec c x) as [->|]; [eauto|done].
Qed.

End StringFacts.

(** * DataTypeReader *)

Module DataTypeReaderFacts.
Import DataTypeReader.

(** The decoration computed for each family of type names. *)
Lemma check_typmod_numeric typmod :
  _check_typmod typmod "numeric" =
    "(" +:+ str_int (Z.shiftr (typmod - 4) 16) +:+ "," +:+
    str_int (Z.land (typmod - 4) 65535) +:+ ")".
Proof.
  unfold _check_typmod.
  change (String.eqb "numeric" "numeric") with true. cbv iota.
  rewrite !append_assoc. reflexivity.
Qed.

Lemma check_typmod_direct typmod name :
  name ∈ [ DATATYPE_TIME_WITH_TIMEZONE; DATATYPE_TIME_WITHOUT_TIMEZONE;
           DATATYPE_TIMESTAMP_WITH_TIMEZONE;
           DATATYPE_TIMESTAMP_WITHOUT_TIMEZONE ] →
  _check_typmod typmod name = "(" +:+ str_int typmod +:+ ")".
Proof.
  intros H. repeat (apply elem_of_cons in H as [->|H]);
    [reflexivity..|by apply elem_of_nil in H].
Qed.

Lemma get_full_type_unfold nsp typname is_dup numdims typmod raw name dims :
  _check_schema_in_name typname (schema_of nsp) = Ok raw →
  strip_markers raw numdims = (name, dims) →
  typmod ≠ -1 →
  get_full_type nsp typname is_dup numdims typmod =
    Ok (_get_full_type_value name (schema_of nsp)
          (_check_typmod typmod name) (array_of dims)).
Proof.
  intros Hraw Hstrip Hmod. unfold get_full_type.
  rewrite Hraw. unfold mbind, result_bind, Py.bind.
  rewrite Hstrip.
  by destruct (Z.eqb_spec typmod (-1)).
Qed.

(** C10: the flags computed by [get_length_precision] agree with the
    type class letter: [precision] holds exactly for ['P'], [length]
    exactly for ['P'], ['L'] and ['D'], so that [precision] implies
    [length]. *)
Theorem get_length_precision_flags (elemoid_or_name : elem) :
  let '(length, precision, typeval) :=
    get_length_precision elemoid_or_name in
  (precision = true ↔ typeval = "P") ∧
  (length = true ↔ typeval = "P" ∨ typeval = "L" ∨ typeval = "D") ∧
  (precision = true → length = true).
Proof.
  unfold get_length_precision.
  destruct (truthy elemoid_or_name);
    [destruct (py_in elemoid_or_name length_types);
     [|destruct (py_in elemoid_or_name datetime_types);
       [|destruct (py_in elemoid_or_name precision_types)]]|];
    vm_compute; intuition congruence.
Qed.

(** C3: for the base name [numeric] and a type modifier other than -1
    the decoration is [(p,s)] with [p = (typmod - 4) >> 16] and
    [s = (typmod - 4) & 0xFFFF]; the modifier 655366 without array
    dimensions gives [numeric(10,2)]. *)
Theorem get_full_type_numeric :
  (∀ nsp typname is_dup numdims typmod raw dims,
     _check_schema_in_name typname (schema_of nsp) = Ok raw →
     strip_markers raw numdims = ("numeric", dims) →
     typmod ≠ -1 →
     get_full_type nsp typname is_dup numdims typmod =
       Ok ("numeric" +:+ "(" +:+ str_int (Z.shiftr (typmod - 4) 16) +:+
           "," +:+ str_int (Z.land (typmod - 4) 65535) +:+ ")" +:+
           array_of dims)) ∧
  get_full_type None "numeric" false 0 655366 = Ok "numeric(10,2)".
Proof.
  split; [|reflexivity].
  intros nsp typname is_dup numdims typmod raw dims Hraw Hstrip Hmod.
  rewrite (get_full_type_unfold _ _ _ _ _ _ _ _ Hraw Hstrip Hmod).
  rewrite check_typmod_numeric. f_equal.
  unfold _get_full_type_value.
  change (String.eqb "numeric" "char") with false. cbv iota. simpl andb.
  change (String.eqb "numeric" DATATYPE_TIME_WITH_TIMEZONE) with false.
  change (String.eqb "numeric" DATATYPE_TIME_WITHOUT_TIMEZONE) with false.
  change (String.eqb "numeric" DATATYPE_TIMESTAMP_WITH_TIMEZONE)
    with false.
  change (String.eqb "numeric" DATATYPE_TIMESTAMP_WITHOUT_TIMEZONE)
    with false.
  cbv iota. by rewrite !append_assoc.
Qed.

Lemma get_full_type_numeric_witness :
  get_full_type (Some "public") "_numeric" true 0 655366 =
    Ok ("numeric" +:+ "(" +:+ str_int (Z.shiftr (655366 - 4) 16) +:+
        "," +:+ str_int (Z.land (655366 - 4) 65535) +:+ ")" +:+
        array_of 1).
Proof.
  apply (proj1 get_full_type_numeric (Some "public") "_numeric" true 0
           655366 "_numeric" 1); [reflexivity|reflexivity|lia].
Defined.

(** C5: for the base name [interval] the length is [typmod & 0xFFFF],
    replaced by the empty string when it exceeds 6: the modifier 9 is
    rendered without digits. *)
Theorem check_typmod_interval :
  (∀ typmod,
     _check_typmod typmod "interval" =
       "(" +:+ (if 6 <? Z.land typmod 65535 then ""
                else str_int (Z.land typmod 65535)) +:+ ")") ∧
  _check_typmod 9 "interval" = "()" ∧
  _check_typmod 9 "interval" ≠ "(9)" ∧
  get_full_type None "interval" false 0 9 = Ok "interval()".
Proof.
  split; [|split; [|split]]; [|reflexivity|discriminate|reflexivity].
  intros typmod. reflexivity.
Qed.

(** C8: for the with/without-time-zone variants of time and timestamp
    the length stands before the time-zone suffix. *)
Theorem get_full_type_time_zone nsp typname is_dup numdims typmod raw
    name dims :
  _check_schema_in_name typname (schema_of nsp) = Ok raw →
  strip_markers raw numdims = (name, dims) →
  typmod ≠ -1 →
  (name = "timestamp with time zone" →
   get_full_type nsp typname is_dup numdims typmod =
     Ok ("timestamp" +:+ "(" +:+ str_int typmod +:+ ")" +:+
         " with time zone" +:+ array_of dims)) ∧
  (name = "timestamp without time zone" →
   get_full_type nsp typname is_dup numdims typmod =
     Ok ("timestamp" +:+ "(" +:+ str_int typmod +:+ ")" +:+
         " without time zone" +:+ array_of dims)) ∧
  (name = "time with time zone" →
   get_full_type nsp typname is_dup numdims typmod =
     Ok ("time" +:+ "(" +:+ str_int typmod +:+ ")" +:+
         " with time zone" +:+ array_of dims)) ∧
  (name = "time without time zone" →
   get_full_type nsp typname is_dup numdims typmod =
     Ok ("time" +:+ "(" +:+ str_int typmod +:+ ")" +:+
         " without time zone" +:+ array_of dims)).
Proof.
  intros Hraw Hstrip Hmod.
  rewrite (get_full_type_unfold _ _ _ _ _ _ _ _ Hraw Hstrip Hmod).
  repeat split; intros ->;
    (rewrite check_typmod_direct by (vm_compute; set_solver));
    unfold _get_full_type_value; f_equal;
    by rewrite !append_assoc.
Qed.

Lemma get_full_type_time_zone_witness :
  get_full_type None "timestamp with time zone[]" false 0 3 =
    Ok "timestamp(3) with time zone[]".
Proof.
  apply (get_full_type_time_zone None "timestamp with time zone[]" false
           0 3 "timestamp with time zone[]" "timestamp with time zone" 1);
    [reflexivity|reflexivity|lia|reflexivity].
Defined.

End DataTypeReaderFacts.

Module TypeNameFacts.
Import DataTypeReader.

Lemma find_leading (c : ascii) (r : string) :
  find (String c r) (String c "") = 0.
Proof.
  unfold find. simpl.
  destruct (Ascii.ascii_dec c c); [|done]. by destruct r.
Qed.

(** C1 (the source selects one character where the claim describes a
    prefix removal): with the schema [myschema], both the quoted and the
    plain qualified name [mytype] are formatted as the single character
    at the index the source computes. *)
Theorem get_full_type_schema_qualified :
  get_full_type (Some "myschema")
    (dq +:+ "myschema" +:+ dq +:+ ".mytype") false 0 (-1) = Ok "m" ∧
  get_full_type (Some "myschema") "myschema.mytype" false 0 (-1) = Ok "m" ∧
  _check_schema_in_name "public.int4" "public" = Ok "i".
Proof. repeat split. Qed.

(** C9: a type name that begins with an opening parenthesis and ends
    with a closing one is returned as it is, because the index 0 of the
    parenthesis is false in the condition; when the first opening
    parenthesis is at a later position, the name is cut there. *)
Theorem parse_type_name_leading_paren (type_name : string) :
  endswith type_name ")" = true →
  (startswith type_name "(" = true →
   parse_type_name type_name = type_name) ∧
  (0 < find type_name "(" →
   parse_type_name type_name =
     slice None (Some (find type_name "(")) type_name).
Proof.
  intros Hend. pose proof (endswith_paren_not_array _ Hend) as Harr.
  unfold parse_type_name. rewrite Harr. split.
  - intros [r ->]%startswith_cons. by rewrite find_leading.
  - intros Hidx. rewrite Hend.
    by destruct (Z.eqb_spec (find type_name "(") 0); [lia|].
Qed.

Lemma parse_type_name_leading_paren_witness :
  parse_type_name "(10,2)" = "(10,2)" ∧
  parse_type_name "numeric(10,2)" = "numeric".
Proof.
  split.
  - apply (parse_type_name_leading_paren "(10,2)"); reflexivity.
  - apply (parse_type_name_leading_paren "numeric(10,2)"); reflexivity.
Defined.

End TypeNameFacts.

(** * trigger_definition *)

Module TriggerFacts.
Import Trigger.

Lemma land_shiftl_1 (t i : Z) :
  0 ≤ i → negb (Z.land t (Z.shiftl 1 i) =? 0) = Z.testbit t i.
Proof.
  intros Hi. rewrite Z.shiftl_1_l.
  destruct (Z.testbit t i) eqn:Hbit.
  - destruct (Z.eqb_spec (Z.land t (2 ^ i)) 0) as [H0|]; [|done].
    apply (f_equal (λ z, Z.testbit z i)) in H0.
    rewrite Z.land_spec, Hbit, Z.pow2_bits_true, Z.bits_0 in H0; done.
  - destruct (Z.eqb_spec (Z.land t (2 ^ i)) 0) as [|Hne]; [done|].
    exfalso. apply Hne. apply Z.bits_inj'. intros n Hn.
    rewrite Z.land_spec, Z.bits_0, Z.pow2_bits_eqb by done.
    destruct (Z.eqb_spec i n) as [<-|]; [by rewrite Hbit|].
    apply andb_false_r.
Qed.

Lemma tgtype_has_bit (data : gmap string val) (t i : Z) :
  0 ≤ i →
  data !! "tgtype" = Some (VInt t) →
  tgtype_has data (Z.shiftl 1 i) = Ok (Z.testbit t i).
Proof.
  intros Hi Ht. unfold tgtype_has, getkey. rewrite Ht.
  unfold mbind, result_bind, Py.bind, and_mask.
  by rewrite land_shiftl_1.
Qed.

(** C4: the timing is BEFORE when bit 1 is set, else INSTEAD OF when
    bit 6 is set, else AFTER, and the five flags are the bits 0, 2, 3, 4
    and 5 of the mask; in particular for BEFORE|ROW|INSERT. *)
Theorem trigger_definition_decodes (data : gmap string val) (tgtype : Z) :
  data !! "tgtype" = Some (VInt tgtype) →
  ∃ data', trigger_definition data = Ok data' ∧
    data' !! "fires" =
      Some (VStr (if Z.testbit tgtype 1 then "BEFORE"
                  else if Z.testbit tgtype 6 then "INSTEAD OF"
                  else "AFTER")) ∧
    data' !! "is_row_trigger" = Some (VBool (Z.testbit tgtype 0)) ∧
    data' !! "evnt_insert" = Some (VBool (Z.testbit tgtype 2)) ∧
    data' !! "evnt_delete" = Some (VBool (Z.testbit tgtype 3)) ∧
    data' !! "evnt_update" = Some (VBool (Z.testbit tgtype 4)) ∧
    data' !! "evnt_truncate" = Some (VBool (Z.testbit tgtype 5)).
Proof.
  intros Ht. unfold trigger_definition.
  unfold TRIGGER_TYPE_BEFORE, TRIGGER_TYPE_INSTEAD, TRIGGER_TYPE_ROW,
    TRIGGER_TYPE_INSERT, TRIGGER_TYPE_DELETE, TRIGGER_TYPE_UPDATE,
    TRIGGER_TYPE_TRUNCATE.
  rewrite (tgtype_has_bit data tgtype 1) by done.
  rewrite (tgtype_has_bit data tgtype 6) by done.
  unfold mbind, result_bind, Py.bind.
  set (fires := if Z.testbit tgtype 1 then "BEFORE"
                else if Z.testbit tgtype 6 then "INSTEAD OF" else "AFTER").
  assert (∃ d1, (match Z.testbit tgtype 1 with
                 | true => Ok (<["fires" := VStr "BEFORE"]> data)
                 | false =>
                     match Z.testbit tgtype 6 with
                     | true => Ok (<["fires" := VStr "INSTEAD OF"]> data)
                     | false => Ok (<["fires" := VStr "AFTER"]> data)
                     end
                 end) = Ok d1 ∧ d1 = <["fires" := VStr fires]> data)
    as (d1 & -> & Hd1).
  { subst fires. destruct (Z.testbit tgtype 1); [eauto|].
    destruct (Z.testbit tgtype 6); eauto. }
  subst d1.
  repeat (erewrite (tgtype_has_bit _ tgtype) by (done || by simplify_map_eq)).
  eexists. split; [reflexivity|].
  by simplify_map_eq.
Qed.

Lemma trigger_definition_decodes_witness :
  ∃ data',
    trigger_definition
      {[ "tgtype" := VInt (Z.lor (Z.lor TRIGGER_TYPE_BEFORE TRIGGER_TYPE_ROW)
                             TRIGGER_TYPE_INSERT) ]} = Ok data' ∧
    data' !! "fires" = Some (VStr "BEFORE") ∧
    data' !! "is_row_trigger" = Some (VBool true) ∧
    data' !! "evnt_insert" = Some (VBool true) ∧
    data' !! "evnt_delete" = Some (VBool false) ∧
    data' !! "evnt_update" = Some (VBool false) ∧
    data' !! "evnt_truncate" = Some (VBool false).
Proof.
  apply (trigger_definition_decodes {[ "tgtype" := VInt 7 ]} 7).
  reflexivity.
Defined.

End TriggerFacts.

(** * parse_rule_definition *)

Module RuleFacts.
Import Rule.

Section WithBuiltins.

Variable re_search : string → string → option (list string).
Variable py_repr : val → string.

Abbreviation rule_fields := (rule_fields re_search).
Abbreviation parse_rule_definition :=
  (parse_rule_definition re_search py_repr).

(** The row that is returned carries the four parsed fields. *)
Lemma rule_fields_complete res res_data :
  rule_fields res = Ok res_data →
  is_Some (res_data !! "event") ∧ is_Some (res_data !! "do_instead") ∧
  is_Some (res_data !! "statements") ∧
  is_Some (res_data !! "condition").
Proof.
  unfold Rule.rule_fields, mbind, result_bind, Py.bind. intros H.
  repeat case_match; simplify_eq; by simplify_map_eq.
Qed.

Lemma rule_fields_no_row res :
  res !! "rows" = Some [] →
  rule_fields res = Raise (IndexError "list index out of range").
Proof.
  intros H. unfold Rule.rule_fields, getkey. by rewrite H.
Qed.

Lemma rule_fields_no_definition res row rows :
  res !! "rows" = Some (row :: rows) →
  row !! "definition" = None →
  rule_fields res = Raise (KeyError (VStr "definition")).
Proof.
  intros H Hdef. unfold Rule.rule_fields, getkey. rewrite H. simpl.
  unfold getkey. by rewrite Hdef.
Qed.

Lemma event_of_unknown ev_type :
  ev_type ∉ [VStr "1"; VStr "2"; VStr "3"; VStr "4"] →
  event_of ev_type = Raise (KeyError ev_type).
Proof.
  intros Hev. destruct ev_type as [| | | |k]; try done.
  unfold event_of. destruct (event_names !! k) as [e|] eqn:Hk; [|done].
  exfalso. apply Hev. unfold event_names in Hk.
  apply lookup_insert_Some in Hk as [[<- _]|[_ Hk]]; [set_solver|].
  apply lookup_insert_Some in Hk as [[<- _]|[_ Hk]]; [set_solver|].
  apply lookup_insert_Some in Hk as [[<- _]|[_ Hk]]; [set_solver|].
  apply lookup_singleton_Some in Hk as [<- _]. set_solver.
Qed.

Lemma rule_fields_unknown_event res row rows ev_type :
  res !! "rows" = Some (row :: rows) →
  row !! "ev_type" = Some ev_type →
  ev_type ∉ [VStr "1"; VStr "2"; VStr "3"; VStr "4"] →
  ∃ e, rule_fields res = Raise e.
Proof.
  intros H Hev Hnot. apply event_of_unknown in Hnot.
  unfold Rule.rule_fields, getkey. rewrite H. simpl.
  unfold getkey, mbind, result_bind, Py.bind. rewrite Hev, Hnot.
  repeat case_match; simplify_eq; eauto.
Qed.

(** C6: when the extraction raises, the result is the server-error
    result with the text of the exception, and a result that is a row
    is never partial; a missing row, an absent definition and an
    event type outside '1'..'4' all raise. *)
Theorem parse_rule_definition_failure res :
  (∀ e, rule_fields res = Raise e →
        parse_rule_definition res = InternalServerError (str_exn py_repr e)) ∧
  (∀ res_data, parse_rule_definition res = Data res_data →
     rule_fields res = Ok res_data ∧
     is_Some (res_data !! "event") ∧
     is_Some (res_data !! "do_instead") ∧
     is_Some (res_data !! "statements") ∧
     is_Some (res_data !! "condition")) ∧
  (res !! "rows" = Some [] →
   parse_rule_definition res =
     InternalServerError "list index out of range") ∧
  (∀ row rows, res !! "rows" = Some (row :: rows) →
     row !! "definition" = None →
     parse_rule_definition res =
       InternalServerError (py_repr (VStr "definition"))) ∧
  (∀ row rows ev_type, res !! "rows" = Some (row :: rows) →
     row !! "ev_type" = Some ev_type →
     ev_type ∉ [VStr "1"; VStr "2"; VStr "3"; VStr "4"] →
     ∃ msg, parse_rule_definition res = InternalServerError msg).
Proof.
  unfold Rule.parse_rule_definition. repeat split.
  - by intros e ->.
  - destruct (rule_fields res); by intros; simplify_eq.
  - destruct (rule_fields res) as [d|] eqn:Hd; intros; simplify_eq.
    by eapply rule_fields_complete.
  - destruct (rule_fields res) as [d|] eqn:Hd; intros; simplify_eq.
    by eapply rule_fields_complete.
  - destruct (rule_fields res) as [d|] eqn:Hd; intros; simplify_eq.
    by eapply rule_fields_complete.
  - destruct (rule_fields res) as [d|] eqn:Hd; intros; simplify_eq.
    by eapply rule_fields_complete.
  - intros H. by rewrite (rule_fields_no_row _ H).
  - intros row rows H Hdef.
    by rewrite (rule_fields_no_definition _ _ _ H Hdef).
  - intros row rows ev_type H Hev Hnot.
    destruct (rule_fields_unknown_event _ _ _ _ H Hev Hnot) as [e ->].
    eauto.
Qed.

End WithBuiltins.

Lemma parse_rule_definition_failure_witness :
  Rule.parse_rule_definition (λ _ _, None) (λ _, "key")
    {[ "rows" := [] ]} = InternalServerError "list index out of range" ∧
  (∃ msg,
     Rule.parse_rule_definition (λ _ _, None) (λ _, "key")
       {[ "rows" := [ {[ "definition" := VStr "CREATE RULE r AS ON SELECT TO t DO INSTEAD NOTHING;";
                         "ev_type" := VStr "5";
                         "is_instead" := VBool true ]} ] ]}
     = InternalServerError msg).
Proof.
  split.
  - apply (parse_rule_definition_failure (λ _ _, None) (λ _, "key")
             {[ "rows" := [] ]}).
    reflexivity.
  - eapply (parse_rule_definition_failure (λ _ _, None) (λ _, "key")).
    + reflexivity.
    + reflexivity.
    + intros H. repeat (apply elem_of_cons in H as [H|H]; [discriminate|]).
      by apply elem_of_nil in H.
Defined.

End RuleFacts.

Module FloatFacts.
Import VacuumSettings.

(** [integer_value] is exact: it is [z] just when the value
    [(-1)^sgn * m * 2^e] equals [z]. *)
Lemma integer_value_exact sgn m e z :
  integer_value (S754_finite sgn m e) = Some z ↔
  cond_Zopp sgn (Z.pos m) * 2 ^ Z.max e 0 = z * 2 ^ Z.max (- e) 0.
Proof.
  unfold integer_value. destruct (Z.leb_spec 0 e) as [He|He].
  - rewrite Z.max_l, Z.max_r by lia. simpl (2 ^ 0).
    split.
    + intros [= <-]. destruct sgn; simpl; lia.
    + intros H. f_equal. destruct sgn; simpl in *; lia.
  - rewrite Z.max_r, Z.max_l by lia. simpl (2 ^ 0).
    assert (0 < 2 ^ (- e)) as Hk by (apply Z.pow_pos_nonneg; lia).
    set (k := 2 ^ (- e)) in *.
    destruct (Z.eqb_spec (Z.pos m mod k) 0) as [Hmod|Hmod].
    + pose proof (Z.div_mod (Z.pos m) k ltac:(lia)) as Hdiv.
      rewrite Hmod, Z.add_0_r in Hdiv. split.
      * intros [= <-]. destruct sgn; simpl; lia.
      * intros H. f_equal.
        assert (cond_Zopp sgn (Z.pos m) = z * k) as Hz by lia.
        destruct sgn; simpl in *; nia.
    + split; [done|]. intros H. exfalso. apply Hmod.
      assert (Z.pos m = cond_Zopp sgn z * k) as ->
        by (destruct sgn; simpl in *; lia).
      apply Z.mod_mul. lia.
Qed.

(** A float is stored as an [int] exactly when [value % 1 == 0]. *)
Lemma float_mod_1_eq_0_integer (f : spec_float) :
  float_mod_1_eq_0 f = true ↔ is_Some (integer_value f).
Proof.
  destruct f as [sgn|sgn| |sgn m e]; simpl.
  - split; eauto.
  - split; [done|intros [? [=]]].
  - split; [done|intros [? [=]]].
  - destruct (0 <=? e); [split; eauto|].
    destruct (Z.pos m mod 2 ^ (- e) =? 0); [split; eauto|].
    split; [done|intros [? [=]]].
Qed.

End FloatFacts.

(** * The heap of row lists *)

Module HeapFacts.
Import VacuumSettings.

Lemma bind_ok_inv {A B} (m : M A) (k : A → M B) s b s2 :
  (m ≫= k) s = (Ok b, s2) →
  ∃ a s1, m s = (Ok a, s1) ∧ k a s1 = (Ok b, s2).
Proof.
  unfold mbind, M_bind. destruct (m s) as [[a|e] s1]; [eauto|done].
Qed.

Lemma execute_dict_ok conn SQL s l s' :
  execute_dict conn SQL s = (Ok (Data l), s') →
  ∃ rows, conn (queries s) SQL = ExecOk rows ∧ l = length (heap s) ∧
    s' = State (heap s ++ [rows]) (vacuum_settings s) (queries s ++ [SQL]).
Proof.
  unfold execute_dict. destruct (conn (queries s) SQL) as [rows|msg].
  - intros [= <- <-]. eauto.
  - intros [=].
Qed.

Lemma alter_last {A} (f : A → A) (h : list A) (x : A) :
  alter f (length h) (h ++ [x]) = h ++ [f x].
Proof. induction h as [|y h IH]; [done|]. simpl. by f_equal. Qed.

Lemma alter_middle {A} (f : A → A) (done rest : list A) (x : A) :
  alter f (length done) (done ++ x :: rest) = done ++ f x :: rest.
Proof. induction done as [|y done IH]; [done|]. simpl. by f_equal. Qed.

Lemma row_get_here h (done rest : list (gmap string val)) row k c q :
  row_get (length h) (length done) k (State (h ++ [done ++ row :: rest]) c q)
  = (getkey row k, State (h ++ [done ++ row :: rest]) c q).
Proof.
  unfold row_get, getindex. simpl.
  rewrite (list_lookup_middle h [] _ (length h)) by done. simpl.
  by rewrite (list_lookup_middle done rest _ (length done)).
Qed.

Lemma row_set_here h (done rest : list (gmap string val)) row k v c q :
  row_set (length h) (length done) k v
    (State (h ++ [done ++ row :: rest]) c q)
  = (Ok (), State (h ++ [done ++ <[k := v]> row :: rest]) c q).
Proof.
  unfold row_set, set_heap. simpl. by rewrite alter_last, alter_middle.
Qed.

Lemma row_pop_here h (done rest : list (gmap string val)) row k c q :
  row_pop (length h) (length done) k
    (State (h ++ [done ++ row :: rest]) c q)
  = (Ok (), State (h ++ [done ++ delete k row :: rest]) c q).
Proof.
  unfold row_pop, set_heap. simpl. by rewrite alter_last, alter_middle.
Qed.

End HeapFacts.

(** * VacuumSettings *)

Module VacuumFacts.
Import VacuumSettings HeapFacts.

Lemma heap_only_ret {A} (a : A) : heap_only (mret a).
Proof. intros s r s' [= <- <-]. done. Qed.

Lemma heap_only_lift {A} (r : result A) : heap_only (lift r).
Proof. intros s r' s' [= <- <-]. done. Qed.

Lemma heap_only_bind {A B} (m : M A) (k : A → M B) :
  heap_only m → (∀ a, heap_only (k a)) → heap_only (m ≫= k).
Proof.
  intros Hm Hk s r s'. unfold mbind, M_bind.
  destruct (m s) as [[a|e] s1] eqn:E; intros H.
  - destruct (Hm _ _ _ E) as [Hc Hq].
    destruct (Hk a _ _ _ H) as [Hc' Hq']. split; congruence.
  - simplify_eq. by eapply Hm.
Qed.

Lemma heap_only_row_get l i k : heap_only (row_get l i k).
Proof. intros s r s' [= <- <-]. done. Qed.

Lemma heap_only_row_set l i k v : heap_only (row_set l i k v).
Proof. intros s r s' [= <- <-]. done. Qed.

Lemma heap_only_row_pop l i k : heap_only (row_pop l i k).
Proof. intros s r s' [= <- <-]. done. Qed.

Lemma heap_only_read_list l : heap_only (read_list l).
Proof. intros s r s' [= <- <-]. done. Qed.

Lemma heap_only_alloc rows : heap_only (alloc rows).
Proof. intros s r s' [= <- <-]. done. Qed.

Lemma heap_only_for_each {A} (body : A → M ()) (l : list A) :
  (∀ x, heap_only (body x)) → heap_only (for_each body l).
Proof.
  intros Hbody. induction l as [|x l IH]; simpl.
  - apply heap_only_ret.
  - apply heap_only_bind; auto.
Qed.

Create HintDb heap_only.
#[local] Hint Resolve heap_only_ret heap_only_lift heap_only_row_get
  heap_only_row_set heap_only_row_pop heap_only_read_list heap_only_alloc
  : heap_only.

Ltac heap_only :=
  repeat first
    [ apply heap_only_bind; [|intros ?]
    | apply heap_only_for_each; intros ?
    | solve [auto with heap_only] ].

Section WithEnvironment.

Variable vacuum_fields : list (string * list (string * list val)).
Variable render_sql : string → string.

Abbreviation fetch :=
  (fetch_default_vacuum_settings vacuum_fields render_sql).

Lemma heap_only_label_row ty l i :
  heap_only (label_row vacuum_fields ty l i).
Proof. unfold label_row. heap_only. Qed.

(** A hit: the stored reference is returned and nothing changes. *)
Lemma fetch_hit conn sid ty s by_type l :
  vacuum_settings s !! sid = Some by_type →
  by_type !! ty = Some l →
  fetch conn sid ty s = (Ok (Data l), s).
Proof.
  intros Hsid Hty. unfold fetch_default_vacuum_settings.
  by rewrite Hsid, Hty.
Qed.

(** A miss that succeeds issues one query and stores what it
    returns. *)
Lemma fetch_from_server_stores conn sid ty s l s1 :
  fetch_from_server vacuum_fields render_sql conn sid ty s
    = (Ok (Data l), s1) →
  (∃ by_type, vacuum_settings s1 !! sid = Some by_type ∧
              by_type !! ty = Some l) ∧
  ∃ SQL, queries s1 = queries s ++ [SQL].
Proof.
  unfold fetch_from_server. intros H.
  apply bind_ok_inv in H as (fields & s' & Hfields & H).
  unfold lift in Hfields. simplify_eq.
  apply bind_ok_inv in H as (res & s2 & Hexec & H).
  destruct res as [l0|msg]; [|by simplify_eq].
  apply execute_dict_ok in Hexec as (rows & _ & -> & ->).
  apply bind_ok_inv in H as (rows' & s3 & Hread & H).
  unfold read_list in Hread. simplify_eq.
  apply bind_ok_inv in H as ([] & s4 & Hloop & H).
  apply heap_only_for_each in Hloop as [Hc Hq];
    [|intros ?; apply heap_only_label_row].
  simpl in Hc, Hq.
  apply bind_ok_inv in H as ([] & s5 & Hset & H).
  apply bind_ok_inv in H as (l' & s6 & Hget & H).
  unfold mret, M_ret in H. simplify_eq.
  unfold cache_set in Hset.
  destruct (vacuum_settings s4 !! sid) as [by_type|]; [|done].
  simplify_eq. unfold cache_get, getkey in Hget. simpl in Hget.
  rewrite !lookup_insert_eq in Hget. simplify_eq. simpl. split.
  - eexists. by rewrite !lookup_insert_eq.
  - rewrite Hq. eauto.
Qed.

(** One turn of the labelling loop. *)
Lemma label_row_step ty h done row rest c q :
  known_row vacuum_fields ty row →
  ∃ row',
    label_row vacuum_fields ty (length h) (length done)
      (State (h ++ [done ++ row :: rest]) c q)
    = (Ok (), State (h ++ [done ++ row' :: rest]) c q).
Proof.
  intros (name & v0 & v1 & v2 & Hname & H0 & H1 & H2).
  eexists. unfold label_row, mbind, M_bind.
  rewrite row_get_here. unfold getkey. rewrite Hname.
  unfold lift. rewrite H0, row_set_here, H1, row_set_here, H2.
  apply row_set_here.
Qed.

Lemma label_loop ty h c q todo :
  Forall (known_row vacuum_fields ty) todo →
  ∀ done, ∃ todo',
    for_each (label_row vacuum_fields ty (length h))
      (seq (length done) (length todo))
      (State (h ++ [done ++ todo]) c q)
    = (Ok (), State (h ++ [done ++ todo']) c q).
Proof.
  induction 1 as [|row rest Hrow _ IH]; intros done.
  - by exists [].
  - destruct (label_row_step ty h done row rest c q Hrow)
      as (row' & Hstep).
    destruct (IH (done ++ [row'])) as (rest' & Hloop).
    exists (row' :: rest'). simpl. unfold mbind, M_bind.
    rewrite Hstep.
    rewrite length_app, Nat.add_1_r, <- !app_assoc in Hloop.
    exact Hloop.
Qed.

(** A miss on a server that answers with known rows returns a new
    list and stores it. *)
Lemma fetch_from_server_succeeds conn sid ty h c q by_type fields rows :
  c !! sid = Some by_type →
  dict_get vacuum_fields ty = Ok fields →
  conn q (vacuum_defaults_sql render_sql fields) = ExecOk rows →
  Forall (known_row vacuum_fields ty) rows →
  ∃ rows',
    fetch_from_server vacuum_fields render_sql conn sid ty (State h c q)
    = (Ok (Data (length h)),
       State (h ++ [rows']) (<[sid := <[ty := length h]> by_type]> c)
         (q ++ [vacuum_defaults_sql render_sql fields])).
Proof.
  intros Hsid Hfields Hconn Hrows.
  destruct (label_loop ty h c
              (q ++ [vacuum_defaults_sql render_sql fields]) rows
              Hrows []) as (rows' & Hloop).
  exists rows'. unfold fetch_from_server, mbind, M_bind.
  unfold lift. rewrite Hfields.
  unfold execute_dict. simpl. rewrite Hconn.
  unfold mbind, M_bind, alloc, set_heap, mret, M_ret. simpl.
  unfold read_list, getindex. simpl.
  rewrite (list_lookup_middle h [] _ (length h)) by done.
  simpl in Hloop. rewrite Hloop.
  unfold cache_set. simpl. rewrite Hsid.
  unfold cache_get, set_vacuum_settings, getkey. simpl.
  by rewrite !lookup_insert_eq.
Qed.

(** C2: an entry that is in the cache is returned without a query and
    without a change of the cache; hence, when the entry is not there
    and the server answers the query with rows of known settings, two
    successive calls return the same list and issue the one query of
    the first call. *)
Theorem fetch_default_vacuum_settings_memoized conn sid ty s :
  (∀ by_type l,
     vacuum_settings s !! sid = Some by_type →
     by_type !! ty = Some l →
     fetch conn sid ty s = (Ok (Data l), s)) ∧
  (∀ fields rows,
     vacuum_settings s !! sid ≫= (.!! ty) = None →
     dict_get vacuum_fields ty = Ok fields →
     conn (queries s) (vacuum_defaults_sql render_sql fields)
       = ExecOk rows →
     Forall (known_row vacuum_fields ty) rows →
     ∃ l s1,
       fetch conn sid ty s = (Ok (Data l), s1) ∧
       fetch conn sid ty s1 = (Ok (Data l), s1) ∧
       (fetch conn sid ty ≫= λ _, fetch conn sid ty) s
         = (Ok (Data l), s1) ∧
       queries s1 =
         queries s ++ [vacuum_defaults_sql render_sql fields]).
Proof.
  split; [apply fetch_hit|].
  intros fields rows Hmiss Hfields Hconn Hrows.
  destruct s as [h c q]. simpl in *.
  assert (∃ by_type rows',
            fetch conn sid ty (State h c q)
            = (Ok (Data (length h)),
               State (h ++ [rows'])
                 (<[sid := <[ty := length h]> by_type]>
                    (match c !! sid with Some _ => c | None => <[sid := ∅]> c end))
                 (q ++ [vacuum_defaults_sql render_sql fields])))
    as (by_type & rows' & Hfetch).
  { unfold fetch_default_vacuum_settings. simpl.
    destruct (c !! sid) as [by_type|] eqn:Hsid; simpl in Hmiss.
    - rewrite Hmiss. exists by_type.
      by eapply fetch_from_server_succeeds.
    - exists ∅. unfold set_vacuum_settings. simpl.
      eapply fetch_from_server_succeeds; [|done..].
      by rewrite lookup_insert_eq. }
  eexists _, _. split; [exact Hfetch|].
  assert (fetch conn sid ty
            (State (h ++ [rows'])
               (<[sid := <[ty := length h]> by_type]>
                  (match c !! sid with Some _ => c | None => <[sid := ∅]> c end))
               (q ++ [vacuum_defaults_sql render_sql fields]))
          = (Ok (Data (length h)),
             State (h ++ [rows'])
               (<[sid := <[ty := length h]> by_type]>
                  (match c !! sid with Some _ => c | None => <[sid := ∅]> c end))
               (q ++ [vacuum_defaults_sql render_sql fields])))
    as Hagain.
  { eapply fetch_hit; simpl; by rewrite lookup_insert_eq. }
  split; [exact Hagain|]. split; [|done].
  unfold mbind, M_bind. by rewrite Hfetch.
Qed.

End WithEnvironment.

Lemma fetch_default_vacuum_settings_memoized_witness :
  ∃ l s1,
    fetch_default_vacuum_settings VacuumExample.fields VacuumExample.render
      VacuumExample.conn 1 "table" VacuumExample.s0 = (Ok (Data l), s1) ∧
    fetch_default_vacuum_settings VacuumExample.fields VacuumExample.render
      VacuumExample.conn 1 "table" s1 = (Ok (Data l), s1) ∧
    (fetch_default_vacuum_settings VacuumExample.fields
       VacuumExample.render VacuumExample.conn 1 "table" ≫=
     λ _, fetch_default_vacuum_settings VacuumExample.fields
            VacuumExample.render VacuumExample.conn 1 "table")
      VacuumExample.s0 = (Ok (Data l), s1) ∧
    queries s1 =
      [ "SELECT name, setting FROM pg_settings WHERE name IN ('autovacuum_enabled','autovacuum_vacuum_threshold','autovacuum_vacuum_scale_factor')" ].
Proof.
  apply (proj2 (fetch_default_vacuum_settings_memoized VacuumExample.fields
                  VacuumExample.render VacuumExample.conn 1 "table"
                  VacuumExample.s0)
           VacuumExample.table_fields VacuumExample.answer).
  - reflexivity.
  - reflexivity.
  - reflexivity.
  - repeat constructor.
    + exists (VStr "autovacuum_vacuum_threshold"). by eexists _, _, _.
    + exists (VStr "autovacuum_vacuum_scale_factor"). by eexists _, _, _.
Defined.

End VacuumFacts.

Module VacuumParseFacts.
Import VacuumSettings.

Import HeapFacts.

(** The stored number is what the conditional expression of the source
    computes, and [int] does not raise there. *)
Lemma stored_number_coerce (f : spec_float) :
  (if float_mod_1_eq_0 f then VInt <$> int_of_float f else Ok (VFloat f))
  = Ok (stored_number f).
Proof.
  destruct f as [sgn|sgn| |sgn m e]; try reflexivity.
  unfold float_mod_1_eq_0, int_of_float, stored_number, integer_value.
  destruct (0 <=? e); [by destruct sgn|].
  destruct (Z.pos m mod 2 ^ (- e) =? 0); by destruct sgn.
Qed.

Section WithEnvironment.

Variable vacuum_fields : list (string * list (string * list val)).
Variable render_sql : string → string.
Variable float_of_string : string → option spec_float.
Variable str_float : spec_float → string.
Variable result : gmap string val.
Variable type : string.

Abbreviation parse_row :=
  (VacuumSettings.parse_row float_of_string str_float result type).
Abbreviation expected_row :=
  (VacuumSettings.expected_row float_of_string result type).
Abbreviation expected_rows :=
  (VacuumSettings.expected_rows float_of_string result type).

(** [float] of the source gives the number an observed value stands
    for. *)
Lemma py_float_number v f :
  observed_number float_of_string v = Some f →
  py_float float_of_string v = Ok f.
Proof.
  destruct v as [|[|]|i| |t]; simpl; try by intros [= <-].
  - destruct (binary_normalize 53 1024 i 0 false); by intros [= <-].
  - by intros ->.
Qed.

(** The key that the source looks up is the key of the
    specification. *)
Lemma row_name_key name :
  result_get result
    (if String.eqb type "toast"
     then VStr ("toast_" +:+ format_val str_float (VStr name))
     else VStr name)
  = default VNone (result !! observed_key type name).
Proof.
  unfold observed_key.
  destruct (String.eqb_spec type "toast") as [->|Hne].
  - by rewrite decide_True.
  - by rewrite decide_False.
Qed.

(** One turn of the loop on a row of the copy. *)
Lemma parse_row_step h done row row' rest c q :
  expected_row row = Some row' →
  parse_row (length h) (length done)
    (State (h ++ [done ++ row :: rest]) c q)
  = (Ok (), State (h ++ [done ++ row' :: rest]) c q).
Proof.
  unfold VacuumSettings.expected_row.
  destruct (row !! "name") as [[| | | |name]|] eqn:Hname; try done.
  intros Hrow.
  unfold VacuumSettings.parse_row, mbind, M_bind.
  rewrite row_get_here. unfold getkey. rewrite Hname.
  rewrite row_name_key.
  destruct (result !! observed_key type name) as [v|].
  - change (default VNone (Some v)) with v.
    destruct (decide (v = VNone)) as [->|Hv].
    + injection Hrow as <-. apply row_pop_here.
    + assert (∃ f, observed_number float_of_string v = Some f ∧
                   row' = <["value" := stored_number f]> row)
        as (f & Hf & ->).
      { assert (observed_number float_of_string v ≫=
                  (λ f, Some (<["value" := stored_number f]> row))
                = Some row') as Hrow' by (by destruct v).
        destruct (observed_number float_of_string v) as [f|]; [|done].
        injection Hrow' as <-. eauto. }
      apply py_float_number in Hf.
      destruct v; try done; cbv beta iota;
        unfold lift; rewrite Hf, stored_number_coerce;
        apply row_set_here.
  - injection Hrow as <-. apply row_pop_here.
Qed.

(** The loop, from the rows that remain. *)
Lemma parse_loop h c q todo todo' :
  Forall2 (λ row row', expected_row row = Some row') todo todo' →
  ∀ done,
    for_each (parse_row (length h)) (seq (length done) (length todo))
      (State (h ++ [done ++ todo]) c q)
    = (Ok (), State (h ++ [done ++ todo']) c q).
Proof.
  induction 1 as [|row row' rest rest' Hrow _ IH]; intros done;
    [reflexivity|].
  simpl. unfold mbind, M_bind.
  rewrite (parse_row_step h done row row' rest c q Hrow).
  specialize (IH (done ++ [row'])).
  rewrite length_app, Nat.add_1_r, <- !app_assoc in IH.
  exact IH.
Qed.

(** C7: when the rows that are to be returned exist (every cached
    row has a name and every observed value stands for a number),
    the call returns a new list that holds exactly these rows: for
    each cached row, [value] is the observed number, an [int] when
    it has no fractional part and the [float] otherwise, or is
    removed when nothing is observed under the name of the row.
    The cached list, the cache and the query log are as the fetch
    left them. *)
Theorem parse_vacuum_data_copies conn sid s l s1 rows rows' :
  fetch_default_vacuum_settings vacuum_fields render_sql conn sid type s
    = (Ok (Data l), s1) →
  heap s1 !! l = Some rows →
  expected_rows rows = Some rows' →
  parse_vacuum_data vacuum_fields render_sql float_of_string str_float
    conn sid result type s
  = (Ok (length (heap s1)),
     State (heap s1 ++ [rows']) (vacuum_settings s1) (queries s1)) ∧
  (heap s1 ++ [rows']) !! l = Some rows ∧
  l ≠ length (heap s1).
Proof.
  intros Hfetch Hl Hrows. apply mapM_Some in Hrows.
  destruct s1 as [h c q]. simpl in *.
  pose proof (parse_loop h c q rows rows' Hrows []) as Hloop.
  split; [|split].
  - unfold parse_vacuum_data, mbind, M_bind. rewrite Hfetch.
    unfold read_list, getindex. simpl. rewrite Hl.
    unfold alloc, set_heap. simpl.
    simpl in Hloop. by rewrite Hloop.
  - by apply lookup_app_l_Some.
  - apply lookup_lt_Some in Hl. lia.
Qed.

End WithEnvironment.

Lemma parse_vacuum_data_copies_witness :
  (parse_vacuum_data VacuumParseExample.fields VacuumExample.render
     VacuumParseExample.float_of_string VacuumExample.str_float
     VacuumParseExample.conn 1 VacuumParseExample.observed "table"
     VacuumExample.s0
   = (Ok 1%nat,
      State [VacuumParseExample.cached_rows;
             VacuumParseExample.parsed_rows]
        {[ 1 := {[ "table" := 0%nat ]} ]}
        [vacuum_defaults_sql VacuumExample.render
           VacuumParseExample.settings]) ∧
   [VacuumParseExample.cached_rows; VacuumParseExample.parsed_rows]
     !! 0%nat = Some VacuumParseExample.cached_rows ∧
   0%nat ≠ 1%nat) ∧
  (parse_vacuum_data VacuumParseExample.fields VacuumExample.render
     VacuumParseExample.float_of_string VacuumExample.str_float
     VacuumParseExample.conn 1 VacuumParseExample.observed_toast "toast"
     VacuumExample.s0
   = (Ok 1%nat,
      State [VacuumParseExample.cached_rows;
             VacuumParseExample.parsed_rows_toast]
        {[ 1 := {[ "toast" := 0%nat ]} ]}
        [vacuum_defaults_sql VacuumExample.render
           VacuumParseExample.settings]) ∧
   [VacuumParseExample.cached_rows; VacuumParseExample.parsed_rows_toast]
     !! 0%nat = Some VacuumParseExample.cached_rows ∧
   0%nat ≠ 1%nat).
Proof.
  split.
  - apply (parse_vacuum_data_copies VacuumParseExample.fields
             VacuumExample.render VacuumParseExample.float_of_string
             VacuumExample.str_float VacuumParseExample.observed "table"
             VacuumParseExample.conn 1 VacuumExample.s0 0%nat
             (VacuumParseExample.fetched "table")
             VacuumParseExample.cached_rows
             VacuumParseExample.parsed_rows);
      reflexivity.
  - apply (parse_vacuum_data_copies VacuumParseExample.fields
             VacuumExample.render VacuumParseExample.float_of_string
             VacuumExample.str_float VacuumParseExample.observed_toast
             "toast" VacuumParseExample.conn 1 VacuumExample.s0 0%nat
             (VacuumParseExample.fetched "toast")
             VacuumParseExample.cached_rows
             VacuumParseExample.parsed_rows_toast);
      reflexivity.
Defined.

End VacuumParseFacts.

(** * get_types and the length bounds *)

Module DataTypeCatalogFacts.
Import DataTypeReader DataTypeCatalog.

(** X1: whatever the arguments, the bounds are ordered, the maximum is
    0, 6, 1000 or the largest 32-bit integer (the fallback 10 of the
    source cannot be reached), and without a length both are 0. *)
Theorem types_length_checks_bounds (length : bool) (typeval : string)
    (precision : bool) :
  let '(min_val, max_val) := _types_length_checks length typeval precision in
  min_val ≤ max_val ∧
  (min_val = 0 ∨ min_val = 1) ∧
  (max_val = 0 ∨ max_val = 6 ∨ max_val = 1000 ∨ max_val = 2147483647) ∧
  (length = false → min_val = 0 ∧ max_val = 0).
Proof.
  unfold _types_length_checks.
  destruct length, precision, (String.eqb typeval "D"); simpl;
    repeat split; (lia || tauto || discriminate).
Qed.

(** X2: on the flags and the class letter that [get_length_precision]
    gives, the bounds are 1 to 2147483647 for a length type, 0 to 6 for
    a date/time type, 1 to 1000 for numeric, and 0 to 0 otherwise. *)
Theorem types_length_checks_by_class (elemoid_or_name : elem) :
  let '(length, precision, typeval) :=
    get_length_precision elemoid_or_name in
  _types_length_checks length typeval precision =
    if String.eqb typeval "L" then (1, 2147483647)
    else if String.eqb typeval "D" then (0, 6)
    else if String.eqb typeval "P" then (1, 1000)
    else (0, 0).
Proof.
  unfold get_length_precision.
  destruct (truthy elemoid_or_name);
    [destruct (py_in elemoid_or_name length_types);
     [|destruct (py_in elemoid_or_name datetime_types);
       [|destruct (py_in elemoid_or_name precision_types)]]|];
    reflexivity.
Qed.


Lemma types_row_inv typeval row typeval' entry :
  types_row typeval row = inr (typeval', entry) →
  typeval' = Some (typval entry) ∧ entry_of_row typeval row entry.
Proof.
  unfold types_row, row_key.
  destruct (row !! "elemoid") as [elemoid|] eqn:He; [|done].
  destruct (SchemaChildModule.truthy elemoid) eqn:Ht.
  - destruct (get_length_precision (elem_of_val elemoid))
      as [[l p] t] eqn:Hglp.
    destruct (_types_length_checks l t p) as [mn mx] eqn:Hb.
    destruct (row !! "typname") as [typname|] eqn:Hn; [|done].
    destruct (row !! "is_collatable") as [coll|] eqn:Hc; [|done].
    destruct (row !! "oid") as [o|] eqn:Ho; [|done].
    intros [= <- <-]. split; [done|].
    exists elemoid. rewrite Ht. simpl. by rewrite Hb.
  - destruct typeval as [tv|]; [|done]. simpl.
    destruct (row !! "typname") as [typname|] eqn:Hn; [|done].
    destruct (row !! "is_collatable") as [coll|] eqn:Hc; [|done].
    destruct (row !! "oid") as [o|] eqn:Ho; [|done].
    intros [= <- <-]. split; [done|].
    exists elemoid. by rewrite Ht.
Qed.

Lemma types_rows_inv rows typeval res0 res :
  types_rows typeval rows res0 = inr res →
  ∃ new, res = res0 ++ new ∧ entries_of typeval rows new.
Proof.
  revert typeval res0. induction rows as [|row rows IH];
    intros typeval res0; simpl.
  - intros [= <-]. exists []. split; [by rewrite app_nil_r|constructor].
  - destruct (types_row typeval row) as [e|[typeval' entry]] eqn:Hrow;
      [done|].
    apply types_row_inv in Hrow as [-> Hentry].
    intros (new & -> & Hnew)%IH.
    exists (entry :: new). split; [by rewrite <- app_assoc|].
    by constructor.
Qed.


Lemma types_row_ok typeval row :
  complete_row row →
  is_Some typeval ∨ has_element_type row →
  ∃ typeval' entry, types_row typeval row = inr (typeval', entry).
Proof.
  intros ([elemoid He] & [typname Hn] & [coll Hc] & [o Ho]) Hbound.
  unfold types_row, row_key. rewrite He.
  destruct (SchemaChildModule.truthy elemoid) eqn:Ht.
  - destruct (get_length_precision (elem_of_val elemoid)) as [[l p] t].
    destruct (_types_length_checks l t p) as [mn mx].
    rewrite Hn, Hc, Ho. eauto.
  - destruct Hbound as [[tv ->]|(elemoid' & He' & Ht')];
      [|simplify_eq; congruence].
    simpl. rewrite Hn, Hc, Ho. eauto.
Qed.

Lemma types_rows_ok rows typeval res0 :
  Forall complete_row rows →
  is_Some typeval ∨ rows = [] ∨
    (∃ row rest, rows = row :: rest ∧ has_element_type row) →
  ∃ res, types_rows typeval rows res0 = inr res.
Proof.
  intros Hrows. revert typeval res0.
  induction Hrows as [|row rows Hrow _ IH]; intros typeval res0 Hbound;
    simpl; [eauto|].
  destruct (types_row_ok typeval row Hrow) as (typeval' & entry & Hstep).
  { destruct Hbound as [?|[?|(row' & rest & ? & ?)]];
      [by left|done|simplify_eq; by right]. }
  rewrite Hstep.
  apply types_row_inv in Hstep as [-> _]. apply IH. left. eauto.
Qed.

Section WithConnection.

Variable render_get_types : string → bool → string → string.
Variable execute_2darray : string → VacuumSettings.exec_result.
Variable str_exn : types_exn → string.

Abbreviation get_types :=
  (DataTypeCatalog.get_types render_get_types execute_2darray str_exn).

(** X3: when the query gives rows that all have the four columns, and
    the first row has an element type, [get_types] succeeds with one
    entry per row, in the order of the rows, each built from its own
    row. *)
Theorem get_types_succeeds condition add_serials schema_oid rows :
  execute_2darray (render_get_types condition add_serials schema_oid)
    = VacuumSettings.ExecOk rows →
  Forall complete_row rows →
  rows = [] ∨ (∃ row rest, rows = row :: rest ∧ has_element_type row) →
  ∃ res, get_types condition add_serials schema_oid = (true, Types res) ∧
         entries_of None rows res.
Proof.
  intros Hexec Hrows Hfirst.
  destruct (types_rows_ok rows None [] Hrows) as [res Hres]; [by right|].
  exists res. unfold DataTypeCatalog.get_types, _get_types_sql.
  rewrite Hexec, Hres. split; [done|].
  by apply types_rows_inv in Hres as (new & -> & Hnew).
Qed.

(** X4: a first row without element type makes the whole call fail
    with the text of the exception for the unassigned local, whatever
    the other rows are; a failed query is handed back as it is. *)
Theorem get_types_first_row condition add_serials schema_oid :
  (∀ row rest elemoid,
     execute_2darray (render_get_types condition add_serials schema_oid)
       = VacuumSettings.ExecOk (row :: rest) →
     row !! "elemoid" = Some elemoid →
     SchemaChildModule.truthy elemoid = false →
     get_types condition add_serials schema_oid =
       (false, Failed (str_exn (UnboundLocalError "typeval")))) ∧
  (∀ rset,
     execute_2darray (render_get_types condition add_serials schema_oid)
       = VacuumSettings.ExecFail rset →
     get_types condition add_serials schema_oid
       = (false, QueryFailed rset)).
Proof.
  split.
  - intros row rest elemoid Hexec He Ht.
    unfold DataTypeCatalog.get_types, _get_types_sql. rewrite Hexec.
    simpl. unfold types_row, row_key. by rewrite He, Ht.
  - intros rset Hexec.
    unfold DataTypeCatalog.get_types, _get_types_sql. by rewrite Hexec.
Qed.

(** X5: in a result of [get_types], an entry of a row without element
    type has neither length nor precision and the bounds 0 and 0, but
    carries the class letter of the entry before it. *)
Theorem get_types_stale_class condition add_serials schema_oid rows res :
  execute_2darray (render_get_types condition add_serials schema_oid)
    = VacuumSettings.ExecOk rows →
  get_types condition add_serials schema_oid = (true, Types res) →
  List.length res = List.length rows ∧
  ∀ i row entry elemoid,
    rows !! i = Some row → res !! i = Some entry →
    row !! "elemoid" = Some elemoid →
    SchemaChildModule.truthy elemoid = false →
    length entry = false ∧ precision entry = false ∧
    min_val entry = 0 ∧ max_val entry = 0 ∧
    ∃ j previous, i = S j ∧ res !! j = Some previous ∧
      typval entry = typval previous.
Proof.
  intros Hexec. unfold DataTypeCatalog.get_types, _get_types_sql.
  rewrite Hexec.
  destruct (types_rows None rows []) as [e|res'] eqn:Hres; [done|].
  intros [= <-].
  apply types_rows_inv in Hres as (new & -> & Hnew). simpl.
  assert (∀ before rows new,
            entries_of before rows new →
            List.length new = List.length rows ∧
            ∀ i row entry elemoid,
              rows !! i = Some row → new !! i = Some entry →
              row !! "elemoid" = Some elemoid →
              SchemaChildModule.truthy elemoid = false →
              length entry = false ∧ precision entry = false ∧
              min_val entry = 0 ∧ max_val entry = 0 ∧
              match i with
              | O => before = Some (typval entry)
              | S j => ∃ previous, new !! j = Some previous ∧
                         typval entry = typval previous
              end) as Hgen.
  { clear. induction 1 as [|before row entry rows res Hentry _ IH].
    - split; [done|]. intros i ????. by rewrite lookup_nil.
    - destruct IH as [Hlen IH]. split; [simpl; by rewrite Hlen|].
      intros [|i] row' entry' elemoid Hrow Hent He Ht; simplify_eq/=.
      + destruct Hentry as (elemoid' & He' & _ & _ & _ & _ & Hb & Hcls).
        simplify_eq. rewrite Ht in Hcls. destruct Hcls as (Hl & Hp & ?).
        rewrite Hl, Hp in Hb. simpl in Hb. by simplify_eq.
      + destruct (IH i row' entry' elemoid Hrow Hent He Ht)
          as (? & ? & ? & ? & Hprev).
        repeat split; try done.
        destruct i as [|i]; simplify_eq/=.
        * exists entry. split; [done|]. congruence.
        * done. }
  destruct (Hgen None rows new Hnew) as [Hlen Hall].
  split; [done|].
  intros i row entry elemoid Hrow Hent He Ht.
  destruct (Hall i row entry elemoid Hrow Hent He Ht)
    as (? & ? & ? & ? & Hprev).
  repeat split; try done.
  destruct i as [|j]; [done|].
  destruct Hprev as (previous & ? & ?). eauto.
Qed.

End WithConnection.

Lemma get_types_succeeds_witness :
  ∃ res,
    DataTypeCatalog.get_types CatalogExample.render
      CatalogExample.execute_2darray CatalogExample.str_exn
      "typtype = 'b'" false "" = (true, Types res) ∧
    entries_of None CatalogExample.rows res.
Proof.
  apply (get_types_succeeds CatalogExample.render
           CatalogExample.execute_2darray CatalogExample.str_exn
           "typtype = 'b'" false "" CatalogExample.rows).
  - reflexivity.
  - repeat constructor; eexists; reflexivity.
  - right. eexists _, _. split; [reflexivity|].
    exists (VInt 1700). split; reflexivity.
Defined.

Lemma get_types_first_row_witness :
  DataTypeCatalog.get_types CatalogExample.render
    CatalogExample.execute_reversed CatalogExample.str_exn
    "typtype = 'b'" false ""
  = (false,
     Failed "local variable 'typeval' referenced before assignment").
Proof.
  eapply (proj1 (get_types_first_row CatalogExample.render
                   CatalogExample.execute_reversed CatalogExample.str_exn
                   "typtype = 'b'" false "")).
  - reflexivity.
  - reflexivity.
  - reflexivity.
Defined.

Lemma get_types_stale_class_witness :
  List.length CatalogExample.entries = List.length CatalogExample.rows ∧
  ∀ i row entry elemoid,
    CatalogExample.rows !! i = Some row →
    CatalogExample.entries !! i = Some entry →
    row !! "elemoid" = Some elemoid →
    SchemaChildModule.truthy elemoid = false →
    length entry = false ∧ precision entry = false ∧
    min_val entry = 0 ∧ max_val entry = 0 ∧
    ∃ j previous, i = S j ∧
      CatalogExample.entries !! j = Some previous ∧
      typval entry = typval previous.
Proof.
  apply (get_types_stale_class CatalogExample.render
           CatalogExample.execute_2darray CatalogExample.str_exn
           "typtype = 'b'" false "" CatalogExample.rows
           CatalogExample.entries).
  - reflexivity.
  - reflexivity.
Defined.

End DataTypeCatalogFacts.

(** * parse_length_precision *)

Module LengthPrecisionFacts.
Import DataTypeReader LengthPrecision.

(** The decimal text of a natural number is a non-empty string of
    digits. *)
Lemma string_of_uint_digits (d : Decimal.uint) :
  all_digits (NilEmpty.string_of_uint d) = true.
Proof. induction d; simpl; auto. Qed.

Lemma str_int_digits (z : Z) :
  0 ≤ z → all_digits (str_int z) = true ∧ str_int z ≠ "".
Proof.
  intros Hz. unfold str_int.
  destruct z as [|p|p]; [by split| |lia].
  unfold Z.to_int, NilZero.string_of_int, NilZero.string_of_uint.
  destruct (Pos.to_uint p) as [|u|u|u|u|u|u|u|u|u|u]; [by split|..];
    (split; [|done]).
  all: match goal with
       | |- all_digits (_ ?d) = true =>
           exact (string_of_uint_digits d)
       end.
Qed.

Lemma span_digits_app (a r : string) :
  all_digits a = true →
  (∀ c r', r = String c r' → is_digit c = false) →
  span_digits (a +:+ r) = (a, r).
Proof.
  intros Ha Hr. induction a as [|c a IH]; simpl in *.
  - destruct r as [|c r']; [done|]. simpl. by rewrite (Hr c r').
  - apply andb_true_iff in Ha as [Hc Ha].
    rewrite ?append_cons. simpl. by rewrite Hc, IH.
Qed.

Lemma span_digits_spec (s d r : string) :
  span_digits s = (d, r) → all_digits d = true ∧ s = d +:+ r.
Proof.
  revert d r. induction s as [|c s IH]; intros d r; simpl.
  - by intros [= <- <-].
  - destruct (is_digit c) eqn:Hc; [|by intros [= <- <-]].
    destruct (span_digits s) as [d' r'].
    destruct (IH d' r' eq_refl) as [Hd ->].
    intros [= <- <-]. simpl. by rewrite Hc, Hd.
Qed.

Lemma search_digits_skip (pre s : string) :
  no_digit pre = true → search_digits (pre +:+ s) = search_digits s.
Proof.
  intros Hpre. induction pre as [|c pre IH]; [done|]. simpl in *.
  apply andb_true_iff in Hpre as [Hc Hpre].
  rewrite ?append_cons. simpl.
  destruct (is_digit c); [done|]. auto.
Qed.

Lemma search_digits_pair_skip (pre s : string) :
  no_digit pre = true →
  search_digits_pair (pre +:+ s) = search_digits_pair s.
Proof.
  intros Hpre. induction pre as [|c pre IH]; [done|]. simpl in Hpre.
  apply andb_true_iff in Hpre as [Hc Hpre].
  rewrite ?append_cons. simpl. unfold match_digits_pair. simpl.
  destruct (is_digit c); [done|]. auto.
Qed.

(** The first run of digits of [a ++ r] is [a]. *)
Lemma search_digits_head (a r : string) :
  all_digits a = true → a ≠ "" →
  (∀ c r', r = String c r' → is_digit c = false) →
  search_digits (a +:+ r) = Some a.
Proof.
  intros Ha Hne Hr. destruct a as [|c a]; [done|].
  pose proof (span_digits_app _ _ Ha Hr) as Hspan.
  simpl in Ha. apply andb_true_iff in Ha as [Hc Ha].
  rewrite ?append_cons in *. unfold search_digits. rewrite Hc.
  by rewrite Hspan.
Qed.

Lemma search_digits_pair_head (a b r : string) :
  all_digits a = true → a ≠ "" → all_digits b = true → b ≠ "" →
  (∀ c r', r = String c r' → is_digit c = false) →
  search_digits_pair (a +:+ "," +:+ b +:+ r) = Some (a, b).
Proof.
  intros Ha Hane Hb Hbne Hr.
  assert (match_digits_pair (a +:+ "," +:+ b +:+ r) = Some (a, b)) as Hm.
  { unfold match_digits_pair.
    rewrite (span_digits_app a) by (done || by intros ?? [= <- _]).
    destruct a as [|c a]; [done|]. rewrite ?append_cons. simpl.
    change ("" +:+ b +:+ r) with (b +:+ r).
    rewrite (span_digits_app b r) by done. simpl.
    by destruct b. }
  destruct a as [|c a]; [done|]. rewrite ?append_cons in *.
  simpl. by rewrite Hm.
Qed.

(** The shape of what [get_full_type] renders in the last branches. *)
Lemma plain_name_typmod typmod name schema :
  plain_name name schema = true →
  _check_typmod typmod name = "(" +:+ str_int (typmod - 4) +:+ ")" ∧
  ∀ length array,
    _get_full_type_value name schema length array
    = name +:+ length +:+ array.
Proof.
  unfold plain_name. rewrite !andb_true_iff, !negb_true_iff.
  intros ((((Hnum & Htime) & Hint) & Hdate) & Hchar).
  split.
  - unfold _check_typmod. rewrite Hnum, Htime, Hint, Hdate. simpl.
    by rewrite append_assoc.
  - intros length array. unfold _get_full_type_value. rewrite Hchar.
    apply bool_decide_eq_false in Htime.
    destruct (String.eqb_spec name DATATYPE_TIME_WITH_TIMEZONE)
      as [->|_]; [exfalso; apply Htime; set_solver|].
    destruct (String.eqb_spec name DATATYPE_TIME_WITHOUT_TIMEZONE)
      as [->|_]; [exfalso; apply Htime; set_solver|].
    destruct (String.eqb_spec name DATATYPE_TIMESTAMP_WITH_TIMEZONE)
      as [->|_]; [exfalso; apply Htime; set_solver|].
    destruct (String.eqb_spec name DATATYPE_TIMESTAMP_WITHOUT_TIMEZONE)
      as [->|_]; [exfalso; apply Htime; set_solver|].
    apply append_assoc.
Qed.

Lemma array_of_no_digit_head dims c r' :
  array_of dims = String c r' → is_digit c = false.
Proof.
  unfold array_of. destruct (0 <? dims); [|done].
  destruct (Z.to_nat dims) as [|n]; [done|]. simpl.
  assert (∀ n acc c r', append_dims n (String "[" acc) = String c r' →
                        c = "["%char) as H.
  { clear. induction n as [|n IH]; intros acc c r'; simpl.
    - by intros [= <- _].
    - rewrite append_cons. apply IH. }
  intros E. change ("" +:+ "[]") with (String "[" "]") in E.
  by rewrite (H _ _ _ _ E).
Qed.

(** X6: the length and the precision that [get_full_type] renders for
    [numeric] are read back by [parse_length_precision], for a type
    modifier of at least 4. *)
Theorem parse_length_precision_numeric nsp typname is_dup numdims typmod
    raw dims :
  _check_schema_in_name typname (schema_of nsp) = Ok raw →
  strip_markers raw numdims = ("numeric", dims) →
  4 ≤ typmod →
  ∃ fulltype,
    get_full_type nsp typname is_dup numdims typmod = Ok fulltype ∧
    parse_length_precision fulltype true true =
      (Some (str_int (Z.shiftr (typmod - 4) 16)),
       Some (str_int (Z.land (typmod - 4) 65535))).
Proof.
  intros Hraw Hstrip Hmod. eexists. split.
  - apply (DataTypeReaderFacts.get_full_type_unfold _ _ _ _ _ _ _ _
             Hraw Hstrip). lia.
  - rewrite DataTypeReaderFacts.check_typmod_numeric.
    assert (0 ≤ Z.shiftr (typmod - 4) 16) as Hp
      by (apply Z.shiftr_nonneg; lia).
    assert (0 ≤ Z.land (typmod - 4) 65535) as Hs
      by (apply Z.land_nonneg; lia).
    destruct (str_int_digits _ Hp) as [Hpd Hpne].
    destruct (str_int_digits _ Hs) as [Hsd Hsne].
    set (P := str_int (Z.shiftr (typmod - 4) 16)) in *.
    set (S := str_int (Z.land (typmod - 4) 65535)) in *.
    change (_get_full_type_value "numeric" ?sch ?len ?arr)
      with (("numeric" +:+ len) +:+ arr).
    rewrite !append_assoc.
    change ("numeric" +:+ "(" +:+ ?x) with ("numeric(" +:+ x).
    unfold parse_length_precision.
    rewrite search_digits_pair_skip by done.
    rewrite search_digits_pair_head; try done.
    by intros c r' [= <- _].
Qed.

Lemma parse_length_precision_numeric_witness :
  ∃ fulltype,
    get_full_type None "numeric[]" false 0 655366 = Ok fulltype ∧
    parse_length_precision fulltype true true = (Some "10", Some "2").
Proof.
  apply (parse_length_precision_numeric None "numeric[]" false 0 655366
           "numeric[]" 1); [reflexivity|reflexivity|lia].
Defined.

(** X7: for the with/without-time-zone names, the length that
    [get_full_type] puts before the zone suffix is read back, for a
    type modifier that is not negative. *)
Theorem parse_length_precision_time_zone nsp typname is_dup numdims typmod
    raw name dims :
  _check_schema_in_name typname (schema_of nsp) = Ok raw →
  strip_markers raw numdims = (name, dims) →
  name ∈ [ "timestamp with time zone"; "timestamp without time zone";
           "time with time zone"; "time without time zone" ] →
  0 ≤ typmod →
  ∃ fulltype,
    get_full_type nsp typname is_dup numdims typmod = Ok fulltype ∧
    parse_length_precision fulltype true false
      = (Some (str_int typmod), None).
Proof.
  intros Hraw Hstrip Hname Hmod. eexists. split.
  - apply (DataTypeReaderFacts.get_full_type_unfold _ _ _ _ _ _ _ _
             Hraw Hstrip). lia.
  - destruct (str_int_digits _ Hmod) as [Hd Hne].
    rewrite (DataTypeReaderFacts.check_typmod_direct typmod name)
      by (repeat (apply elem_of_cons in Hname as [->|Hname]);
            [repeat constructor..|by apply elem_of_nil in Hname]).
    set (D := str_int typmod) in *.
    unfold parse_length_precision.
    repeat (apply elem_of_cons in Hname as [->|Hname]);
      [..|by apply elem_of_nil in Hname].
    + change (_get_full_type_value _ ?s ?l ?a)
        with ("timestamp" +:+ l +:+ " with time zone" +:+ a).
      rewrite !append_assoc.
      change ("timestamp" +:+ "(" +:+ ?x) with ("timestamp(" +:+ x).
      rewrite search_digits_skip by done.
      rewrite search_digits_head; try done. by intros c r' [= <- _].
    + change (_get_full_type_value _ ?s ?l ?a)
        with ("timestamp" +:+ l +:+ " without time zone" +:+ a).
      rewrite !append_assoc.
      change ("timestamp" +:+ "(" +:+ ?x) with ("timestamp(" +:+ x).
      rewrite search_digits_skip by done.
      rewrite search_digits_head; try done. by intros c r' [= <- _].
    + change (_get_full_type_value _ ?s ?l ?a)
        with ("time" +:+ l +:+ " with time zone" +:+ a).
      rewrite !append_assoc.
      change ("time" +:+ "(" +:+ ?x) with ("time(" +:+ x).
      rewrite search_digits_skip by done.
      rewrite search_digits_head; try done. by intros c r' [= <- _].
    + change (_get_full_type_value _ ?s ?l ?a)
        with ("time" +:+ l +:+ " without time zone" +:+ a).
      rewrite !append_assoc.
      change ("time" +:+ "(" +:+ ?x) with ("time(" +:+ x).
      rewrite search_digits_skip by done.
      rewrite search_digits_head; try done. by intros c r' [= <- _].
Qed.

Lemma parse_length_precision_time_zone_witness :
  ∃ fulltype,
    get_full_type None "timestamp with time zone" false 0 3 = Ok fulltype ∧
    parse_length_precision fulltype true false = (Some "3", None).
Proof.
  apply (parse_length_precision_time_zone None "timestamp with time zone"
           false 0 3 "timestamp with time zone"
           "timestamp with time zone" 0);
    [reflexivity|reflexivity|set_solver|lia].
Defined.

Lemma no_digit_app (a b : string) :
  no_digit a = true → no_digit b = true → no_digit (a +:+ b) = true.
Proof.
  intros Ha Hb. induction a as [|c a IH]; [done|]. simpl in *.
  apply andb_true_iff in Ha as [-> Ha]. simpl. auto.
Qed.

(** X8: for a name of the last rendering branch that has no digit of its
    own, the length is read back; the type modifier is at least 4. *)
Theorem parse_length_precision_plain nsp typname is_dup numdims typmod
    raw name dims :
  _check_schema_in_name typname (schema_of nsp) = Ok raw →
  strip_markers raw numdims = (name, dims) →
  plain_name name (schema_of nsp) = true →
  no_digit name = true →
  4 ≤ typmod →
  ∃ fulltype,
    get_full_type nsp typname is_dup numdims typmod = Ok fulltype ∧
    parse_length_precision fulltype true false
      = (Some (str_int (typmod - 4)), None).
Proof.
  intros Hraw Hstrip Hplain Hname Hmod. eexists. split.
  - apply (DataTypeReaderFacts.get_full_type_unfold _ _ _ _ _ _ _ _
             Hraw Hstrip). lia.
  - destruct (plain_name_typmod typmod _ _ Hplain) as [-> ->].
    destruct (str_int_digits (typmod - 4)) as [Hd Hne]; [lia|].
    unfold parse_length_precision.
    replace (name +:+ ("(" +:+ str_int (typmod - 4) +:+ ")") +:+
               array_of dims)
      with ((name +:+ "(") +:+ str_int (typmod - 4) +:+ ")" +:+
              array_of dims) by (by rewrite !append_assoc).
    rewrite search_digits_skip by (by apply no_digit_app).
    rewrite search_digits_head; try done. by intros c r' [= <- _].
Qed.

Lemma parse_length_precision_plain_witness :
  ∃ fulltype,
    get_full_type (Some "pg_catalog") "character varying" false 1 54
      = Ok fulltype ∧
    parse_length_precision fulltype true false = (Some "50", None).
Proof.
  apply (parse_length_precision_plain (Some "pg_catalog")
           "character varying" false 1 54 "character varying"
           "character varying" 1);
    [reflexivity|reflexivity|reflexivity|reflexivity|lia].
Defined.

Lemma in_chars_app c (a b : string) :
  in_chars c (a +:+ b) = in_chars c a || in_chars c b.
Proof.
  induction a as [|x a IH]; [done|]. simpl. rewrite ?append_cons.
  simpl. by rewrite IH, orb_assoc.
Qed.

Lemma match_digits_pair_comma (s : string) :
  in_chars "," s = false → match_digits_pair s = None.
Proof.
  intros Hs. unfold match_digits_pair.
  destruct (span_digits s) as [a r] eqn:Hspan.
  apply span_digits_spec in Hspan as [_ ->].
  rewrite in_chars_app in Hs. apply orb_false_iff in Hs as [_ Hr].
  destruct a; [done|]. destruct r as [|c r']; [done|].
  simpl in Hr. by destruct (Ascii.eqb_spec c ",") as [->|].
Qed.

Lemma search_digits_pair_comma (s : string) :
  in_chars "," s = false → search_digits_pair s = None.
Proof.
  induction s as [|c s IH]; intros Hs.
  - done.
  - simpl. rewrite (match_digits_pair_comma _ Hs).
    apply IH. simpl in Hs. by apply orb_false_iff in Hs as [_ ?].
Qed.

Lemma search_digits_none (s : string) :
  no_digit s = true → search_digits s = None.
Proof.
  induction s as [|c s IH]; [done|]. simpl.
  intros [Hc Hs]%andb_true_iff. apply negb_true_iff in Hc.
  rewrite Hc. auto.
Qed.

Lemma search_digits_pair_none (s : string) :
  no_digit s = true → search_digits_pair s = None.
Proof.
  induction s as [|c s IH]; [done|]. simpl.
  intros [Hc Hs]%andb_true_iff. apply negb_true_iff in Hc.
  unfold match_digits_pair. simpl. rewrite Hc. auto.
Qed.

(** X9: nothing is returned when the type is said to have no length,
    when the text has no digit, and, for a type said to have a
    precision, when the text has no comma (so a lone length is not
    read). *)
Theorem parse_length_precision_nothing (fulltype : string) :
  (∀ is_precision,
     parse_length_precision fulltype false is_precision = (None, None)) ∧
  (no_digit fulltype = true →
   ∀ is_precision,
     parse_length_precision fulltype true is_precision = (None, None)) ∧
  (in_chars "," fulltype = false →
   parse_length_precision fulltype true true = (None, None)).
Proof.
  unfold parse_length_precision. repeat split.
  - intros Hno [|].
    + by rewrite search_digits_pair_none.
    + by rewrite search_digits_none.
  - intros Hno. by rewrite search_digits_pair_comma.
Qed.

Lemma parse_length_precision_nothing_witness :
  parse_length_precision "text" true false = (None, None) ∧
  parse_length_precision "numeric(10)" true true = (None, None).
Proof.
  split.
  - apply (parse_length_precision_nothing "text"). reflexivity.
  - apply (parse_length_precision_nothing "numeric(10)"). reflexivity.
Defined.

Lemma search_digits_spec (s g : string) :
  search_digits s = Some g → all_digits g = true ∧ g ≠ "".
Proof.
  induction s as [|c s IH]; [done|]. simpl.
  destruct (is_digit c) eqn:Hc; [|done].
  destruct (span_digits s) as [d r] eqn:Hspan.
  apply span_digits_spec in Hspan as [Hd _].
  intros [= <-]. simpl. by rewrite Hc, Hd.
Qed.

Lemma search_digits_pair_spec (s g1 g2 : string) :
  search_digits_pair s = Some (g1, g2) →
  (all_digits g1 = true ∧ g1 ≠ "") ∧ (all_digits g2 = true ∧ g2 ≠ "").
Proof.
  induction s as [|c s IH]; simpl.
  - done.
  - destruct (match_digits_pair (String c s)) as [[a b]|] eqn:Hm; [|done].
    intros [= <- <-]. unfold match_digits_pair in Hm.
    destruct (span_digits (String c s)) as [a' r] eqn:Hspan.
    apply span_digits_spec in Hspan as [Ha _].
    destruct a' as [|x a']; [done|]. destruct r as [|y r']; [done|].
    destruct (Ascii.eqb y ","); [|done].
    destruct (span_digits r') as [b' r''] eqn:Hspan'.
    apply span_digits_spec in Hspan' as [Hb _]. simpl in Hm.
    destruct b'; [done|]. by simplify_eq.
Qed.

(** X10: what is returned as a length or as a precision is a non-empty
    string of digits, and a precision comes only with a length and only
    for a type said to have one. *)
Theorem parse_length_precision_digits fulltype is_tlength is_precision :
  let '(t_len, t_prec) :=
    parse_length_precision fulltype is_tlength is_precision in
  (∀ g, t_len = Some g → all_digits g = true ∧ g ≠ "") ∧
  (∀ g, t_prec = Some g →
     all_digits g = true ∧ g ≠ "" ∧
     is_Some t_len ∧ is_tlength = true ∧ is_precision = true).
Proof.
  unfold parse_length_precision.
  destruct is_tlength; [|by split].
  destruct is_precision.
  - destruct (search_digits_pair fulltype) as [[g1 g2]|] eqn:Hs;
      [|by split].
    apply search_digits_pair_spec in Hs as [[? ?] [? ?]].
    split; intros g [= <-]; eauto.
  - destruct (search_digits fulltype) as [g1|] eqn:Hs; [|by split].
    apply search_digits_spec in Hs. split; [by intros g [= <-]|done].
Qed.

Lemma parse_length_precision_digits_witness :
  (∀ g, Some "10" = Some g → all_digits g = true ∧ g ≠ "") ∧
  (∀ g, Some "2" = Some g →
     all_digits g = true ∧ g ≠ "" ∧
     is_Some (Some "10") ∧ true = true ∧ true = true).
Proof.
  exact (parse_length_precision_digits "numeric(10,2)" true true).
Defined.

End LengthPrecisionFacts.

(** * parse_type_name on undecorated and on formatted names *)

Module ParseTypeNameFacts.
Import DataTypeReader TypeNameShape LengthPrecision.
Import LengthPrecisionFacts.

Lemma find_from_absent (c : ascii) (s : string) (i : Z) :
  in_chars c s = false → find_from (String c "") s i = -1.
Proof.
  revert i. induction s as [|x s IH]; intros i Hs; [done|].
  simpl in *. apply orb_false_iff in Hs as [Hx Hs].
  destruct (Ascii.ascii_dec c x) as [->|];
    [by rewrite Ascii.eqb_refl in Hx|auto].
Qed.

Lemma find_from_first (c : ascii) (pre r : string) (i : Z) :
  in_chars c pre = false →
  find_from (String c "") (pre +:+ String c r) i = i + len pre.
Proof.
  revert i. induction pre as [|x pre IH]; intros i Hpre.
  - change ("" +:+ String c r) with (String c r). simpl.
    destruct (Ascii.ascii_dec c c); [|done].
    change (len "") with 0. destruct r; simpl; lia.
  - simpl in Hpre. apply orb_false_iff in Hpre as [Hx Hpre].
    rewrite ?append_cons. simpl.
    destruct (Ascii.ascii_dec c x) as [->|];
      [by rewrite Ascii.eqb_refl in Hx|].
    rewrite IH by done. unfold len. simpl. lia.
Qed.

Lemma find_from_range (sub s : string) (i : Z) :
  find_from sub s i = -1 ∨ i ≤ find_from sub s i.
Proof.
  revert i. induction s as [|x s IH]; intros i; cbn [find_from];
    case_match; try lia.
  destruct (IH (i + 1)); lia.
Qed.

Lemma sub_paren_digits_absent (s : string) :
  in_chars "(" s = false → sub_paren_digits_from 0 s = s.
Proof.
  induction s as [|x s IH]; intros Hs; [done|].
  cbn [in_chars] in Hs. apply orb_false_iff in Hs as [Hx Hs].
  cbn [sub_paren_digits_from]. unfold match_paren_digits.
  rewrite Ascii.eqb_sym, Hx. by rewrite IH.
Qed.

Lemma substring_prefix (q r : string) :
  String.substring 0 (String.length q) (q +:+ r) = q.
Proof.
  induction q as [|x q IH]; simpl.
  - by destruct r.
  - rewrite ?append_cons. simpl. by rewrite IH.
Qed.

Lemma slice_prefix (q r : string) :
  slice None (Some (len q)) (q +:+ r) = q.
Proof.
  unfold slice, clamp_index, len. rewrite length_append.
  destruct (Z.ltb_spec (Z.of_nat (String.length q)) 0); [lia|].
  replace (Z.to_nat _) with (String.length q) by lia.
  rewrite Nat.sub_0_r. apply substring_prefix.
Qed.

Lemma slice_drop_last (q : string) (c : ascii) :
  slice None (Some (-1)) (q +:+ String c "") = q.
Proof.
  unfold slice, clamp_index. rewrite length_append. simpl.
  replace (Z.to_nat _) with (String.length q) by lia.
  rewrite Nat.sub_0_r. apply substring_prefix.
Qed.

Lemma endswith_last_ne (s p : string) (c d : ascii) :
  c ≠ d → endswith (s +:+ String c "") (p +:+ String d "") = false.
Proof.
  intros Hne. destruct (endswith _ _) eqn:E; [|done].
  apply endswith_spec in E as [q Hq].
  rewrite <- append_assoc in Hq. by apply append_inj_last in Hq.
Qed.

(** X11: a name without opening parenthesis that does not end with a
    closing parenthesis or with '[]', and does not start with
    'interval', is returned as it is. *)
Theorem parse_type_name_undecorated (type_name : string) :
  in_chars "(" type_name = false →
  endswith type_name ")" = false →
  endswith type_name "[]" = false →
  startswith type_name "interval" = false →
  parse_type_name type_name = type_name.
Proof.
  intros Hparen Hclose Harr Hinterval. unfold parse_type_name.
  rewrite Harr, Hclose, Hinterval. unfold find.
  rewrite find_from_absent by done. simpl.
  destruct (startswith type_name "time"); [|done].
  destruct (negb _); [|done].
  by apply sub_paren_digits_absent.
Qed.

Lemma parse_type_name_undecorated_witness :
  parse_type_name "timestamp with time zone" = "timestamp with time zone".
Proof.
  apply (parse_type_name_undecorated "timestamp with time zone");
    reflexivity.
Defined.

(** X12: when there is no opening parenthesis, the index -1 is true in
    the condition: a name that ends with a closing parenthesis loses
    this last character. *)
Theorem parse_type_name_unmatched_close (q : string) :
  in_chars "(" q = false →
  parse_type_name (q +:+ ")") = q.
Proof.
  intros Hq. unfold parse_type_name.
  assert (endswith (q +:+ ")") ")" = true) as Hclose
    by (apply endswith_spec; eauto).
  rewrite (endswith_paren_not_array _ Hclose), Hclose. unfold find.
  rewrite find_from_absent
    by (rewrite in_chars_app, Hq; reflexivity).
  simpl. apply slice_drop_last.
Qed.

Lemma parse_type_name_unmatched_close_witness :
  parse_type_name ("geometry" +:+ ")") = "geometry".
Proof. apply (parse_type_name_unmatched_close "geometry"). reflexivity. Defined.

(** The array suffix of [get_full_type]. *)
Lemma append_nil_r (s : string) : s +:+ "" = s.
Proof. induction s as [|x s IH]; [done|]. by rewrite append_cons, IH. Qed.

Lemma append_dims_acc (n : nat) (acc : string) :
  append_dims n acc = acc +:+ append_dims n "".
Proof.
  revert acc. induction n as [|n IH]; intros acc; simpl.
  - by rewrite append_nil_r.
  - rewrite (IH (acc +:+ "[]")), (IH ("" +:+ "[]")).
    by rewrite !append_assoc.
Qed.

Lemma append_dims_cons (n : nat) :
  append_dims (S n) "" = "[]" +:+ append_dims n "".
Proof.
  change (append_dims (S n) "") with (append_dims n "[]").
  apply append_dims_acc.
Qed.

Lemma append_dims_snoc (n : nat) :
  append_dims (S n) "" = append_dims n "" +:+ "[]".
Proof.
  induction n as [|n IH]; [done|].
  rewrite append_dims_cons, IH, <- append_assoc.
  by rewrite <- append_dims_cons, IH.
Qed.

Lemma all_in_app chars (a b : string) :
  all_in chars a = true → all_in chars b = true →
  all_in chars (a +:+ b) = true.
Proof.
  intros Ha Hb. induction a as [|x a IH]; [done|].
  cbn [all_in] in Ha. apply andb_true_iff in Ha as [Hx Ha].
  rewrite append_cons. cbn [all_in]. by rewrite Hx, IH.
Qed.

Lemma append_dims_all_in (n : nat) : all_in "[]" (append_dims n "") = true.
Proof.
  induction n as [|n IH]; [done|].
  rewrite append_dims_snoc. by apply all_in_app.
Qed.

Lemma array_of_shape (dims : Z) :
  all_in "[]" (array_of dims) = true ∧
  ((array_of dims = "" ∧ array_mark dims = "") ∨
   (∃ x, array_of dims = x +:+ "[]") ∧ array_mark dims = "[]").
Proof.
  unfold array_of, array_mark. destruct (0 <? dims) eqn:Hd.
  - split; [apply append_dims_all_in|]. right. split; [|done].
    destruct (Z.to_nat dims) as [|n] eqn:Hn;
      [apply Z.ltb_lt in Hd; lia|].
    rewrite append_dims_snoc. eauto.
  - split; [done|]. by left.
Qed.

(** [rstrip] removes a tail of characters of the set, and nothing of a
    string whose last character is not in the set. *)
Lemma rstrip_all chars (t : string) :
  all_in chars t = true → rstrip chars t = "".
Proof.
  induction t as [|x t IH]; [done|]. cbn [all_in rstrip].
  intros [Hx Ht]%andb_true_iff. by rewrite IH, Hx.
Qed.

Lemma rstrip_app chars (s t : string) :
  all_in chars t = true → rstrip chars (s +:+ t) = rstrip chars s.
Proof.
  intros Ht. induction s as [|x s IH].
  - by rewrite rstrip_all.
  - rewrite append_cons. cbn [rstrip]. by rewrite IH.
Qed.

Lemma rstrip_last chars (q : string) (c : ascii) :
  in_chars c chars = false →
  rstrip chars (q +:+ String c "") = q +:+ String c "".
Proof.
  intros Hc. induction q as [|x q IH].
  - change ("" +:+ String c "") with (String c ""). cbn [rstrip].
    by rewrite Hc.
  - rewrite append_cons. cbn [rstrip]. rewrite IH.
    destruct q; by rewrite ?append_cons.
Qed.

Lemma parse_type_name_dims_aux (body : string) (dims : Z) :
  rstrip "[]" body = body →
  endswith body "[]" = false →
  parse_type_name (body +:+ array_of dims) =
    parse_type_name body +:+ array_mark dims.
Proof.
  intros Hstrip Hend.
  destruct (array_of_shape dims) as [Hall [[-> ->]|[[x Hx] ->]]].
  - by rewrite !append_nil_r.
  - unfold parse_type_name at 1.
    assert (endswith (body +:+ array_of dims) "[]" = true)
      as -> by (apply endswith_spec; exists (body +:+ x);
                by rewrite Hx, !append_assoc).
    rewrite rstrip_app, Hstrip by done.
    unfold parse_type_name. by rewrite Hend.
Qed.

(** X13: any number of array dimensions after a name gives one pair of
    brackets: the name is parsed without them and '[]' is put back
    once.  The name ends with a character other than a square
    bracket. *)
Theorem parse_type_name_array_dims (q : string) (c : ascii) (dims : Z) :
  in_chars c "[]" = false →
  parse_type_name ((q +:+ String c "") +:+ array_of dims) =
    parse_type_name (q +:+ String c "") +:+ array_mark dims.
Proof.
  intros Hc.
  assert (c ≠ "]"%char) as Hne by (intros ->; discriminate).
  apply parse_type_name_dims_aux.
  - by apply rstrip_last.
  - change "[]" with ("[" +:+ String "]" "").
    by apply endswith_last_ne.
Qed.

Lemma parse_type_name_array_dims_witness :
  parse_type_name ("character varying(50)" +:+ array_of 3) =
    parse_type_name "character varying(50)" +:+ array_mark 3.
Proof.
  apply (parse_type_name_array_dims "character varying(50" ")" 3).
  reflexivity.
Defined.

(** A decoration after a name without parenthesis is cut off. *)
Lemma parse_type_name_decorated (name d : string) :
  in_chars "(" name = false → name ≠ "" →
  parse_type_name (name +:+ "(" +:+ d +:+ ")") = name.
Proof.
  intros Hname Hne.
  assert (endswith (name +:+ "(" +:+ d +:+ ")") ")" = true) as Hclose.
  { apply endswith_spec. exists (name +:+ "(" +:+ d).
    by rewrite !append_assoc. }
  unfold parse_type_name.
  rewrite (endswith_paren_not_array _ Hclose), Hclose.
  unfold find.
  change ("(" +:+ d +:+ ")") with (String "(" (d +:+ ")")).
  rewrite find_from_first by done.
  assert (0 < len name) as Hlen
    by (destruct name; [done|unfold len; simpl; lia]).
  destruct (Z.eqb_spec (0 + len name) 0); [lia|]. simpl.
  apply slice_prefix.
Qed.

Lemma sub_paren_digits_keep (pre s : string) :
  in_chars "(" pre = false →
  sub_paren_digits_from 0 (pre +:+ s) = pre +:+ sub_paren_digits_from 0 s.
Proof.
  intros Hpre. induction pre as [|x pre IH]; [done|].
  cbn [in_chars] in Hpre. apply orb_false_iff in Hpre as [Hx Hpre].
  rewrite !append_cons. cbn [sub_paren_digits_from].
  unfold match_paren_digits. rewrite Ascii.eqb_sym, Hx. by rewrite IH.
Qed.

Lemma sub_paren_digits_skip (a s : string) :
  sub_paren_digits_from (String.length a) (a +:+ s)
  = sub_paren_digits_from 0 s.
Proof.
  induction a as [|x a IH]; [done|]. rewrite append_cons. exact IH.
Qed.

Lemma match_digits_close_run (seen : bool) (d post : string) :
  all_digits d = true → seen = true ∨ d ≠ "" →
  match_digits_close seen (d +:+ ")" +:+ post)
  = Some (S (String.length d)).
Proof.
  revert seen. induction d as [|x d IH]; intros seen Hd Hseen.
  - destruct Hseen as [->|]; [reflexivity|done].
  - cbn [all_digits] in Hd. apply andb_true_iff in Hd as [Hx Hd].
    rewrite append_cons. cbn [match_digits_close]. rewrite Hx.
    rewrite IH by auto. done.
Qed.

Lemma sub_paren_digits_one (pre d post : string) :
  in_chars "(" pre = false → all_digits d = true → d ≠ "" →
  in_chars "(" post = false →
  sub_paren_digits (pre +:+ "(" +:+ d +:+ ")" +:+ post) = pre +:+ post.
Proof.
  intros Hpre Hd Hne Hpost. unfold sub_paren_digits.
  rewrite sub_paren_digits_keep by done. f_equal.
  change ("(" +:+ d +:+ ")" +:+ post)
    with (String "(" (d +:+ ")" +:+ post)).
  cbn [sub_paren_digits_from]. unfold match_paren_digits.
  rewrite Ascii.eqb_refl, match_digits_close_run by auto.
  cbn [fmap option_fmap option_map Nat.pred].
  replace (d +:+ ")" +:+ post) with ((d +:+ ")") +:+ post)
    by apply append_assoc.
  replace (S (String.length d)) with (String.length (d +:+ ")"))
    by (rewrite length_append; simpl; lia).
  rewrite sub_paren_digits_skip. by apply sub_paren_digits_absent.
Qed.

Lemma prefix_app (p a b : string) :
  String.prefix p a = true → String.prefix p (a +:+ b) = true.
Proof.
  revert a. induction p as [|x p IH]; intros a;
    [by destruct (a +:+ b)|].
  destruct a as [|y a]; simpl; [done|]. rewrite ?append_cons. simpl.
  destruct (Ascii.ascii_dec x y); [apply IH|done].
Qed.

(** The precision of a time type is taken out, the zone suffix stays. *)
Lemma parse_type_name_time (pre d zone : string) (c : ascii) :
  pre = "time" ∨ pre = "timestamp" →
  all_digits d = true → d ≠ "" →
  in_chars "(" (zone +:+ String c "") = false →
  in_chars c ")]" = false →
  parse_type_name (pre +:+ "(" +:+ d +:+ ")" +:+ zone +:+ String c "")
  = pre +:+ zone +:+ String c "".
Proof.
  intros Hpre Hd Hne Hzone Hc.
  assert (c ≠ ")"%char ∧ c ≠ "]"%char) as [Hc1 Hc2]
    by (split; intros ->; discriminate).
  set (body := pre +:+ "(" +:+ d +:+ ")" +:+ zone +:+ String c "").
  assert (body = (pre +:+ "(" +:+ d +:+ ")" +:+ zone) +:+ String c "")
    as Hbody by (unfold body; by rewrite !append_assoc).
  assert (endswith body "[]" = false) as Harr.
  { rewrite Hbody. change "[]" with ("[" +:+ String "]" "").
    by apply endswith_last_ne. }
  assert (endswith body ")" = false) as Hclose.
  { rewrite Hbody. change ")" with ("" +:+ String ")" "").
    by apply endswith_last_ne. }
  assert (in_chars "(" pre = false) as Hpre'
    by (destruct Hpre as [->| ->]; reflexivity).
  assert (find body "(" = len pre) as Hidx.
  { unfold find, body.
    change ("(" +:+ d +:+ ")" +:+ zone +:+ String c "")
      with (String "(" (d +:+ ")" +:+ zone +:+ String c "")).
    rewrite find_from_first by done. lia. }
  assert (startswith body "time" = true) as Htime.
  { unfold startswith, body. apply prefix_app.
    destruct Hpre as [->| ->]; reflexivity. }
  assert (find body ")" ≠ 1) as Hend.
  { unfold find, body.
    destruct Hpre as [->| ->];
      rewrite !append_cons; cbn [find_from String.prefix];
      repeat (destruct (Ascii.ascii_dec _ _); [discriminate|]);
      match goal with
      | |- find_from ?sub ?s ?i ≠ 1 =>
          destruct (find_from_range sub s i); lia
      end. }
  unfold parse_type_name. rewrite Harr, Hclose, Hidx, Htime.
  assert (negb (len pre =? 0) = true) as ->
    by (destruct Hpre as [->| ->]; reflexivity).
  simpl. destruct (Z.eqb_spec (find body ")") 1); [done|]. simpl.
  by apply sub_paren_digits_one.
Qed.

(** X14: for a name of the last rendering branch without opening
    parenthesis, parsing what [get_full_type] renders gives the name
    back, with one '[]' when there are dimensions. *)
Theorem parse_type_name_full_type_plain nsp typname is_dup numdims typmod
    raw name dims :
  _check_schema_in_name typname (schema_of nsp) = Ok raw →
  strip_markers raw numdims = (name, dims) →
  plain_name name (schema_of nsp) = true →
  in_chars "(" name = false → name ≠ "" →
  typmod ≠ -1 →
  ∃ fulltype,
    get_full_type nsp typname is_dup numdims typmod = Ok fulltype ∧
    parse_type_name fulltype = name +:+ array_mark dims.
Proof.
  intros Hraw Hstrip Hplain Hparen Hne Hmod. eexists. split.
  - by apply (DataTypeReaderFacts.get_full_type_unfold _ _ _ _ _ _ _ _
                Hraw Hstrip).
  - destruct (plain_name_typmod typmod _ _ Hplain) as [-> ->].
    set (d := str_int (typmod - 4)).
    replace (name +:+ ("(" +:+ d +:+ ")") +:+ array_of dims)
      with (((name +:+ "(" +:+ d) +:+ String ")" "") +:+ array_of dims)
      by (by rewrite !append_assoc).
    rewrite parse_type_name_dims_aux.
    + f_equal. rewrite !append_assoc.
      by apply parse_type_name_decorated.
    + by apply rstrip_last.
    + change "[]" with ("[" +:+ String "]" "").
      by apply endswith_last_ne.
Qed.

Lemma parse_type_name_full_type_plain_witness :
  ∃ fulltype,
    get_full_type (Some "pg_catalog") "character varying" false 2 54
      = Ok fulltype ∧
    parse_type_name fulltype = "character varying" +:+ array_mark 2.
Proof.
  apply (parse_type_name_full_type_plain (Some "pg_catalog")
           "character varying" false 2 54 "character varying"
           "character varying" 2);
    [reflexivity|reflexivity|reflexivity|reflexivity|discriminate|lia].
Defined.

(** X15: for the with/without-time-zone names and a type modifier that
    is not negative, parsing what [get_full_type] renders gives the
    name back, with one '[]' when there are dimensions. *)
Theorem parse_type_name_full_type_time_zone nsp typname is_dup numdims
    typmod raw name dims :
  _check_schema_in_name typname (schema_of nsp) = Ok raw →
  strip_markers raw numdims = (name, dims) →
  name ∈ [ "timestamp with time zone"; "timestamp without time zone";
           "time with time zone"; "time without time zone" ] →
  0 ≤ typmod →
  ∃ fulltype,
    get_full_type nsp typname is_dup numdims typmod = Ok fulltype ∧
    parse_type_name fulltype = name +:+ array_mark dims.
Proof.
  intros Hraw Hstrip Hname Hmod. eexists. split.
  - apply (DataTypeReaderFacts.get_full_type_unfold _ _ _ _ _ _ _ _
             Hraw Hstrip). lia.
  - destruct (str_int_digits _ Hmod) as [Hd Hne].
    rewrite (DataTypeReaderFacts.check_typmod_direct typmod name)
      by (repeat (apply elem_of_cons in Hname as [->|Hname]);
            [repeat constructor..|by apply elem_of_nil in Hname]).
    set (d := str_int typmod) in *.
    repeat (apply elem_of_cons in Hname as [->|Hname]);
      [..|by apply elem_of_nil in Hname].
    + change (_get_full_type_value _ ?s ?l ?a)
        with ("timestamp" +:+ l +:+ " with time zone" +:+ a).
      replace ("timestamp" +:+ ("(" +:+ d +:+ ")") +:+
                 " with time zone" +:+ array_of dims)
        with (("timestamp" +:+ "(" +:+ d +:+ ")" +:+ " with time zon"
                 +:+ String "e" "") +:+ array_of dims)
        by (by rewrite !append_assoc).
      rewrite parse_type_name_dims_aux.
      * by rewrite parse_type_name_time by auto.
      * replace ("timestamp" +:+ "(" +:+ d +:+ ")" +:+ " with time zon"
                   +:+ String "e" "")
          with (("timestamp" +:+ "(" +:+ d +:+ ")" +:+ " with time zon")
                  +:+ String "e" "") by (by rewrite !append_assoc).
        by apply rstrip_last.
      * replace ("timestamp" +:+ "(" +:+ d +:+ ")" +:+ " with time zon"
                   +:+ String "e" "")
          with (("timestamp" +:+ "(" +:+ d +:+ ")" +:+ " with time zon")
                  +:+ String "e" "") by (by rewrite !append_assoc).
        change "[]" with ("[" +:+ String "]" "").
        by apply endswith_last_ne.
    + change (_get_full_type_value _ ?s ?l ?a)
        with ("timestamp" +:+ l +:+ " without time zone" +:+ a).
      replace ("timestamp" +:+ ("(" +:+ d +:+ ")") +:+
                 " without time zone" +:+ array_of dims)
        with (("timestamp" +:+ "(" +:+ d +:+ ")" +:+ " without time zon"
                 +:+ String "e" "") +:+ array_of dims)
        by (by rewrite !append_assoc).
      rewrite parse_type_name_dims_aux.
      * by rewrite parse_type_name_time by auto.
      * replace ("timestamp" +:+ "(" +:+ d +:+ ")" +:+
                   " without time zon" +:+ String "e" "")
          with (("timestamp" +:+ "(" +:+ d +:+ ")" +:+
                   " without time zon") +:+ String "e" "")
          by (by rewrite !append_assoc).
        by apply rstrip_last.
      * replace ("timestamp" +:+ "(" +:+ d +:+ ")" +:+
                   " without time zon" +:+ String "e" "")
          with (("timestamp" +:+ "(" +:+ d +:+ ")" +:+
                   " without time zon") +:+ String "e" "")
          by (by rewrite !append_assoc).
        change "[]" with ("[" +:+ String "]" "").
        by apply endswith_last_ne.
    + change (_get_full_type_value _ ?s ?l ?a)
        with ("time" +:+ l +:+ " with time zone" +:+ a).
      replace ("time" +:+ ("(" +:+ d +:+ ")") +:+
                 " with time zone" +:+ array_of dims)
        with (("time" +:+ "(" +:+ d +:+ ")" +:+ " with time zon"
                 +:+ String "e" "") +:+ array_of dims)
        by (by rewrite !append_assoc).
      rewrite parse_type_name_dims_aux.
      * by rewrite parse_type_name_time by auto.
      * replace ("time" +:+ "(" +:+ d +:+ ")" +:+ " with time zon"
                   +:+ String "e" "")
          with (("time" +:+ "(" +:+ d +:+ ")" +:+ " with time zon")
                  +:+ String "e" "") by (by rewrite !append_assoc).
        by apply rstrip_last.
      * replace ("time" +:+ "(" +:+ d +:+ ")" +:+ " with time zon"
                   +:+ String "e" "")
          with (("time" +:+ "(" +:+ d +:+ ")" +:+ " with time zon")
                  +:+ String "e" "") by (by rewrite !append_assoc).
        change "[]" with ("[" +:+ String "]" "").
        by apply endswith_last_ne.
    + change (_get_full_type_value _ ?s ?l ?a)
        with ("time" +:+ l +:+ " without time zone" +:+ a).
      replace ("time" +:+ ("(" +:+ d +:+ ")") +:+
                 " without time zone" +:+ array_of dims)
        with (("time" +:+ "(" +:+ d +:+ ")" +:+ " without time zon"
                 +:+ String "e" "") +:+ array_of dims)
        by (by rewrite !append_assoc).
      rewrite parse_type_name_dims_aux.
      * by rewrite parse_type_name_time by auto.
      * replace ("time" +:+ "(" +:+ d +:+ ")" +:+ " without time zon"
                   +:+ String "e" "")
          with (("time" +:+ "(" +:+ d +:+ ")" +:+ " without time zon")
                  +:+ String "e" "") by (by rewrite !append_assoc).
        by apply rstrip_last.
      * replace ("time" +:+ "(" +:+ d +:+ ")" +:+ " without time zon"
                   +:+ String "e" "")
          with (("time" +:+ "(" +:+ d +:+ ")" +:+ " without time zon")
                  +:+ String "e" "") by (by rewrite !append_assoc).
        change "[]" with ("[" +:+ String "]" "").
        by apply endswith_last_ne.
Qed.

Lemma parse_type_name_full_type_time_zone_witness :
  ∃ fulltype,
    get_full_type None "timestamp with time zone[]" false 0 3
      = Ok fulltype ∧
    parse_type_name fulltype = "timestamp with time zone" +:+ array_mark 1.
Proof.
  apply (parse_type_name_full_type_time_zone None
           "timestamp with time zone[]" false 0 3
           "timestamp with time zone[]" "timestamp with time zone" 1);
    [reflexivity|reflexivity|set_solver|lia].
Defined.

End ParseTypeNameFacts.

(** * get_full_type: decorations, errors, array suffix *)

Module FullTypeFacts.
Import DataTypeReader TypeNameShape LengthPrecision.

(** X16: the decoration is empty for [date] and for no other name; for
    every other name it is a text in parentheses. *)
Theorem check_typmod_shape (typmod : Z) (name : string) :
  (name = "date" → _check_typmod typmod name = "") ∧
  (name ≠ "date" →
   ∃ inner, _check_typmod typmod name = "(" +:+ inner +:+ ")").
Proof.
  split; [by intros ->|]. intros Hname. unfold _check_typmod.
  destruct (String.eqb name "numeric").
  { eexists. reflexivity. }
  destruct (bool_decide _).
  { eexists. reflexivity. }
  destruct (String.eqb name "interval").
  { eexists. reflexivity. }
  destruct (String.eqb_spec name "date") as [|_]; [done|].
  eexists. reflexivity.
Qed.

Lemma check_typmod_shape_witness :
  ∃ inner, _check_typmod 54 "character varying" = "(" +:+ inner +:+ ")".
Proof. apply (check_typmod_shape 54 "character varying"). discriminate. Defined.

Lemma len_nonneg (s : string) : 0 ≤ len s.
Proof. unfold len. lia. Qed.

Lemma append_nil_r_aux (s : string) : s +:+ "" = s.
Proof. induction s as [|x s IH]; [done|]. by rewrite append_cons, IH. Qed.

Lemma substring_one (s : string) (n : nat) :
  (n < String.length s)%nat →
  String.length (String.substring n 1 s) = 1%nat.
Proof.
  revert n. induction s as [|x s IH]; intros n Hn; simpl in Hn; [lia|].
  destruct n as [|n]; simpl.
  - by destruct s.
  - apply IH. lia.
Qed.

Lemma getitem_outcomes (s : string) (i : Z) :
  match getitem s i with
  | Ok x => String.length x = 1%nat
  | Raise e =>
      e = IndexError "string index out of range" ∧
      (i < - len s ∨ len s ≤ i)
  end.
Proof.
  unfold getitem, len.
  destruct (Z.ltb_spec i 0);
    match goal with
    | |- context [(0 <=? ?j) && (?j <? ?n)] =>
        destruct (Z.leb_spec 0 j); destruct (Z.ltb_spec j n); simpl
    end;
    try (apply substring_one; lia); split; (done || lia).
Qed.

(** X17: when the schema name followed by a dot occurs in the type name,
    what is kept of the type name is one character; when it does not
    occur, the type name is kept as it is. *)
Theorem check_schema_in_name_kept (typname schema : string) :
  (∀ name,
     0 ≤ find typname (schema +:+ dq +:+ ".") ∨
     0 ≤ find typname (schema +:+ ".") →
     _check_schema_in_name typname schema = Ok name →
     String.length name = 1%nat) ∧
  (find typname (schema +:+ dq +:+ ".") < 0 →
   find typname (schema +:+ ".") < 0 →
   _check_schema_in_name typname schema = Ok typname).
Proof.
  unfold _check_schema_in_name. split.
  - intros name Hocc.
    destruct (Z.leb_spec 0 (find typname (schema +:+ dq +:+ "."))).
    + pose proof (getitem_outcomes typname (len schema + 3)) as H'.
      intros E. by rewrite E in H'.
    + destruct (Z.leb_spec 0 (find typname (schema +:+ "."))); [|lia].
      pose proof (getitem_outcomes typname (len schema + 1)) as H'.
      intros E. by rewrite E in H'.
  - intros H1 H2.
    destruct (Z.leb_spec 0 (find typname (schema +:+ dq +:+ ".")));
      [lia|].
    by destruct (Z.leb_spec 0 (find typname (schema +:+ "."))); [lia|].
Qed.

Lemma check_schema_in_name_kept_witness :
  String.length "i" = 1%nat ∧
  _check_schema_in_name "int4" "public" = Ok "int4".
Proof.
  split.
  - apply (proj1 (check_schema_in_name_kept "public.int4" "public") "i").
    + right. vm_compute. discriminate.
    + reflexivity.
  - apply (proj2 (check_schema_in_name_kept "int4" "public"));
      reflexivity.
Defined.

(** X18: [get_full_type] raises only the [IndexError] of the schema
    index: the schema name with a dot occurs in the type name, and the
    type name ends before the index that is read. *)
Theorem get_full_type_raises nsp typname is_dup numdims typmod e :
  get_full_type nsp typname is_dup numdims typmod = Raise e →
  e = IndexError "string index out of range" ∧
  (0 ≤ find typname (schema_of nsp +:+ dq +:+ ".") ∨
   0 ≤ find typname (schema_of nsp +:+ ".")) ∧
  len typname ≤ len (schema_of nsp) + 3.
Proof.
  unfold get_full_type, _check_schema_in_name.
  pose proof (len_nonneg (schema_of nsp)) as Hs.
  destruct (Z.leb_spec 0 (find typname (schema_of nsp +:+ dq +:+ "."))).
  - pose proof (getitem_outcomes typname (len (schema_of nsp) + 3)) as H'.
    destruct (getitem typname _) as [x|e']; simpl.
    + by destruct (strip_markers x numdims).
    + intros [= <-]. destruct H' as [-> ?]. split; [done|].
      split; [by left|lia].
  - destruct (Z.leb_spec 0 (find typname (schema_of nsp +:+ "."))).
    + pose proof (getitem_outcomes typname (len (schema_of nsp) + 1))
        as H'.
      destruct (getitem typname _) as [x|e']; simpl.
      * by destruct (strip_markers x numdims).
      * intros [= <-]. destruct H' as [-> ?]. split; [done|].
        split; [by right|lia].
    + simpl. by destruct (strip_markers typname numdims).
Qed.

Lemma get_full_type_raises_witness :
  IndexError "string index out of range"
    = IndexError "string index out of range" ∧
  (0 ≤ find "myschema." (schema_of (Some "myschema") +:+ dq +:+ ".") ∨
   0 ≤ find "myschema." (schema_of (Some "myschema") +:+ ".")) ∧
  len "myschema." ≤ len (schema_of (Some "myschema")) + 3.
Proof.
  apply (get_full_type_raises (Some "myschema") "myschema." false 0 (-1)).
  reflexivity.
Defined.

(** X19: without a type modifier (-1) the name is rendered without
    decoration, followed by the array suffix; only [char] of
    [pg_catalog] is put in double quotes. *)
Theorem get_full_type_no_typmod nsp typname is_dup numdims raw name dims :
  _check_schema_in_name typname (schema_of nsp) = Ok raw →
  strip_markers raw numdims = (name, dims) →
  get_full_type nsp typname is_dup numdims (-1) =
    Ok ((if String.eqb name "char" && String.eqb (schema_of nsp) "pg_catalog"
         then dq +:+ "char" +:+ dq else name) +:+ array_of dims).
Proof.
  intros Hraw Hstrip. unfold get_full_type. rewrite Hraw.
  unfold mbind, result_bind, Py.bind. rewrite Hstrip. simpl. f_equal.
  unfold _get_full_type_value.
  destruct (String.eqb name "char" && _); [by rewrite !append_assoc|].
  repeat (match goal with
          | |- context [String.eqb name ?c] =>
              destruct (String.eqb_spec name c) as [->|_]; [done|]
          end).
  by rewrite append_nil_r_aux.
Qed.

Lemma get_full_type_no_typmod_witness :
  get_full_type (Some "pg_catalog") "_timestamp with time zone" false 2
    (-1) = Ok ("timestamp with time zone" +:+ array_of 2).
Proof.
  apply (get_full_type_no_typmod (Some "pg_catalog")
           "_timestamp with time zone" false 2
           "_timestamp with time zone" "timestamp with time zone" 2);
    reflexivity.
Defined.

End FullTypeFacts.

(** * trigger_definition: what it writes and when it raises *)

Module TriggerMoreFacts.
Import Trigger TriggerFacts.

Lemma trigger_definition_value (data : gmap string val) (t : Z) :
  data !! "tgtype" = Some (VInt t) →
  trigger_definition data =
    Ok (<["evnt_truncate" := VBool (Z.testbit t 5)]>
        (<["evnt_update" := VBool (Z.testbit t 4)]>
         (<["evnt_delete" := VBool (Z.testbit t 3)]>
          (<["evnt_insert" := VBool (Z.testbit t 2)]>
           (<["is_row_trigger" := VBool (Z.testbit t 0)]>
            (<["fires" :=
                 VStr (if Z.testbit t 1 then "BEFORE"
                       else if Z.testbit t 6 then "INSTEAD OF"
                       else "AFTER")]> data)))))).
Proof.
  intros Ht. unfold trigger_definition.
  unfold TRIGGER_TYPE_BEFORE, TRIGGER_TYPE_INSTEAD, TRIGGER_TYPE_ROW,
    TRIGGER_TYPE_INSERT, TRIGGER_TYPE_DELETE, TRIGGER_TYPE_UPDATE,
    TRIGGER_TYPE_TRUNCATE.
  rewrite (tgtype_has_bit data t 1), (tgtype_has_bit data t 6) by done.
  unfold mbind, result_bind, Py.bind.
  destruct (Z.testbit t 1); [|destruct (Z.testbit t 6)];
    repeat (erewrite (tgtype_has_bit _ t) by (done || by simplify_map_eq));
    reflexivity.
Qed.

(** X20: the six keys [fires], [is_row_trigger], [evnt_insert],
    [evnt_delete], [evnt_update] and [evnt_truncate] are the only ones
    written (so [tgtype] and every other property are kept), and
    decoding a second time changes nothing. *)
Theorem trigger_definition_frame (data data' : gmap string val) (t : Z) :
  data !! "tgtype" = Some (VInt t) →
  trigger_definition data = Ok data' →
  (∀ k, k ∉ [ "fires"; "is_row_trigger"; "evnt_insert"; "evnt_delete";
              "evnt_update"; "evnt_truncate" ] →
        data' !! k = data !! k) ∧
  trigger_definition data' = Ok data'.
Proof.
  intros Ht. rewrite (trigger_definition_value _ _ Ht). intros [= <-].
  split.
  - intros k Hk.
    rewrite !lookup_insert_ne by (intros <-; apply Hk; set_solver).
    done.
  - rewrite (trigger_definition_value _ t)
      by (by rewrite !lookup_insert_ne by done).
    f_equal. apply map_eq. intros k.
    destruct (decide (k ∈ [ "fires"; "is_row_trigger"; "evnt_insert";
                            "evnt_delete"; "evnt_update";
                            "evnt_truncate" ])) as [Hin|Hnot].
    + repeat (apply elem_of_cons in Hin as [->|Hin]);
        [by simplify_map_eq..|by apply elem_of_nil in Hin].
    + by rewrite !lookup_insert_ne
        by (intros <-; apply Hnot; set_solver).
Qed.

Lemma trigger_definition_frame_witness :
  ∃ data',
    trigger_definition {[ "tgtype" := VInt 21; "name" := VStr "audit" ]}
      = Ok data' ∧
    data' !! "name" = Some (VStr "audit") ∧
    trigger_definition data' = Ok data'.
Proof.
  eexists. split; [reflexivity|].
  pose proof (trigger_definition_frame
                {[ "tgtype" := VInt 21; "name" := VStr "audit" ]} _ 21
                eq_refl eq_refl) as [Hframe Hagain].
  split; [|exact Hagain].
  rewrite Hframe; [reflexivity|].
  intros H. repeat (apply elem_of_cons in H as [H|H]; [discriminate|]).
  by apply elem_of_nil in H.
Defined.

(** X21: without the key [tgtype] the call raises [KeyError], and with a
    [tgtype] that is no integer it raises [TypeError]; nothing is
    returned then. *)
Theorem trigger_definition_raises (data : gmap string val) :
  (data !! "tgtype" = None →
   trigger_definition data = Raise (KeyError (VStr "tgtype"))) ∧
  (∀ v, data !! "tgtype" = Some v →
        (∀ i, v ≠ VInt i) → (∀ b, v ≠ VBool b) →
        trigger_definition data =
          Raise (TypeError "unsupported operand type(s) for &")).
Proof.
  unfold trigger_definition, tgtype_has, getkey. split.
  - by intros ->.
  - intros v -> Hint Hbool.
    destruct v as [|b|i| |]; [done|by destruct (Hbool b)
                             |by destruct (Hint i)|done..].
Qed.

Lemma trigger_definition_raises_witness :
  trigger_definition {[ "name" := VStr "audit" ]}
    = Raise (KeyError (VStr "tgtype")) ∧
  trigger_definition {[ "tgtype" := VStr "21" ]}
    = Raise (TypeError "unsupported operand type(s) for &").
Proof.
  split.
  - apply (proj1 (trigger_definition_raises {[ "name" := VStr "audit" ]})).
    reflexivity.
  - apply (proj2 (trigger_definition_raises {[ "tgtype" := VStr "21" ]})
             (VStr "21")); [reflexivity|discriminate|discriminate].
Defined.

End TriggerMoreFacts.

(** * parse_rule_definition on a complete row *)

Module RuleMoreFacts.
Import Rule RuleFields.

Lemma without_last_snoc (c : ascii) (t : string) :
  without_last c (t +:+ String c "") = Some t.
Proof.
  induction t as [|x t IH]; simpl.
  - by rewrite Ascii.eqb_refl.
  - rewrite ?append_cons. rewrite IH. simpl.
    by destruct (t +:+ String c "") eqn:E; [destruct t|].
Qed.

Lemma without_last_Some (c : ascii) (s t : string) :
  without_last c s = Some t → s = t +:+ String c "".
Proof.
  revert t. induction s as [|x s IH]; intros t; [done|]. simpl.
  destruct s as [|y s].
  - destruct (Ascii.eqb_spec x c) as [->|]; [|done]. by intros [= <-].
  - destruct (without_last c (String y s)) as [t'|]; [|done].
    simpl. intros [= <-]. rewrite append_cons. f_equal. by apply IH.
Qed.

Lemma slice_inner (t : string) (a b : ascii) :
  slice (Some 1) (Some (-1)) (String a (t +:+ String b "")) = t.
Proof.
  unfold slice, clamp_index. simpl String.length.
  rewrite length_append. simpl String.length.
  replace (Z.to_nat (Z.min (Z.max 1 0) _)) with 1%nat by lia.
  destruct (Z.ltb_spec (-1) 0); [|lia].
  replace (Z.to_nat _) with (S (String.length t)) by lia.
  simpl. rewrite Nat.sub_0_r. apply ParseTypeNameFacts.substring_prefix.
Qed.

(** Removing the brackets by index, as the source does, removes the
    enclosing brackets. *)
Lemma strip_brackets_unbracket (g : string) :
  strip_brackets g = unbracket g.
Proof.
  unfold strip_brackets, unbracket, startswith.
  destruct g as [|d rest]; [done|].
  cbn [String.prefix].
  destruct (ascii_dec "(" d) as [<-|Hd].
  - assert (String.prefix "" rest = true) as -> by (by destruct rest).
    destruct (without_last ")" rest) as [t|] eqn:Ht; simpl.
    + apply without_last_Some in Ht as ->.
      assert (endswith (String "(" (t +:+ String ")" "")) ")" = true)
        as -> by (apply endswith_spec; by exists (String "(" t)).
      apply slice_inner.
    + destruct (endswith (String "(" rest) ")") eqn:E; [|done].
      apply endswith_spec in E as [q Hq]. destruct q as [|x q].
      * by destruct rest.
      * rewrite append_cons in Hq. injection Hq as -> ->.
        by rewrite without_last_snoc in Ht.
  - simpl. repeat case_match; try done; by simplify_eq.
Qed.

Section WithBuiltins.

Variable re_search : string → string → option (list string).
Variable py_repr : val → string.

(** Each of the three patterns has one group, so a match object has
    a group 1. *)
Hypothesis match_has_group :
  ∀ pattern text m, re_search pattern text = Some m → is_Some (m !! 1%nat).

(** The group of the source is the group of the match, or there was
    no match. *)
Lemma search_group pattern text :
  match re_search pattern text with
  | Some m => ∃ g, first_group re_search pattern text = Some g ∧
                   group m 1 = Ok g
  | None => first_group re_search pattern text = None
  end.
Proof.
  unfold first_group, group.
  destruct (re_search pattern text) as [m|] eqn:Hm; [|done].
  destruct (match_has_group _ _ _ Hm) as [g Hg]. simpl.
  rewrite Hg. by eauto.
Qed.

(** X22: for a first row that has a definition text, an event type
    '1' to '4' and an [is_instead] value, the result is that row with
    [event], [do_instead], [statements] and [condition] written and
    every other column kept.  [do_instead] is the value of
    [is_instead]; [statements] is group 1 of the statement pattern
    in the definition, and [condition] is group 1 of the condition
    pattern in group 1 of the condition-part pattern, both without
    their enclosing brackets, and the empty string when a pattern
    does not match.  Rows after the first are not looked at. *)
Theorem parse_rule_definition_row res row rows definition k event
    is_instead :
  res !! "rows" = Some (row :: rows) →
  row !! "definition" = Some (VStr definition) →
  row !! "ev_type" = Some (VStr k) →
  event_names !! k = Some event →
  row !! "is_instead" = Some is_instead →
  parse_rule_definition re_search py_repr res =
    Data (<["condition" := VStr (rule_condition re_search definition)]>
          (<["statements" :=
               VStr (rule_statement re_search definition)]>
           (<["do_instead" := is_instead]>
            (<["event" := VStr event]> row)))).
Proof.
  intros Hrows Hdef Hev Hevent Hinstead.
  unfold parse_rule_definition, rule_fields, getkey.
  rewrite Hrows. simpl. unfold getkey. rewrite Hdef. simpl.
  assert (match re_search condition_part_pattern definition with
          | Some m =>
              condition_part ← group m 1;
              match re_search condition_pattern condition_part with
              | Some m' =>
                  condition ← group m' 1; Ok (strip_brackets condition)
              | None => Ok ""
              end
          | None => Ok ""
          end = Ok (rule_condition re_search definition)) as ->.
  { unfold rule_condition.
    pose proof (search_group condition_part_pattern definition) as H.
    destruct (re_search condition_part_pattern definition) as [m|];
      [|by rewrite H].
    destruct H as (part & -> & ->). simpl.
    pose proof (search_group condition_pattern part) as H'.
    destruct (re_search condition_pattern part) as [m'|];
      [|by rewrite H'].
    destruct H' as (g & -> & ->). simpl.
    by rewrite strip_brackets_unbracket. }
  assert (match re_search statement_pattern definition with
          | Some m =>
              statement ← group m 1; Ok (strip_brackets statement)
          | None => Ok ""
          end = Ok (rule_statement re_search definition)) as Hs.
  { unfold rule_statement.
    pose proof (search_group statement_pattern definition) as H.
    destruct (re_search statement_pattern definition) as [m|];
      [|by rewrite H].
    destruct H as (g & -> & ->). simpl.
    by rewrite strip_brackets_unbracket. }
  unfold mbind at 1, result_bind at 1, Py.bind at 1.
  rewrite Hs. unfold mbind, result_bind, Py.bind.
  rewrite Hev. unfold event_of. rewrite Hevent.
  rewrite lookup_insert_ne by done. by rewrite Hinstead.
Qed.

End WithBuiltins.

(** The matcher gives a match object with the two groups. *)
Lemma search_has_group r text :
  ∀ m, Re.search r text = Some m → is_Some (m !! 1%nat).
Proof.
  assert (∀ s cap (k : string → option string → option (list string)),
            (∀ s' cap' m, k s' cap' = Some m → is_Some (m !! 1%nat)) →
            ∀ m, Re.run r s cap k = Some m → is_Some (m !! 1%nat))
    as Hrun.
  { assert (∀ p s (k : string → option (list string)),
              (∀ s' m, k s' = Some m → is_Some (m !! 1%nat)) →
              ∀ m, Re.greedily p s k = Some m → is_Some (m !! 1%nat))
      as Hgreedy.
    { intros p s k Hk. induction s as [|c s IH]; intros m; simpl;
        [by apply Hk|].
      destruct (p c); [|by apply Hk].
      destruct (Re.greedily p s k) as [m'|]; [|by apply Hk].
      intros [= <-]. by apply IH. }
    assert (∀ p s (k : string → option (list string)),
              (∀ s' m, k s' = Some m → is_Some (m !! 1%nat)) →
              ∀ m, Re.lazily p s k = Some m → is_Some (m !! 1%nat))
      as Hlazy.
    { intros p s k Hk. induction s as [|c s IH]; intros m; simpl.
      - destruct (k "") as [m'|] eqn:E; [|done].
        intros [= <-]. by eapply Hk.
      - destruct (k (String c s)) as [m'|] eqn:E.
        + intros [= <-]. by eapply Hk.
        + destruct (p c); [by apply IH|done]. }
    induction r as [t| | | |r1 IH1 r2 IH2|r' IH|r' IH];
      intros s cap k Hk m; simpl.
    - destruct (Re.after_prefix t s); [by apply Hk|done].
    - destruct s as [|c s]; [done|]. destruct (Re.is_space c); [|done].
      apply Hgreedy. intros s' m'. by apply Hk.
    - apply Hgreedy. intros s' m'. by apply Hk.
    - destruct s as [|c s]; [done|].
      apply Hlazy. intros s' m'. by apply Hk.
    - apply IH1. intros s' cap'. by apply IH2.
    - destruct (Re.run r' s cap k) as [m'|] eqn:E; [|by apply Hk].
      intros [= <-]. by eapply IH.
    - apply IH. intros s' cap'. by apply Hk. }
  assert (∀ s m, Re.match_here r s = Some m → is_Some (m !! 1%nat))
    as Hhere.
  { intros s m E. unfold Re.match_here in E.
    eapply Hrun; [|exact E].
    intros s' cap' m0 [= <-]. by eexists. }
  induction text as [|c text IH]; intros m; simpl.
  - destruct (Re.match_here r "") as [m'|] eqn:E; [|done].
    intros [= <-]. by eapply Hhere.
  - destruct (Re.match_here r (String c text)) as [m'|] eqn:E;
      [|by apply IH].
    intros [= <-]. by eapply Hhere.
Qed.

Lemma re_search_has_group pattern text m :
  Re.re_search pattern text = Some m → is_Some (m !! 1%nat).
Proof.
  unfold Re.re_search. repeat case_match; try done;
    apply search_has_group.
Qed.

Lemma parse_rule_definition_row_witness :
  parse_rule_definition Re.re_search RuleExample.repr RuleExample.res
  = Data RuleExample.parsed.
Proof.
  apply (parse_rule_definition_row Re.re_search RuleExample.repr
           re_search_has_group RuleExample.res RuleExample.row
           [RuleExample.other] RuleExample.definition "4" "DELETE"
           (VBool true));
    reflexivity.
Defined.

End RuleMoreFacts.

(** * SchemaChildModule.backend_supported *)

Module SchemaChildFacts.
Import SchemaChildModule.

Section WithClass.

Variable CATALOG_DB_SUPPORTED : bool.
Variable SUPPORTED_SCHEMAS : option (list string).
Variable base : result val.

Abbreviation backend_supported :=
  (SchemaChildModule.backend_supported CATALOG_DB_SUPPORTED
     SUPPORTED_SCHEMAS base).

(** X23: a result that is true is the result of the base class: a node
    is never supported when [CollectionNodeModule] says it is not. *)
Theorem backend_supported_base (kwargs : gmap string val) (v : val) :
  backend_supported kwargs = Ok v →
  truthy v = true →
  base = Ok v.
Proof.
  unfold SchemaChildModule.backend_supported, py_and, py_or, py_not,
    mbind, result_bind, Py.bind, getkey.
  intros H Hv.
  repeat (case_match; simplify_eq/=; try congruence).
Qed.

(** X24: outside a catalog ([is_catalog] false) neither [db_support]
    nor [schema_name] is read: the result is the one of the base class
    when [CATALOG_DB_SUPPORTED] is set and [False] otherwise. *)
Theorem backend_supported_not_catalog (kwargs : gmap string val)
    (is_catalog : val) :
  kwargs !! "is_catalog" = Some is_catalog →
  truthy is_catalog = false →
  backend_supported kwargs =
    if CATALOG_DB_SUPPORTED then base else Ok (VBool false).
Proof.
  intros Hc Ht.
  unfold SchemaChildModule.backend_supported, py_and, py_or, py_not,
    mbind, result_bind, Py.bind, getkey.
  rewrite Hc, Ht. simpl. rewrite ?Ht. by destruct CATALOG_DB_SUPPORTED.
Qed.

(** X25: inside a catalog, with [CATALOG_DB_SUPPORTED] set the node is
    supported when the database supports catalogs and the base class
    agrees, and [SUPPORTED_SCHEMAS] plays no part; with
    [CATALOG_DB_SUPPORTED] unset it is supported when the database does
    not support catalogs, the schema is one of [SUPPORTED_SCHEMAS] (or
    there is no such list) and the base class agrees. *)
Theorem backend_supported_catalog (kwargs : gmap string val)
    (db_support : bool) (schema_name : string) (b : bool) :
  kwargs !! "is_catalog" = Some (VBool true) →
  kwargs !! "db_support" = Some (VBool db_support) →
  kwargs !! "schema_name" = Some (VStr schema_name) →
  base = Ok (VBool b) →
  backend_supported kwargs =
    Ok (VBool
          (if CATALOG_DB_SUPPORTED then db_support && b
           else negb db_support &&
                match SUPPORTED_SCHEMAS with
                | None => true
                | Some schemas => bool_decide (schema_name ∈ schemas)
                end && b)).
Proof.
  intros Hc Hd Hs Hb.
  unfold SchemaChildModule.backend_supported, py_and, py_or, py_not,
    mbind, result_bind, Py.bind, getkey.
  rewrite Hc, Hd, Hs, Hb.
  destruct CATALOG_DB_SUPPORTED, db_support, SUPPORTED_SCHEMAS as [l|];
    simpl; try done;
    destruct (bool_decide (schema_name ∈ l)); simpl; try done;
    by destruct b.
Qed.

End WithClass.

Lemma backend_supported_base_witness : Ok (VBool true) = Ok (VBool true).
Proof.
  apply (backend_supported_base true None (Ok (VBool true))
           {[ "is_catalog" := VBool false ]} (VBool true));
    reflexivity.
Defined.

Lemma backend_supported_not_catalog_witness :
  SchemaChildModule.backend_supported false (Some ["pgagent"])
    (Ok (VBool true)) {[ "is_catalog" := VBool false ]}
  = Ok (VBool false).
Proof.
  apply (backend_supported_not_catalog false (Some ["pgagent"])
           (Ok (VBool true)) {[ "is_catalog" := VBool false ]}
           (VBool false)); reflexivity.
Defined.

Lemma backend_supported_catalog_witness :
  SchemaChildModule.backend_supported false (Some ["pg_catalog"])
    (Ok (VBool true))
    {[ "is_catalog" := VBool true; "db_support" := VBool false;
       "schema_name" := VStr "pg_catalog" ]}
  = Ok (VBool true).
Proof.
  apply (backend_supported_catalog false (Some ["pg_catalog"])
           (Ok (VBool true)) _ false "pg_catalog" true); reflexivity.
Defined.

End SchemaChildFacts.

(** * The vacuum settings cache: what is kept *)

Module VacuumInvariantFacts.
Import VacuumSettings VacuumInvariants.

Lemma bind_inv {A B} (m : M A) (k : A → M B) s r s' :
  (m ≫= k) s = (r, s') →
  (∃ a s1, m s = (Ok a, s1) ∧ k a s1 = (r, s')) ∨
  (∃ e, m s = (Raise e, s') ∧ r = Raise e).
Proof.
  unfold mbind, M_bind. destruct (m s) as [[a|e] s1].
  - eauto.
  - intros [= <- <-]. eauto.
Qed.

Lemma execute_dict_inv conn SQL s r s1 :
  execute_dict conn SQL s = (r, s1) →
  (∃ rows, conn (queries s) SQL = ExecOk rows ∧
     r = Ok (Data (List.length (heap s))) ∧
     s1 = State (heap s ++ [rows]) (vacuum_settings s)
            (queries s ++ [SQL])) ∨
  (∃ msg, conn (queries s) SQL = ExecFail msg ∧
     r = Ok (InternalServerError msg) ∧
     s1 = State (heap s) (vacuum_settings s) (queries s ++ [SQL])).
Proof.
  unfold execute_dict. destruct (conn (queries s) SQL) as [rows|msg].
  - intros [= <- <-]. left. eauto.
  - intros [= <- <-]. right. eauto.
Qed.

Lemma above_ret n {A} (a : A) : above n (mret a).
Proof. intros s r s' [= <- <-]. done. Qed.

Lemma above_lift n {A} (r : result A) : above n (lift r).
Proof. intros s r' s' [= <- <-]. done. Qed.

Lemma above_bind n {A B} (m : M A) (k : A → M B) :
  above n m → (∀ a, above n (k a)) → above n (m ≫= k).
Proof.
  intros Hm Hk s r s' [(a & s1 & H1 & H2)|(e & H1 & ->)]%bind_inv.
  - destruct (Hm _ _ _ H1) as (Hh & Hl & Hc & Hq).
    destruct (Hk a _ _ _ H2) as (Hh' & Hl' & Hc' & Hq').
    repeat split; try congruence.
    intros l Hlt. by rewrite Hh', Hh.
  - by eapply Hm.
Qed.

Lemma above_row_get n l i k : above n (row_get l i k).
Proof. intros s r s' [= <- <-]. done. Qed.

Lemma above_alter n l (f : list (gmap string val) → list (gmap string val))
    (s : state) :
  (n ≤ l)%nat →
  (∀ j, (j < n)%nat → alter f l (heap s) !! j = heap s !! j) ∧
  List.length (alter f l (heap s)) = List.length (heap s).
Proof.
  intros Hn. split.
  - intros j Hj. apply list_lookup_alter_ne. lia.
  - apply length_alter.
Qed.

Lemma above_row_set n l i k v : (n ≤ l)%nat → above n (row_set l i k v).
Proof.
  intros Hn s r s' [= <- <-]. simpl.
  destruct (above_alter n l (alter (<[k := v]>) i) s Hn). done.
Qed.

Lemma above_row_pop n l i k : (n ≤ l)%nat → above n (row_pop l i k).
Proof.
  intros Hn s r s' [= <- <-]. simpl.
  destruct (above_alter n l (alter (delete k) i) s Hn). done.
Qed.

Lemma above_for_each n {A} (body : A → M ()) (l : list A) :
  (∀ x, above n (body x)) → above n (for_each body l).
Proof.
  intros Hbody. induction l as [|x l IH]; simpl.
  - apply above_ret.
  - apply above_bind; auto.
Qed.

Lemma grows_refl s : grows s s.
Proof. by split. Qed.

(** A state with one more list, other lists written only from [n] on,
    and the cache kept, is a later state. *)
Lemma grows_heap s s' :
  (∀ l rows, heap s !! l = Some rows → heap s' !! l = Some rows) →
  vacuum_settings s' = vacuum_settings s →
  grows s s'.
Proof. intros Hh Hc. split; [done|]. unfold cached. by rewrite Hc. Qed.

Section WithEnvironment.

Variable vacuum_fields : list (string * list (string * list val)).
Variable render_sql : string → string.
Variable float_of_string : string → option spec_float.
Variable str_float : spec_float → string.

Abbreviation fetch :=
  (fetch_default_vacuum_settings vacuum_fields render_sql).

Lemma above_label_row n ty l i :
  (n ≤ l)%nat → above n (label_row vacuum_fields ty l i).
Proof.
  intros Hn. unfold label_row.
  repeat first
    [ apply above_bind; [|intros ?]
    | apply above_row_get | apply above_lift
    | by apply above_row_set ].
Qed.

Lemma above_parse_row n result ty l i :
  (n ≤ l)%nat →
  above n (parse_row float_of_string str_float result ty l i).
Proof.
  intros Hn. unfold parse_row.
  apply above_bind; [apply above_row_get|intros name].
  destruct (result_get _ _);
    repeat first
      [ by apply above_row_pop
      | apply above_bind; [|intros ?]
      | apply above_lift
      | by apply above_row_set ].
Qed.

Lemma cache_set_inv sid ty l h c q r s' :
  cache_set sid ty l (State h c q) = (r, s') →
  (∃ by_type, c !! sid = Some by_type ∧ r = Ok () ∧
     s' = State h (<[sid := <[ty := l]> by_type]> c) q) ∨
  (c !! sid = None ∧ r = Raise (KeyError (VInt sid)) ∧
     s' = State h c q).
Proof.
  unfold cache_set. simpl. destruct (c !! sid) as [by_type|].
  - intros [= <- <-]. left. eauto.
  - intros [= <- <-]. by right.
Qed.

Lemma list_snoc_shape {A} (h l : list A) :
  List.length l = S (List.length h) →
  (∀ i, (i < List.length h)%nat → l !! i = h !! i) →
  ∃ x, l = h ++ [x].
Proof.
  intros Hlen Hpre.
  destruct (l !! List.length h) as [x|] eqn:Hx;
    [|apply lookup_ge_None in Hx; lia].
  exists x. apply list_eq. intros i.
  destruct (decide (i < List.length h)%nat).
  - rewrite Hpre, lookup_app_l by done. done.
  - destruct (decide (i = List.length h)) as [->|].
    + by rewrite Hx, list_lookup_middle.
    + rewrite !lookup_ge_None_2; [done|..];
        rewrite ?length_app; simpl; lia.
Qed.

(** A loop that writes to the last list only. *)
Lemma loop_shape {A} (body : A → M ()) (xs : list A) h rows c q r s2 :
  (∀ x, above (List.length h) (body x)) →
  for_each body xs (State (h ++ [rows]) c q) = (r, s2) →
  ∃ rows2, s2 = State (h ++ [rows2]) c q.
Proof.
  intros Hbody Hloop.
  apply (above_for_each (List.length h)) in Hloop
    as (Hh & Hl & Hc & Hq); [|done].
  destruct s2 as [h2 c2 q2]. simpl in *. subst c2 q2.
  destruct (list_snoc_shape h h2) as [x ->].
  - rewrite Hl, length_app. simpl. lia.
  - intros i Hi. rewrite Hh by done. by apply lookup_app_l.
  - eauto.
Qed.

(** The states a miss can end in, whatever its outcome: no list or one
    list is added at the end of the heap, and the cache is as it was
    unless the call returns the new list, which is then the entry of
    the server and type. *)
Lemma fetch_from_server_shape conn sid ty h c q r s' :
  fetch_from_server vacuum_fields render_sql conn sid ty (State h c q)
    = (r, s') →
  ∃ h' c' q',
    s' = State h' c' q' ∧
    (h' = h ∨ ∃ rows, h' = h ++ [rows]) ∧
    ((c' = c ∧ ∀ l, r ≠ Ok (Data l)) ∨
     (∃ by_type rows,
        c !! sid = Some by_type ∧
        c' = <[sid := <[ty := List.length h]> by_type]> c ∧
        h' = h ++ [rows] ∧ r = Ok (Data (List.length h)))).
Proof.
  unfold fetch_from_server.
  intros [(fields & s0 & Hf & H)|(e & Hf & ->)]%bind_inv;
    unfold lift in Hf; injection Hf as Hf <-.
  2:{ exists h, c, q. split; [done|]. split; [by left|]. by left. }
  clear Hf.
  apply bind_inv in H as [(res & s1 & Hexec & H)|(e & Hexec & ->)];
    apply execute_dict_inv in Hexec
      as [(rows & _ & Hres & ->)|(msg & _ & Hres & ->)];
    simpl in *; try discriminate.
  2:{ injection Hres as ->. unfold mret, M_ret in H.
      injection H as <- <-. eexists _, _, _.
      split; [done|]. split; [by left|]. by left. }
  injection Hres as ->.
  apply bind_inv in H as [(rows' & s2 & Hread & H)|(e & Hread & ->)];
    unfold read_list in Hread; simpl in Hread;
    injection Hread as Hread <-.
  2:{ eexists _, _, _. split; [done|]. split; [eauto|]. by left. }
  clear Hread.
  apply bind_inv in H as [([] & s3 & Hloop & H)|(e & Hloop & ->)];
    apply loop_shape in Hloop as [rows2 ->];
    try (intros ?; by apply above_label_row).
  2:{ eexists _, _, _. split; [done|]. split; [eauto|]. by left. }
  apply bind_inv in H as [([] & s4 & Hset & H)|(e & Hset & ->)];
    apply cache_set_inv in Hset
      as [(by_type & Hsid & Hr & ->)|(Hsid & Hr & ->)];
    try discriminate.
  2:{ eexists _, _, _. split; [done|]. split; [eauto|]. by left. }
  assert (cache_get sid ty
            (State (h ++ [rows2])
               (<[sid := <[ty := List.length h]> by_type]> c)
               (q ++ [vacuum_defaults_sql render_sql fields]))
          = (Ok (List.length h),
             State (h ++ [rows2])
               (<[sid := <[ty := List.length h]> by_type]> c)
               (q ++ [vacuum_defaults_sql render_sql fields])))
    as Hget.
  { unfold cache_get, getkey. simpl. by rewrite !lookup_insert_eq. }
  unfold mbind, M_bind in H. rewrite Hget in H.
  unfold mret, M_ret in H. injection H as <- <-.
  eexists _, _, _. split; [done|]. split; [eauto|]. right. eauto 10.
Qed.

(** A miss keeps what was there. *)
Lemma fetch_from_server_grows conn sid ty s r s' :
  cached s sid ty = None →
  no_dangling s →
  fetch_from_server vacuum_fields render_sql conn sid ty s = (r, s') →
  grows s s' ∧ no_dangling s' ∧
  ∀ l, r = Ok (Data l) → (l < List.length (heap s'))%nat.
Proof.
  intros Hmiss Hwf H. destruct s as [h c q].
  apply fetch_from_server_shape in H
    as (h' & c' & q' & -> & Hh & Hc).
  assert (∀ l rows, h !! l = Some rows → h' !! l = Some rows) as Hpre.
  { intros l rows Hl. destruct Hh as [->|[x ->]]; [done|].
    by apply lookup_app_l_Some. }
  assert (List.length h ≤ List.length h')%nat as Hlen.
  { destruct Hh as [->|[x ->]]; [done|]. rewrite length_app. lia. }
  destruct Hc as [[-> Hr]|(by_type & rows & Hsid & -> & -> & ->)].
  - split; [by apply grows_heap|]. split.
    + intros sid0 ty0 l Hl. apply Hwf in Hl. simpl in *. lia.
    + intros l ->. by destruct (Hr l).
  - assert (by_type !! ty = None) as Hty.
    { unfold cached in Hmiss. simpl in Hmiss.
      by rewrite Hsid in Hmiss. }
    split; [|split].
    + split; [done|]. intros sid0 ty0 l. unfold cached. simpl.
      destruct (decide (sid0 = sid)) as [->|];
        [|by rewrite lookup_insert_ne].
      rewrite lookup_insert_eq, Hsid. simpl.
      destruct (decide (ty0 = ty)) as [->|];
        [congruence|by rewrite lookup_insert_ne].
    + intros sid0 ty0 l. unfold cached. simpl.
      rewrite length_app. simpl.
      destruct (decide (sid0 = sid)) as [->|].
      * rewrite lookup_insert_eq. simpl.
        destruct (decide (ty0 = ty)) as [->|].
        -- rewrite lookup_insert_eq. intros [= <-]. lia.
        -- rewrite lookup_insert_ne by done. intros Hl.
           assert (l < List.length h)%nat; [|lia].
           apply (Hwf sid ty0). unfold cached. simpl.
           by rewrite Hsid.
      * rewrite lookup_insert_ne by done. intros Hl.
        assert (l < List.length h)%nat; [|lia].
        by apply (Hwf sid0 ty0).
    + intros l [= <-]. simpl. rewrite length_app. simpl. lia.
Qed.

Lemma fetch_grows conn sid ty s r s' :
  no_dangling s →
  fetch conn sid ty s = (r, s') →
  grows s s' ∧ no_dangling s' ∧
  ∀ l, r = Ok (Data l) → is_Some (heap s' !! l).
Proof.
  intros Hwf. unfold fetch_default_vacuum_settings.
  assert (∀ l, (l < List.length (heap s'))%nat → is_Some (heap s' !! l))
    as Hsome by (intros l; apply lookup_lt_is_Some).
  destruct (vacuum_settings s !! sid) as [by_type|] eqn:Hsid.
  - destruct (by_type !! ty) as [l|] eqn:Hty.
    + intros [= <- <-]. split; [apply grows_refl|]. split; [done|].
      intros l' [= <-]. apply lookup_lt_is_Some.
      apply (Hwf sid ty). unfold cached. by rewrite Hsid.
    + intros H. apply fetch_from_server_grows in H as (? & ? & ?);
        [by eauto|unfold cached; by rewrite Hsid|done].
  - set (s0 := set_vacuum_settings (<[sid := ∅]>) s).
    assert (grows s s0 ∧ no_dangling s0 ∧ cached s0 sid ty = None)
      as (Hg & Hwf0 & Hmiss).
    { split; [|split].
      - split; [done|]. intros sid0 ty0 l. unfold cached. simpl.
        destruct (decide (sid0 = sid)) as [->|];
          [by rewrite Hsid|by rewrite lookup_insert_ne].
      - intros sid0 ty0 l. unfold cached. simpl.
        destruct (decide (sid0 = sid)) as [->|].
        + by rewrite lookup_insert_eq.
        + rewrite lookup_insert_ne by done. apply (Hwf sid0 ty0).
      - unfold cached. simpl. by rewrite lookup_insert_eq. }
    intros H. apply fetch_from_server_grows in H as (Hg' & ? & ?);
      [|done..].
    split; [|by eauto].
    destruct Hg as [Hh Hc], Hg' as [Hh' Hc']. split; eauto.
Qed.


Lemma grows_trans s1 s2 s3 : grows s1 s2 → grows s2 s3 → grows s1 s3.
Proof. intros [? ?] [? ?]. split; eauto. Qed.

(** X26: whatever a call of [fetch_default_vacuum_settings] returns
    or raises, the lists that were on the heap have the rows they
    had, and the entries that were in the cache are still there: a
    fetch for one server and type never evicts or rewrites what was
    fetched before.  When the cache refers to lists of the heap
    before the call, it does so after it, and so does the reference
    that is returned. *)
Theorem fetch_keeps_cache conn sid ty s r s' :
  no_dangling s →
  fetch conn sid ty s = (r, s') →
  (∀ l rows, heap s !! l = Some rows → heap s' !! l = Some rows) ∧
  (∀ sid0 ty0 l,
     cached s sid0 ty0 = Some l → cached s' sid0 ty0 = Some l) ∧
  (∀ sid0 ty0 l,
     cached s' sid0 ty0 = Some l → is_Some (heap s' !! l)) ∧
  (∀ l, r = Ok (Data l) → is_Some (heap s' !! l)).
Proof.
  intros Hwf H.
  destruct (fetch_grows _ _ _ _ _ _ Hwf H) as ([Hh Hc] & Hwf' & Hr).
  repeat split; [done|done| |done].
  intros sid0 ty0 l Hl. apply lookup_lt_is_Some. by eapply Hwf'.
Qed.

(** X27: whatever [parse_vacuum_data] returns or raises (also when an
    observed value cannot be converted), the lists that were on the
    heap have the rows they had and the cache entries are kept; the
    list that is returned is a list of the heap that no cache entry
    refers to. *)
Theorem parse_vacuum_data_keeps_cache conn sid result ty s r s' :
  no_dangling s →
  parse_vacuum_data vacuum_fields render_sql float_of_string str_float
    conn sid result ty s = (r, s') →
  (∀ l rows, heap s !! l = Some rows → heap s' !! l = Some rows) ∧
  (∀ sid0 ty0 l,
     cached s sid0 ty0 = Some l → cached s' sid0 ty0 = Some l) ∧
  (∀ l, r = Ok l →
     is_Some (heap s' !! l) ∧
     ∀ sid0 ty0, cached s' sid0 ty0 ≠ Some l).
Proof.
  intros Hwf. unfold parse_vacuum_data.
  intros [(res & s1 & Hfetch & H)|(e & Hfetch & ->)]%bind_inv.
  2:{ destruct (fetch_grows _ _ _ _ _ _ Hwf Hfetch) as ([? ?] & _ & _).
      by repeat split. }
  destruct (fetch_grows _ _ _ _ _ _ Hwf Hfetch) as (Hg1 & Hwf1 & Hr1).
  destruct res as [l|msg].
  2:{ unfold lift in H. injection H as <- <-. destruct Hg1.
      by repeat split. }
  destruct s1 as [h1 c1 q1].
  apply bind_inv in H as [(rows & s2 & Hread & H)|(e & Hread & ->)];
    unfold read_list in Hread; injection Hread as Hread <-.
  2:{ destruct Hg1. by repeat split. }
  clear Hread.
  apply bind_inv in H as [(tmp & s3 & Halloc & H)|(e & Halloc & ->)];
    unfold alloc, set_heap in Halloc; simpl in Halloc;
    [|discriminate].
  injection Halloc as <- <-.
  assert (∀ rows2 s',
            s' = State (h1 ++ [rows2]) c1 q1 →
            (∀ l rows, heap s !! l = Some rows →
                       heap s' !! l = Some rows) ∧
            (∀ sid0 ty0 l, cached s sid0 ty0 = Some l →
                           cached s' sid0 ty0 = Some l) ∧
            is_Some (heap s' !! List.length h1) ∧
            ∀ sid0 ty0, cached s' sid0 ty0 ≠ Some (List.length h1))
    as Hfinal.
  { intros rows2 s'' ->. destruct Hg1 as [Hh Hc]. simpl in *.
    repeat split.
    - intros l0 rows0 Hl0. by apply lookup_app_l_Some, Hh.
    - done.
    - rewrite list_lookup_middle by done. eauto.
    - intros sid0 ty0 Hl. apply Hwf1 in Hl. simpl in Hl. lia. }
  apply bind_inv in H as [([] & s4 & Hloop & H)|(e & Hloop & ->)];
    apply loop_shape in Hloop as [rows2 Hs];
    try (intros ?; by apply above_parse_row).
  - unfold mret, M_ret in H. injection H as <- <-.
    destruct (Hfinal rows2 _ Hs) as (? & ? & ? & ?).
    split; [done|]. split; [done|]. by intros ? [= <-].
  - destruct (Hfinal rows2 _ Hs) as (? & ? & ? & ?).
    by repeat split.
Qed.

(** X28: a failed query is not stored: the call returns the
    server-error result with the message of the connection, the
    query has been issued, the heap is as it was and there is still
    no entry for the server and type (so the next call asks again);
    a setting type that the field template does not have raises
    before any query is issued. *)
Theorem fetch_failure_not_cached conn sid ty s :
  cached s sid ty = None →
  (∀ fields msg,
     dict_get vacuum_fields ty = Ok fields →
     conn (queries s) (vacuum_defaults_sql render_sql fields)
       = ExecFail msg →
     ∃ s', fetch conn sid ty s = (Ok (InternalServerError msg), s') ∧
           heap s' = heap s ∧
           queries s' =
             queries s ++ [vacuum_defaults_sql render_sql fields] ∧
           cached s' sid ty = None) ∧
  (∀ e, dict_get vacuum_fields ty = Raise e →
     ∃ s', fetch conn sid ty s = (Raise e, s') ∧
           heap s' = heap s ∧ queries s' = queries s ∧
           cached s' sid ty = None).
Proof.
  intros Hmiss. unfold cached in Hmiss. split.
  - intros fields msg Hfields Hconn.
    unfold fetch_default_vacuum_settings.
    destruct (vacuum_settings s !! sid) as [by_type|] eqn:Hsid;
      simpl in Hmiss; rewrite ?Hmiss;
      unfold fetch_from_server, mbind, M_bind, lift;
      rewrite Hfields; unfold execute_dict; simpl; rewrite Hconn;
      eexists; (split; [reflexivity|]); unfold cached; simpl;
      repeat split; rewrite ?lookup_insert_eq, ?Hsid; done.
  - intros e Hfields.
    unfold fetch_default_vacuum_settings.
    destruct (vacuum_settings s !! sid) as [by_type|] eqn:Hsid;
      simpl in Hmiss; rewrite ?Hmiss;
      unfold fetch_from_server, mbind, M_bind, lift;
      rewrite Hfields;
      eexists; (split; [reflexivity|]); unfold cached; simpl;
      repeat split; rewrite ?lookup_insert_eq, ?Hsid; done.
Qed.

End WithEnvironment.

Lemma no_dangling_empty : no_dangling VacuumExample.s0.
Proof. intros sid ty l. unfold cached. simpl. by rewrite lookup_empty. Qed.

Lemma fetch_keeps_cache_witness :
  (∀ l rows, heap VacuumExample.s0 !! l = Some rows →
             heap VacuumExample.s1 !! l = Some rows) ∧
  (∀ sid0 ty0 l,
     cached VacuumExample.s0 sid0 ty0 = Some l →
     cached VacuumExample.s1 sid0 ty0 = Some l) ∧
  (∀ sid0 ty0 l,
     cached VacuumExample.s1 sid0 ty0 = Some l →
     is_Some (heap VacuumExample.s1 !! l)) ∧
  (∀ l, Ok (Data 0%nat) = Ok (Data l) →
        is_Some (heap VacuumExample.s1 !! l)).
Proof.
  apply (fetch_keeps_cache VacuumExample.fields VacuumExample.render
           VacuumExample.conn 1 "table" VacuumExample.s0
           (Ok (Data 0%nat)) VacuumExample.s1).
  - intros sid ty l. unfold cached. simpl. by rewrite lookup_empty.
  - vm_compute. reflexivity.
Defined.

Lemma parse_vacuum_data_keeps_cache_witness :
  let '(r, s') :=
    parse_vacuum_data VacuumExample.fields VacuumExample.render
      VacuumExample.float_of_string VacuumExample.str_float
      VacuumExample.conn 1 {[ "autovacuum_vacuum_threshold" := VStr "many" ]}
      "table" VacuumExample.s1 in
  r = Raise (ValueError "could not convert string to float") ∧
  (∀ l rows, heap VacuumExample.s1 !! l = Some rows →
             heap s' !! l = Some rows) ∧
  (∀ sid0 ty0 l,
     cached VacuumExample.s1 sid0 ty0 = Some l →
     cached s' sid0 ty0 = Some l).
Proof.
  destruct (parse_vacuum_data _ _ _ _ _ _ _ _ _) as [r s'] eqn:E.
  split.
  - vm_compute in E. by injection E as <- _.
  - pose proof (parse_vacuum_data_keeps_cache VacuumExample.fields
                  VacuumExample.render VacuumExample.float_of_string
                  VacuumExample.str_float VacuumExample.conn 1
                  {[ "autovacuum_vacuum_threshold" := VStr "many" ]}
                  "table" VacuumExample.s1 r s') as H.
    destruct H as (Hh & Hc & _); [|exact E|by split].
    intros sid ty l. unfold cached.
    change (vacuum_settings VacuumExample.s1)
      with (<[1 := <["table" := 0%nat]> ∅]> (∅ : gmap Z (gmap string nat))).
    destruct (decide (sid = 1)) as [->|];
      [|by rewrite lookup_insert_ne, lookup_empty].
    rewrite lookup_insert_eq. simpl.
    destruct (decide (ty = "table")) as [->|];
      [|by rewrite lookup_insert_ne, lookup_empty].
    rewrite lookup_insert_eq. intros [= <-]. vm_compute. lia.
Defined.

Lemma fetch_failure_not_cached_witness :
  ∃ s',
    fetch_default_vacuum_settings VacuumExample.fields VacuumExample.render
      VacuumExample.down 1 "table" VacuumExample.s0
      = (Ok (InternalServerError "connection lost"), s') ∧
    heap s' = heap VacuumExample.s0 ∧
    queries s' =
      queries VacuumExample.s0 ++
        [vacuum_defaults_sql VacuumExample.render
           VacuumExample.table_fields] ∧
    cached s' 1 "table" = None.
Proof.
  apply (proj1 (fetch_failure_not_cached VacuumExample.fields
                  VacuumExample.render VacuumExample.down 1 "table"
                  VacuumExample.s0 eq_refl)
           VacuumExample.table_fields "connection lost");
    reflexivity.
Defined.

End VacuumInvariantFacts.
